(** * Monetary-cell normalizer and fiscal decomposer

    A shallow embedding of [src/transformation.py]
    ([limpiar_celda_dinero_auditado], [calcular_impuestos]) and of the
    strictly-positive filter of [main.py], with the Python primitives they
    rely on ([str.lower], [str.strip], [str.replace], [float], [re.findall],
    [re.sub], [re.search]).

    Modelling choices
    - a Python [str] is a [string]; a character is a code point below 256
      (Latin-1), on which [lower], [isspace] and the regex classes [\d],
      [\s] are written out as Python defines them;
    - a Python [float] amount is an exact rational ([Q]); a missing
      exchange rate (NaN, what [pd.isna] detects) is [None];
    - exceptions are explicit: fallible primitives return [resultado], and
      [try ... except Exception] is [try_except]. *)

From Stdlib Require Import String Ascii List Bool Arith ZArith NArith QArith Lia.
From Stdlib Require Decimal DecimalString DecimalPos DecimalN.
Import ListNotations.

Local Open Scope string_scope.
Local Open Scope bool_scope.

(** ** Python string primitives *)

Module PyStr.

Definition code (c : ascii) : nat := nat_of_ascii c.

Definition entre (lo hi : nat) (c : ascii) : bool :=
  (lo <=? code c)%nat && (code c <=? hi)%nat.

(** [\d] and [str.isdecimal] below code point 256: the digits 0-9. *)
Definition es_digito (c : ascii) : bool := entre 48 57 c.

(** [\s] and [str.isspace] below code point 256. *)
Definition es_espacio (c : ascii) : bool :=
  entre 9 13 c || entre 28 32 c || (code c =? 133)%nat || (code c =? 160)%nat.

(** The white space [float] ignores around a numeral: the ASCII white
    space and the two Latin-1 spaces, without the separators 28-31. *)
Definition es_espacio_float (c : ascii) : bool :=
  entre 9 13 c || (code c =? 32)%nat || (code c =? 133)%nat || (code c =? 160)%nat.

(** [[a-zA-Z]] *)
Definition es_letra (c : ascii) : bool := entre 97 122 c || entre 65 90 c.

(** [[.,]] *)
Definition es_punto_o_coma (c : ascii) : bool :=
  Ascii.eqb c "." || Ascii.eqb c ",".

(** [[\d.,]] *)
Definition es_numerico (c : ascii) : bool := es_digito c || es_punto_o_coma c.

(** [str.lower] on one character: A-Z and the Latin-1 capitals
    (0xC0-0xDE except the multiplication sign 0xD7) move up by 32. *)
Definition lower_char (c : ascii) : ascii :=
  if entre 65 90 c || (entre 192 222 c && negb (code c =? 215)%nat)
  then ascii_of_nat (code c + 32)
  else c.

Fixpoint lower (s : string) : string :=
  match s with
  | EmptyString => EmptyString
  | String c s' => String (lower_char c) (lower s')
  end.

(** Leading and trailing characters of class [p] removed. *)
Fixpoint lstrip_con (p : ascii -> bool) (s : string) : string :=
  match s with
  | EmptyString => EmptyString
  | String c s' => if p c then lstrip_con p s' else s
  end.

(** Right to left: a character is kept when it is not in [p] or when
    something is kept after it. *)
Fixpoint rstrip_con (p : ascii -> bool) (s : string) : string :=
  match s with
  | EmptyString => EmptyString
  | String c s' =>
      match rstrip_con p s' with
      | EmptyString => if p c then EmptyString else String c EmptyString
      | r => String c r
      end
  end.

(** [str.strip()] *)
Definition strip (s : string) : string :=
  rstrip_con es_espacio (lstrip_con es_espacio s).

Fixpoint drop (n : nat) (s : string) : string :=
  match n, s with
  | O, _ => s
  | S _, EmptyString => EmptyString
  | S n', String _ s' => drop n' s'
  end.

Fixpoint take (n : nat) (s : string) : string :=
  match n, s with
  | O, _ => EmptyString
  | S _, EmptyString => EmptyString
  | S n', String c s' => String c (take n' s')
  end.

(** [s.replace(old, new)] for one-character [old] and [new]. *)
Fixpoint replace_char (old new : ascii) (s : string) : string :=
  match s with
  | EmptyString => EmptyString
  | String c s' =>
      String (if Ascii.eqb c old then new else c) (replace_char old new s')
  end.

(** [s.replace(old, "")] for a one-character [old]. *)
Fixpoint remove_char (old : ascii) (s : string) : string :=
  match s with
  | EmptyString => EmptyString
  | String c s' =>
      if Ascii.eqb c old then remove_char old s' else String c (remove_char old s')
  end.

(** [s.replace(old, "", 1)]: the first (leftmost) occurrence of [old] is
    deleted; [s] is returned unchanged when [old] does not occur. *)
Fixpoint remove_first (old s : string) : string :=
  if prefix old s then drop (String.length old) s
  else match s with
       | EmptyString => EmptyString
       | String c s' => String c (remove_first old s')
       end.

(** [sep.join(l)] *)
Fixpoint join (sep : string) (l : list string) : string :=
  match l with
  | [] => EmptyString
  | [x] => x
  | x :: rest => x ++ sep ++ join sep rest
  end.

(** [x in l] for a list of strings. *)
Definition in_list (x : string) (l : list string) : bool :=
  existsb (String.eqb x) l.

Fixpoint todos (p : ascii -> bool) (s : string) : bool :=
  match s with
  | EmptyString => true
  | String c s' => p c && todos p s'
  end.

(** The characters [es_digito] accepts. *)
Definition diez_digitos : list ascii :=
  ["0"; "1"; "2"; "3"; "4"; "5"; "6"; "7"; "8"; "9"]%char.

End PyStr.

(** ** Exceptions *)

Inductive excepcion : Set := ValueError | ZeroDivisionError.

Inductive resultado (A : Type) : Type :=
| Ok (a : A)
| Raise (e : excepcion).
Arguments Ok {A} a.
Arguments Raise {A} e.

Definition bind {A B : Type} (m : resultado A) (f : A -> resultado B) : resultado B :=
  match m with
  | Ok a => f a
  | Raise e => Raise e
  end.

(** [try: body  except Exception: handler] *)
Definition try_except {A : Type} (body : resultado A) (handler : A) : A :=
  match body with
  | Ok a => a
  | Raise _ => handler
  end.

Notation "x <- m ;; k" := (bind m (fun x => k))
  (at level 61, m at next level, right associativity).

(** ** A backtracking matcher for the [re] patterns of the module *)

Module Re.
Import PyStr.

(** The fragment of Python's [re] syntax the source uses.  Quantifiers
    are greedy and apply to one character class; alternation tries its
    branches left to right; [Group] is the capturing group 1. *)
Inductive regex : Type :=
| Cls (p : ascii -> bool)
| Lit (s : string)
| Seq (a b : regex)
| Alt (a b : regex)
| Opt (p : ascii -> bool)
| Star (p : ascii -> bool)
| Plus (p : ascii -> bool)
| Group (a : regex).

Section Exec.
Variable R : Type.

(** Continuations receive the unread text and the group captured so far. *)
Definition cont : Type := string -> option string -> option R.

Definition orelse (x y : option R) : option R :=
  match x with
  | Some _ => x
  | None => y
  end.

(** Greedy [p*]: take a character when possible, and fall back to
    stopping here when the rest of the pattern fails after it. *)
Fixpoint star (p : ascii -> bool) (s : string) (cap : option string)
         (k : cont) : option R :=
  match s with
  | EmptyString => k s cap
  | String c s' =>
      if p c then orelse (star p s' cap k) (k s cap) else k s cap
  end.

Fixpoint exec (r : regex) (s : string) (cap : option string)
         (k : cont) : option R :=
  match r with
  | Cls p =>
      match s with
      | String c s' => if p c then k s' cap else None
      | EmptyString => None
      end
  | Lit l => if prefix l s then k (drop (String.length l) s) cap else None
  | Seq a b => exec a s cap (fun s1 cap1 => exec b s1 cap1 k)
  | Alt a b => orelse (exec a s cap k) (exec b s cap k)
  | Opt p =>
      match s with
      | String c s' => if p c then orelse (k s' cap) (k s cap) else k s cap
      | EmptyString => k s cap
      end
  | Star p => star p s cap k
  | Plus p =>
      match s with
      | String c s' => if p c then star p s' cap k else None
      | EmptyString => None
      end
  | Group a =>
      exec a s cap
           (fun s1 _ => k s1 (Some (take (String.length s - String.length s1) s)))
  end.
End Exec.

Arguments exec {R} r s cap k.
Arguments star {R} p s cap k.

(** One match attempt anchored at the start of [s] ([re.match]):
    the matched text and the text of group 1. *)
Definition match_at (r : regex) (s : string) : option (string * option string) :=
  exec r s None
       (fun rest cap => Some (take (String.length s - String.length rest) s, cap)).

(** Left-to-right scan for non-overlapping matches.  [skip] counts the
    characters still covered by the last match.  The patterns of the
    module never match the empty text ([patrones_no_vacios] below), so no
    attempt is made at the end of the text; an empty match elsewhere would
    be recorded and the scan would move on by one character. *)
Fixpoint finditer (r : regex) (s : string) (skip : nat)
  : list (string * option string) :=
  match s with
  | EmptyString => []
  | String _ s' =>
      match skip with
      | S n => finditer r s' n
      | O =>
          match match_at r s with
          | Some (m, g) => (m, g) :: finditer r s' (String.length m - 1)
          | None => finditer r s' 0
          end
      end
  end.

(** [re.findall] for a pattern with one group: the group texts. *)
Definition findall_group (r : regex) (s : string) : list string :=
  map (fun mg => match snd mg with Some g => g | None => EmptyString end)
      (finditer r s 0).

(** [re.findall] for a pattern without groups: the matched texts. *)
Definition findall (r : regex) (s : string) : list string :=
  map fst (finditer r s 0).

(** [re.sub(r, "", s)] *)
Fixpoint sub_empty (r : regex) (s : string) (skip : nat) : string :=
  match s with
  | EmptyString => EmptyString
  | String c s' =>
      match skip with
      | S n => sub_empty r s' n
      | O =>
          match match_at r s with
          | Some (EmptyString, _) => String c (sub_empty r s' 0)
          | Some (m, _) => sub_empty r s' (String.length m - 1)
          | None => String c (sub_empty r s' 0)
          end
      end
  end.

(** [bool(re.search(r, s))] *)
Fixpoint search (r : regex) (s : string) : bool :=
  match match_at r s with
  | Some _ => true
  | None =>
      match s with
      | EmptyString => false
      | String _ s' => search r s'
      end
  end.

End Re.

(** ** What a pattern can match *)

Module ReLang.
Import PyStr Re.

(** [lang r w]: the text [w] belongs to the language of [r]. *)
Inductive lang : regex -> string -> Prop :=
| L_cls (p : ascii -> bool) (c : ascii) :
    p c = true -> lang (Cls p) (String c EmptyString)
| L_lit (l : string) : lang (Lit l) l
| L_seq (a b : regex) (w1 w2 : string) :
    lang a w1 -> lang b w2 -> lang (Seq a b) (w1 ++ w2)
| L_alt_l (a b : regex) (w : string) : lang a w -> lang (Alt a b) w
| L_alt_r (a b : regex) (w : string) : lang b w -> lang (Alt a b) w
| L_opt_none (p : ascii -> bool) : lang (Opt p) EmptyString
| L_opt_some (p : ascii -> bool) (c : ascii) :
    p c = true -> lang (Opt p) (String c EmptyString)
| L_star (p : ascii -> bool) (w : string) :
    todos p w = true -> lang (Star p) w
| L_plus (p : ascii -> bool) (c : ascii) (w : string) :
    p c = true -> todos p w = true -> lang (Plus p) (String c w)
| L_group (a : regex) (w : string) : lang a w -> lang (Group a) w.

(** The bodies of the capturing groups of a pattern. *)
Fixpoint grupos (r : regex) : list regex :=
  match r with
  | Seq a b | Alt a b => grupos a ++ grupos b
  | Group a => a :: grupos a
  | _ => []
  end.

(** The capture [cap'] after matching [r], starting from [cap]: left as
    it was, or the text of one of the groups of [r]. *)
Definition cap_ok (r : regex) (cap cap' : option string) : Prop :=
  cap' = cap
  \/ exists a g, In a (grupos r) /\ lang a g /\ cap' = Some g.

(** [[\d.]]: the characters of a numeral handed to [float]. *)
Definition es_decimal (c : ascii) : bool := es_digito c || Ascii.eqb c ".".

Definition no_es_menos (c : ascii) : bool := negb (Ascii.eqb c "-").

End ReLang.

(** ** [src/transformation.py] *)

Module Transformation.
Import PyStr Re.

Local Open Scope Q_scope.

(** [a < b] on amounts. *)
Definition Qltb (a b : Q) : bool := negb (Qle_bool b a).

(** *** [float(s)] *)

Definition digito (c : ascii) : N := N.of_nat (code c - 48).

Fixpoint valor_digitos (acc : N) (s : string) : N :=
  match s with
  | EmptyString => acc
  | String c s' => valor_digitos (10 * acc + digito c) s'
  end.

Fixpoint pow10 (k : nat) : positive :=
  match k with
  | O => 1%positive
  | S k' => (10 * pow10 k')%positive
  end.

Fixpoint take_while (p : ascii -> bool) (s : string) : string :=
  match s with
  | EmptyString => EmptyString
  | String c s' => if p c then String c (take_while p s') else EmptyString
  end.

Fixpoint drop_while (p : ascii -> bool) (s : string) : string :=
  match s with
  | EmptyString => EmptyString
  | String c s' => if p c then drop_while p s' else s
  end.

(** The number written by the integer digits [ip] followed by the
    fraction digits [fr]. *)
Definition decimal (ip fr : string) : Q :=
  Z.of_N (valor_digitos 0 (ip ++ fr)) # pow10 (String.length fr).

(** [float(s)] on plain decimal text: surrounding white space is
    ignored, then an optional sign, digits, and an optional point with
    digits, at least one digit in all; any other text raises
    [ValueError].  Python also reads exponents, [inf], [nan] and [_]
    digit grouping; those texts hold a letter or an underscore, which
    the texts this module passes to [float] never do (see
    [n_clean_chars] and [monto_clean_chars] below). *)
Definition float (s : string) : resultado Q :=
  let t := rstrip_con es_espacio_float (lstrip_con es_espacio_float s) in
  let '(neg, u) :=
    match t with
    | String "-" r => (true, r)
    | String "+" r => (false, r)
    | _ => (false, t)
    end in
  let ip := take_while es_digito u in
  let rest := drop_while es_digito u in
  let ofr :=
    match rest with
    | EmptyString => Some EmptyString
    | String "." f => if todos es_digito f then Some f else None
    | _ => None
    end in
  match ofr with
  | Some fr =>
      if ((String.length ip =? 0) && (String.length fr =? 0))%nat
      then Raise ValueError
      else Ok (if neg then - decimal ip fr else decimal ip fr)
  | None => Raise ValueError
  end.

(** *** The patterns *)

(** The marker alternation [u\$|usd|us|dolar]. *)
Definition marcador_usd : regex :=
  Alt (Lit "u$") (Alt (Lit "usd") (Alt (Lit "us") (Lit "dolar"))).

(** [patron_usd]: group 1 is [\d+], [[.,]?], [\d*] in sequence; after it
    [\s*] and the marker alternation. *)
Definition patron_usd : regex :=
  Seq (Group (Seq (Plus es_digito) (Seq (Opt es_punto_o_coma) (Star es_digito))))
      (Seq (Star es_espacio) marcador_usd).

(** [[a-zA-Z]] *)
Definition patron_letra : regex := Cls es_letra.

(** The pattern of [re.sub]: [u\$|usd|us|dolar|\$]. *)
Definition patron_marcadores : regex :=
  Alt (Lit "u$") (Alt (Lit "usd") (Alt (Lit "us") (Alt (Lit "dolar") (Lit "$")))).

(** [[\d.,]+] *)
Definition patron_numeros : regex := Plus es_numerico.

(** *** [limpiar_celda_dinero_auditado] *)

Definition CONVERSION_USD : string := "CONVERSION_USD".
Definition POSIBLE_FECHA_IGNORADA : string := "POSIBLE_FECHA_IGNORADA".
Definition LIMPIEZA_TEXTO : string := "LIMPIEZA_TEXTO".
Definition NORMAL : string := "NORMAL".
Definition VACIO : string := "VACIO".

(** The [try] body of the dollar loop (lines 57-60), on the loop state
    [(total_ars, texto)]. *)
Definition cuerpo_usd (cotizacion : Q) (st : Q * string) (monto_str : string)
  : resultado (Q * string) :=
  let '(total_ars, texto) := st in
  let monto_clean := replace_char "," "." monto_str in
  total_ars' <-
    (if Qltb 0 cotizacion
     then v <- float monto_clean ;; Ok (total_ars + v * cotizacion)
     else Ok total_ars) ;;
  Ok (total_ars', remove_first monto_str texto).

(** One iteration of the dollar loop: [except Exception: pass]. *)
Definition paso_usd (cotizacion : Q) (st : Q * string) (monto_str : string)
  : Q * string :=
  try_except (cuerpo_usd cotizacion st monto_str) st.

Definition n_clean_de (num_str : string) : string :=
  replace_char "," "." (remove_char "." num_str).

(** The [try] body of the peso loop (lines 72-82), on the loop state
    [(total_ars, notas)]; [cuantos] is [len(posibles_numeros)]. *)
Definition cuerpo_pesos (cuantos : nat) (st : Q * list string) (num_str : string)
  : resultado (Q * list string) :=
  let '(total_ars, notas) := st in
  let n_clean := n_clean_de num_str in
  if in_list n_clean [""; "."; ","] then Ok st
  else
    val <- float n_clean ;;
    if Qltb 2020 val && Qltb val 2030 && (cuantos =? 1)%nat
    then Ok (total_ars, (notas ++ [POSIBLE_FECHA_IGNORADA])%list)
    else Ok (total_ars + val, notas).

(** One iteration of the peso loop: [except Exception: continue]. *)
Definition paso_pesos (cuantos : nat) (st : Q * list string) (num_str : string)
  : Q * list string :=
  try_except (cuerpo_pesos cuantos st num_str) st.

Definition coincidencias_usd (texto : string) : list string :=
  findall_group patron_usd texto.

(** Lines 45-62: the dollar pass, giving [(total_ars, texto)]. *)
Definition pase_usd (texto : string) (cotizacion : Q) : Q * string :=
  fold_left (paso_usd cotizacion) (coincidencias_usd texto) (0, texto).

Definition posibles_numeros (texto : string) : list string :=
  findall patron_numeros (sub_empty patron_marcadores texto 0).

(** Lines 45-91: everything between the empty-cell return and the final
    [return], giving [(total_ars, notas)]. *)
Definition auditar (texto : string) (cotizacion : Q) : Q * list string :=
  let notas :=
    match coincidencias_usd texto with
    | [] => []
    | _ :: _ => [CONVERSION_USD]
    end in
  let '(total_ars, texto) := pase_usd texto cotizacion in
  let texto_con_letras := search patron_letra texto in
  let numeros := posibles_numeros texto in
  let '(total_ars, notas) :=
    fold_left (paso_pesos (List.length numeros)) numeros (total_ars, notas) in
  let notas :=
    if texto_con_letras && negb (in_list CONVERSION_USD notas)
    then (notas ++ [LIMPIEZA_TEXTO])%list else notas in
  let notas :=
    match notas with
    | [] => (notas ++ [NORMAL])%list
    | _ :: _ => notas
    end in
  (total_ars, notas).

(** [pd.isna(cotizacion)] replaces a missing rate by [0.0]. *)
Definition cotizacion_de (cotizacion_blue : option Q) : Q :=
  match cotizacion_blue with
  | None => 0
  | Some c => c
  end.

(** [texto = str(valor).lower().strip()]; [valor] is given as [str(valor)]. *)
Definition texto_de (valor : string) : string := strip (lower valor).

Definition es_vacio (texto : string) : bool :=
  (String.length texto =? 0)%nat || in_list texto ["nan"; "none"].

(** The function returns the pair [[monto_ars, notas_auditoria]]. *)
Definition limpiar_celda_dinero_auditado (valor : string) (cotizacion_blue : option Q)
  : resultado (Q * string) :=
  let cotizacion := cotizacion_de cotizacion_blue in
  let texto := texto_de valor in
  if es_vacio texto then Ok (0, VACIO)
  else
    let '(total_ars, notas) := auditar texto cotizacion in
    Ok (total_ars, join " + " notas).

(** The list [notas] behind the returned [notas_auditoria] text. *)
Definition notas_de (valor : string) (cotizacion_blue : option Q) : list string :=
  if es_vacio (texto_de valor) then [VACIO]
  else snd (auditar (texto_de valor) (cotizacion_de cotizacion_blue)).

(** *** [calcular_impuestos] *)

Inductive desglose : Type :=
  Desglose (neto iva iibb syh : Q).

(** Python's [/]: [ZeroDivisionError] is the only way it fails. *)
Definition truediv (a b : Q) : resultado Q :=
  if Qeq_bool b 0 then Raise ZeroDivisionError else Ok (a / b).

Definition calcular_impuestos (monto_ars : Q) (es_fiscal : Z)
  : resultado desglose :=
  let monto_bruto := monto_ars in
  if (es_fiscal =? 1)%Z then
    neto <- truediv monto_bruto (121 # 100) ;;
    let iva := monto_bruto - neto in
    let iibb := neto * (29 # 1000) in
    let syh := neto * (3 # 1000) in
    Ok (Desglose neto iva iibb syh)
  else
    let neto := monto_bruto in
    Ok (Desglose neto 0 0 0).

End Transformation.

(** ** Amounts written back as text *)

Module Formato.

(** [str(n)] for a whole, non-negative amount: its decimal digits, with
    no sign, separator or currency marker. *)
Definition str_entero (n : N) : string :=
  DecimalString.NilZero.string_of_uint (N.to_uint n).

(** An amount written back as text, with no sign, no thousands separator
    and no currency marker: the digits of its whole part [n] and, when it
    has decimals, a comma and its decimal digits [fr]. *)
Definition formato (n : N) (fr : string) : string :=
  match fr with
  | EmptyString => str_entero n
  | String _ _ => str_entero n ++ "," ++ fr
  end.

End Formato.

(** ** The strictly-positive filter of [main.py] *)

Module Main.
Import Transformation.

(** A row of [df_melt]. *)
Record fila : Type := Fila {
  medio_pago_origen : string;
  cotizacion_blue : option Q;
  valor_sucio : string
}.

(** A row of [df_melt] with the two columns the normalizer adds. *)
Record fila_limpia : Type := FilaLimpia {
  origen : fila;
  monto_ars : Q;
  notas_auditoria : string
}.


(** [df_fact = df_melt[df_melt["monto_ars"] > 0]] *)
Definition df_fact (df_melt : list fila_limpia) : list fila_limpia :=
  filter (fun f => Qltb 0 (monto_ars f)) df_melt.



End Main.

(** ** What each loop iteration contributes *)

Module Aportes.
Import PyStr Re Transformation.
Local Open Scope Q_scope.

Definition suma (l : list Q) : Q := fold_right Qplus 0 l.

(** The value a foreign-currency match adds to the total. *)
Definition aporte_usd (cotizacion : Q) (monto_str : string) : Q :=
  if Qltb 0 cotizacion then
    match float (replace_char "," "." monto_str) with
    | Ok v => v * cotizacion
    | Raise _ => 0
    end
  else 0.

(** The number a local candidate denotes, when it denotes one. *)
Definition valor_candidato (num_str : string) : option Q :=
  if in_list (n_clean_de num_str) [""; "."; ","] then None
  else match float (n_clean_de num_str) with
       | Ok v => Some v
       | Raise _ => None
       end.

Definition es_anio (v : Q) : bool := Qltb 2020 v && Qltb v 2030.

(** The value a local candidate adds to the total, among [cuantos]
    candidates. *)
Definition aporte_pesos (cuantos : nat) (num_str : string) : Q :=
  match valor_candidato num_str with
  | Some v => if es_anio v && (cuantos =? 1)%nat then 0 else v
  | None => 0
  end.

(** The value of a candidate, zero when it denotes no number. *)
Definition valor_o_cero (num_str : string) : Q :=
  match valor_candidato num_str with
  | Some v => v
  | None => 0
  end.

(** The tags a local candidate appends. *)
Definition etiqueta_pesos (cuantos : nat) (num_str : string) : list string :=
  match valor_candidato num_str with
  | Some v => if es_anio v && (cuantos =? 1)%nat then [POSIBLE_FECHA_IGNORADA] else []
  | None => []
  end.

(** The working text after the dollar pass. *)
Definition texto_residual (texto : string) (cotizacion : Q) : string :=
  snd (pase_usd texto cotizacion).

(** The candidates of the peso pass. *)
Definition candidatos (texto : string) (cotizacion : Q) : list string :=
  posibles_numeros (texto_residual texto cotizacion).

(** The tags of the dollar pass, of the peso pass and of the letter check,
    before [NORMAL] is considered. *)
Definition notas_usd (texto : string) : list string :=
  match coincidencias_usd texto with
  | [] => []
  | _ :: _ => [CONVERSION_USD]
  end.

Definition notas_fecha (texto : string) (cot : Q) : list string :=
  let cs := candidatos texto cot in
  flat_map (etiqueta_pesos (List.length cs)) cs.

Definition notas_letras (texto : string) (cot : Q) : list string :=
  if search patron_letra (texto_residual texto cot)
     && negb (in_list CONVERSION_USD (notas_usd texto ++ notas_fecha texto cot))
  then [LIMPIEZA_TEXTO] else [].

Definition anomalias (texto : string) (cot : Q) : list string :=
  (notas_usd texto ++ notas_fecha texto cot ++ notas_letras texto cot)%list.

End Aportes.

(** ** Cells that hold foreign-currency amounts only *)

Module CeldasUSD.
Import PyStr Transformation.













(** [s] is empty or starts with a character outside [p]. *)
Definition no_empieza (p : ascii -> bool) (s : string) : bool :=
  match s with
  | EmptyString => true
  | String c _ => negb (p c)
  end.


End CeldasUSD.

(** ** The dollar part and the peso part of a cell *)

Module Partes.
Import PyStr Re Transformation Aportes CeldasUSD.
Local Open Scope Q_scope.

(** The number [float] reads in a matched numeral, zero if it read none. *)
Definition valor_usd (monto_str : string) : Q :=
  match float (replace_char "," "." monto_str) with
  | Ok v => v
  | Raise _ => 0
  end.

(** The rate the dollar loop multiplies by: the guard [cotizacion > 0]
    leaves out every other rate. *)
Definition cotizacion_efectiva (cotizacion : Q) : Q :=
  if Qltb 0 cotizacion then cotizacion else 0.

(** The working text after deleting, match after match, the first
    occurrence of each matched numeral. *)
Definition sin_numerales (texto : string) : string :=
  fold_left (fun t m => remove_first m t) (coincidencias_usd texto) texto.



(** A pattern that cannot match without setting group 1. *)
Fixpoint captura (r : regex) : bool :=
  match r with
  | Group _ => true
  | Seq a b => captura a || captura b
  | Alt a b => captura a && captura b
  | _ => false
  end.

End Partes.

(** ** [calcular_impuestos]: the fields of the result *)

Module Campos.
Import Transformation.

Definition neto_de (d : desglose) : Q := let '(Desglose neto _ _ _) := d in neto.
Definition iva_de (d : desglose) : Q := let '(Desglose _ iva _ _) := d in iva.
Definition iibb_de (d : desglose) : Q := let '(Desglose _ _ iibb _) := d in iibb.
Definition syh_de (d : desglose) : Q := let '(Desglose _ _ _ syh) := d in syh.

End Campos.

(** ** [generar_dim_medios] and the channel lists of [main.py] *)

Module Medios.
Import PyStr.

(** The two accented letters of the tables, as code points. *)
Definition i_acento : ascii := "237"%char.
Definition u_acento : ascii := "250"%char.

Definition fisico : string := "F" ++ String i_acento "sico".

(** The column ["Revendedores solo números"]. *)
Definition revendedores : string :=
  "Revendedores solo n" ++ String u_acento "meros".

(** A row of the payment-channel dimension. *)
Record medio : Type := Medio {
  id_medio : string;
  nombre : string;
  tipo : string;
  es_fiscal : Z
}.

Definition generar_dim_medios : list medio :=
  [ Medio "C" "Efectivo (Caja)" fisico 1;
    Medio "T" "Tarjeta" "Digital" 1;
    Medio "MP (NEGOCIO)" "MercadoPago Oficial" "Digital" 1;
    Medio "M" "Monedero (Informal)" fisico 0;
    Medio revendedores "Cobro Revendedores" fisico 0;
    Medio "MP Usuario E" "MP Empleado E" "Digital" 0;
    Medio "MP Usuario F" "MP Empleado F" "Digital" 0;
    Medio "MP Usuario A" "MP Socio A" "Digital" 0 ].

(** [main.py], lines 111-120. *)
Definition cols_dinero : list string :=
  [ "C"; "T"; "M"; revendedores; "MP (NEGOCIO)";
    "MP Usuario E"; "MP Usuario F"; "MP Usuario A" ].

(** [cols_reales = [c for c in cols_dinero if c in df_merged.columns]] *)
Definition cols_reales (columnas : list string) : list string :=
  filter (fun c => in_list c columnas) cols_dinero.

Definition medios_fiscales : list string := ["C"; "T"; "MP (NEGOCIO)"].

(** [lambda x: 1 if x in medios_fiscales else 0] *)
Definition es_fiscal_de (x : string) : Z :=
  if in_list x medios_fiscales then 1%Z else 0%Z.

End Medios.

(** ** [main.py]: from the merged ledger to the fact table *)

Module Pipeline.
Import PyStr Transformation Campos Medios.
Local Open Scope Q_scope.

(** A row of [df_merged]: the identifier columns and, for every column
    name, the text [str(value)] of its cell.  A timestamp is the ordinal
    of its day: the dates of the ledger and of the rate series carry no
    time of day. *)
Record venta : Type := Venta {
  v_fecha_dt : Z;
  v_cotizacion_blue : option Q;
  v_turno : string;
  v_valor : string -> string
}.

(** A row of [df_melt]. *)
Record fila_melt : Type := FilaMelt {
  fecha_dt : Z;
  cotizacion_blue : option Q;
  turno : string;
  medio_pago_origen : string;
  valor_sucio : string
}.

(** [df_merged.melt(id_vars=..., value_vars=..., var_name="medio_pago_origen",
    value_name="valor_sucio")]: the rows of the first value column, then
    those of the second, and so on. *)
Definition melt (value_vars : list string) (df_merged : list venta)
  : list fila_melt :=
  flat_map
    (fun col =>
       map (fun v => FilaMelt (v_fecha_dt v) (v_cotizacion_blue v) (v_turno v)
                              col (v_valor v col))
           df_merged)
    value_vars.

(** A row of [df_melt] with the two columns of the normalizer. *)
Record fila_limpia : Type := FilaLimpia {
  origen : fila_melt;
  monto_ars : Q;
  notas_auditoria : string
}.

(** [df_melt.apply(lambda row: limpiar_celda_dinero_auditado(row, "valor_sucio"),
    axis=1)]: the function is called on the rows in order, and the first
    exception ends the run.  What [apply] returns for a frame without
    rows is not part of this model; the statements below are about frames
    with a row. *)
Fixpoint aplicar_limpieza (df_melt : list fila_melt)
  : resultado (list fila_limpia) :=
  match df_melt with
  | [] => Ok []
  | f :: resto =>
      r <- limpiar_celda_dinero_auditado (valor_sucio f) (cotizacion_blue f) ;;
      rs <- aplicar_limpieza resto ;;
      Ok (FilaLimpia f (fst r) (snd r) :: rs)
  end.

(** The amount the normalizer gives a row of [df_melt]. *)
Definition monto_de (f : fila_melt) : Q :=
  match limpiar_celda_dinero_auditado (valor_sucio f) (cotizacion_blue f) with
  | Ok r => fst r
  | Raise _ => 0
  end.

(** [df_melt[df_melt["monto_ars"] > 0]] *)
Definition positivas (df_melt : list fila_limpia) : list fila_limpia :=
  filter (fun f => Qltb 0 (monto_ars f)) df_melt.

(** [x / cotizacion if cotizacion > 0 else 0]; a missing rate (NaN)
    fails the comparison. *)
Definition en_usd (x : Q) (cotizacion : option Q) : resultado Q :=
  match cotizacion with
  | Some c => if Qltb 0 c then truediv x c else Ok 0
  | None => Ok 0
  end.

(** A row of [df_fact]. *)
Record fact : Type := Fact {
  limpia : fila_limpia;
  fact_monto_ars : Q;
  monto_usd : Q;
  fact_es_fiscal : Z;
  monto_neto : Q;
  impuesto_iva : Q;
  impuesto_iibb : Q;
  tasa_syh : Q;
  monto_neto_usd : Q
}.

(** Lines 143-164: the indicators of one row, before rounding. *)
Definition indicadores (f : fila_limpia) : resultado fact :=
  let cot := cotizacion_blue (origen f) in
  usd <- en_usd (monto_ars f) cot ;;
  let fiscal := es_fiscal_de (medio_pago_origen (origen f)) in
  d <- calcular_impuestos (monto_ars f) fiscal ;;
  neto_usd <- en_usd (neto_de d) cot ;;
  Ok (Fact f (monto_ars f) usd fiscal (neto_de d) (iva_de d) (iibb_de d)
           (syh_de d) neto_usd).

(** Rounding to the nearest integer, ties to the even one. *)
Definition redondeo_par (x : Q) : Z :=
  let n := Qnum x in
  let d := Zpos (Qden x) in
  let q := (n / d)%Z in
  let r := (n mod d)%Z in
  match (2 * r ?= d)%Z with
  | Lt => q
  | Gt => (q + 1)%Z
  | Eq => if Z.even q then q else (q + 1)%Z
  end.

(** [.round(4)] on one number. *)
Definition round4 (x : Q) : Q := redondeo_par (x * 10000) # 10000.

(** [df_fact[cols_numericas] = df_fact[cols_numericas].round(4)] *)
Definition redondear (f : fact) : fact :=
  Fact (limpia f) (round4 (fact_monto_ars f)) (round4 (monto_usd f))
       (fact_es_fiscal f) (round4 (monto_neto f)) (round4 (impuesto_iva f))
       (round4 (impuesto_iibb f)) (round4 (tasa_syh f))
       (round4 (monto_neto_usd f)).

Fixpoint aplicar_indicadores (df_fact : list fila_limpia)
  : resultado (list fact) :=
  match df_fact with
  | [] => Ok []
  | f :: resto =>
      x <- indicadores f ;;
      xs <- aplicar_indicadores resto ;;
      Ok (x :: xs)
  end.

(** Lines 111-179: the fact table before rounding, and as it is stored. *)
Definition tabla_sin_redondear (columnas : list string) (df_merged : list venta)
  : resultado (list fact) :=
  limpias <- aplicar_limpieza (melt (cols_reales columnas) df_merged) ;;
  aplicar_indicadores (positivas limpias).

Definition tabla_fact (columnas : list string) (df_merged : list venta)
  : resultado (list fact) :=
  fs <- tabla_sin_redondear columnas df_merged ;;
  Ok (map redondear fs).

End Pipeline.

(** ** A small ledger *)

Module Ejemplos.
Import Transformation Pipeline.
Local Open Scope Q_scope.

Definition columnas_ejemplo : list string := ["Fecha"; "Turno"; "C"; "T"; "M"].

(** One sale: 1500 pesos in cash, 10 dollars by card, nothing else. *)
Definition venta_ejemplo : venta :=
  Venta 738000 (Some 1000) "M"
        (fun col =>
           if String.eqb col "C" then "1500"
           else if String.eqb col "T" then "10 usd"
           else "").

Definition tabla_ejemplo : list fact :=
  match tabla_fact columnas_ejemplo [venta_ejemplo] with
  | Ok fs => fs
  | Raise _ => []
  end.

Definition fact_ejemplo : fact :=
  nth 0 tabla_ejemplo
      (Fact (FilaLimpia (FilaMelt 0 None "" "" "") 0 "") 0 0 0 0 0 0 0 0).


End Ejemplos.

(** ** [src/extraction.py]: the exchange-rate series *)

Module Cotizaciones.
Import PyStr Transformation.

(** [float(valor_str.replace('.', '').replace(',', '.'))] *)
Definition valor_hoy (valor_str : string) : resultado Q :=
  float (replace_char "," "." (remove_char "." valor_str)).

(** A quote: the ordinal of its day and the rate of that day. *)
Definition cotizacion : Type := (Z * Q)%type.

(** The [try] block of the live value.  [fecha] is what
    [pd.to_datetime(fecha_str, format='%d/%m/%Y')] gives; [df_hoy] stays
    empty when the date or the rate raises ([except Exception: pass]). *)
Definition df_hoy (fecha : resultado Z) (valor_str : string) : list cotizacion :=
  try_except (f <- fecha ;; v <- valor_hoy valor_str ;; Ok [(f, v)]) [].

(** [.drop_duplicates(subset='fecha', keep='last')]: a row stays when no
    later row has its date. *)
Fixpoint drop_duplicates_last (df : list cotizacion) : list cotizacion :=
  match df with
  | [] => []
  | r :: resto =>
      if existsb (fun r' => (fst r' =? fst r)%Z) resto
      then drop_duplicates_last resto
      else r :: drop_duplicates_last resto
  end.

Fixpoint insertar (r : cotizacion) (df : list cotizacion) : list cotizacion :=
  match df with
  | [] => [r]
  | x :: df' => if (fst r <=? fst x)%Z then r :: df else x :: insertar r df'
  end.

(** [.sort_values('fecha')]; the dates are distinct at this point. *)
Definition sort_values (df : list cotizacion) : list cotizacion :=
  fold_right insertar [] df.

(** [.min()] and [.max()] of a column with a first value. *)
Definition minimo (x : Z) (xs : list Z) : Z := fold_left Z.min xs x.
Definition maximo (x : Z) (xs : list Z) : Z := fold_left Z.max xs x.

(** [pd.date_range(start=..., end=...)]: every day from [start] to [fin]. *)
Definition date_range (start fin : Z) : list Z :=
  map (fun i => (start + Z.of_nat i)%Z) (seq 0 (Z.to_nat (fin - start + 1))).

(** The rate at the label [d] of the frame indexed by date. *)
Definition valor_en (df : list cotizacion) (d : Z) : option Q :=
  option_map snd (find (fun r => (fst r =? d)%Z) df).

(** [.set_index('fecha').reindex(rango)]: a day without a row gets NaN. *)
Definition reindex (df : list cotizacion) (rango : list Z) : list (Z * option Q) :=
  map (fun d => (d, valor_en df d)) rango.

(** [.ffill()]: NaN is replaced by the last value above it. *)
Fixpoint ffill (previo : option Q) (df : list (Z * option Q))
  : list (Z * option Q) :=
  match df with
  | [] => []
  | (d, v) :: resto =>
      let v' := match v with Some _ => v | None => previo end in
      (d, v') :: ffill v' resto
  end.

(** Lines 114-141: the two sources unified into one row per day. *)
Definition obtener_dolar_hibrido (df_historico df_hoy : list cotizacion)
  : list (Z * option Q) :=
  match (df_historico ++ df_hoy)%list with
  | [] => []
  | _ :: _ =>
      let df_final :=
        sort_values (drop_duplicates_last (df_historico ++ df_hoy)) in
      match map fst df_final with
      | [] => []
      | f :: fs =>
          ffill None (reindex df_final (date_range (minimo f fs) (maximo f fs)))
      end
  end.

End Cotizaciones.
(** ** [main.py]: the ledger before the melt *)

Module Ventas.
Import PyStr Medios Pipeline Cotizaciones.

(** [pd.Timestamp("2020-01-01")], as the ordinal of the day (the count of
    days that starts with 1 on 0001-01-01). *)
Definition FECHA_MIN : Z := 737425.

(** [cols_control], line 79. *)
Definition cols_control : list string :=
  [ "fecha_dt"; "Turno"; "C"; "T"; "MP (NEGOCIO)"; "MP Usuario E";
    "MP Usuario F"; "MP Usuario A"; "M"; revendedores ].

(** [cols_check = [c for c in cols_control if c in df_ventas.columns]] *)
Definition cols_check (columnas : list string) : list string :=
  filter (fun c => in_list c columnas) cols_control.

Section Registros.

(** The values of the sheet's cells, the equality [drop_duplicates]
    compares two of them with, and [str(value)]. *)
Variable celda : Type.
Variable igual : celda -> celda -> bool.
Variable str : celda -> string.

(** A row of [df_ventas] once [fecha_dt] is parsed and the rows without a
    date are dropped: the day and, for every column of the sheet, the
    value of its cell. *)
Record registro : Type := Registro {
  r_fecha_dt : Z;
  r_valor : string -> celda
}.

(** [(fecha_dt < FECHA_MIN) | (fecha_dt > FECHA_MAX)] as an integer;
    [FECHA_MAX] is the day of [pd.Timestamp.today()]. *)
Definition fecha_fuera_de_rango (FECHA_MAX : Z) (r : registro) : Z :=
  if ((r_fecha_dt r <? FECHA_MIN) || (FECHA_MAX <? r_fecha_dt r))%Z
  then 1%Z else 0%Z.

(** [lambda x: "FECHA_FUERA_DE_RANGO" if x == 1 else "OK"] *)
Definition nota_fecha (FECHA_MAX : Z) (r : registro) : string :=
  if (fecha_fuera_de_rango FECHA_MAX r =? 1)%Z
  then "FECHA_FUERA_DE_RANGO" else "OK".

(** [df_ventas[df_ventas["fecha_fuera_de_rango"] == 0]] *)
Definition ventas_validas (FECHA_MAX : Z) (df_ventas : list registro)
  : list registro :=
  filter (fun r => (fecha_fuera_de_rango FECHA_MAX r =? 0)%Z) df_ventas.

(** Two rows agree on the column [c]. *)
Definition misma_celda (r1 r2 : registro) (c : string) : bool :=
  if String.eqb c "fecha_dt" then (r_fecha_dt r1 =? r_fecha_dt r2)%Z
  else igual (r_valor r1 c) (r_valor r2 c).

Definition misma_clave (subset : list string) (r1 r2 : registro) : bool :=
  forallb (misma_celda r1 r2) subset.

(** [df_ventas.drop_duplicates(subset=..., keep="first")]: a row is
    dropped when a row above it agrees with it on every column of
    [subset]. *)
Fixpoint drop_duplicates_desde (subset : list string)
         (vistos df : list registro) : list registro :=
  match df with
  | [] => []
  | r :: resto =>
      if existsb (misma_clave subset r) vistos
      then drop_duplicates_desde subset vistos resto
      else r :: drop_duplicates_desde subset (r :: vistos) resto
  end.

Definition drop_duplicates (subset : list string) (df : list registro)
  : list registro :=
  drop_duplicates_desde subset [] df.

(** [rows_removed = rows_before - rows_after] *)
Definition rows_removed (subset : list string) (df : list registro) : Z :=
  (Z.of_nat (List.length df)
   - Z.of_nat (List.length (drop_duplicates subset df)))%Z.

(** Lines 55-93: the date audit, then the deduplication. *)
Definition ventas_preparadas (FECHA_MAX : Z) (columnas : list string)
           (df_ventas : list registro) : list registro :=
  drop_duplicates (cols_check columnas) (ventas_validas FECHA_MAX df_ventas).

(** A row of [df_merged]: the row of the ledger with the rate of a row of
    [df_dolar], or with NaN. *)
Definition fila_merged (r : registro) (cot : option Q) : venta :=
  Venta (r_fecha_dt r) cot (str (r_valor r "Turno"))
        (fun col => str (r_valor r col)).

(** [pd.merge(df_ventas, df_dolar, left_on="fecha_dt", right_on="fecha",
    how="left")]: the rows of the ledger in their order, each one with
    every row of [df_dolar] of its date, and once with NaN when there is
    none. *)
Definition merge (df_ventas : list registro) (df_dolar : list (Z * option Q))
  : list venta :=
  flat_map
    (fun r =>
       match filter (fun q => (fst q =? r_fecha_dt r)%Z) df_dolar with
       | [] => [fila_merged r None]
       | qs => map (fun q => fila_merged r (snd q)) qs
       end)
    df_ventas.

End Registros.

Arguments Registro {celda} r_fecha_dt r_valor.
Arguments r_fecha_dt {celda} r.
Arguments r_valor {celda} r _.
Arguments fecha_fuera_de_rango {celda} FECHA_MAX r.
Arguments nota_fecha {celda} FECHA_MAX r.
Arguments ventas_validas {celda} FECHA_MAX df_ventas.
Arguments misma_celda {celda} igual r1 r2 c.
Arguments misma_clave {celda} igual subset r1 r2.
Arguments drop_duplicates_desde {celda} igual subset vistos df.
Arguments drop_duplicates {celda} igual subset df.
Arguments rows_removed {celda} igual subset df.
Arguments ventas_preparadas {celda} igual FECHA_MAX columnas df_ventas.
Arguments fila_merged {celda} str r cot.
Arguments merge {celda} str df_ventas df_dolar.

End Ventas.

(** ** [generar_dim_calendario] *)

Module Calendario.
Import PyStr Cotizaciones.

(** A row of the calendar dimension. *)
Record fila_calendario : Type := FilaCalendario {
  fecha_id : Z;
  c_anio : Z;
  c_mes : Z;
  c_dia : Z;
  nombre_mes : option string;
  nombre_dia : option string;
  es_fin_de_semana : Z
}.

Definition meses_esp : list (Z * string) :=
  [ (1, "Enero"); (2, "Febrero"); (3, "Marzo"); (4, "Abril"); (5, "Mayo");
    (6, "Junio"); (7, "Julio"); (8, "Agosto"); (9, "Septiembre");
    (10, "Octubre"); (11, "Noviembre"); (12, "Diciembre") ]%Z.

Definition miercoles : string := "Mi" ++ String "233"%char "rcoles".
Definition sabado : string := "S" ++ String "225"%char "bado".

Definition dias_esp : list (Z * string) :=
  [ (0, "Lunes"); (1, "Martes"); (2, miercoles); (3, "Jueves");
    (4, "Viernes"); (5, sabado); (6, "Domingo") ]%Z.

(** [Series.map(d)] on one value: NaN when the key is not in [d]. *)
Fixpoint map_dict (d : list (Z * string)) (k : Z) : option string :=
  match d with
  | [] => None
  | (k', v) :: d' => if (k' =? k)%Z then Some v else map_dict d' k
  end.

(** [.dt.dayofweek]: Monday is 0; day 1 (0001-01-01) is a Monday. *)
Definition dayofweek (d : Z) : Z := ((d + 6) mod 7)%Z.

(** [.isin([5, 6]).astype(int)] *)
Definition isin_5_6 (k : Z) : Z :=
  if existsb (Z.eqb k) [5; 6]%Z then 1%Z else 0%Z.

Section Campos.

(** [.dt.year], [.dt.month] and [.dt.day] of a day. *)
Variables anio mes dia : Z -> Z.

Definition fila_de (d : Z) : fila_calendario :=
  FilaCalendario d (anio d) (mes d) (dia d)
                 (map_dict meses_esp (mes d))
                 (map_dict dias_esp (dayofweek d))
                 (isin_5_6 (dayofweek d)).

(** The argument is the column [df_ventas['fecha_dt']].  On a frame
    without rows [min()] and [max()] are NaT, and [pd.date_range] raises
    [ValueError]. *)
Definition generar_dim_calendario (fechas : list Z)
  : resultado (list fila_calendario) :=
  match fechas with
  | [] => Raise ValueError
  | f :: fs => Ok (map fila_de (date_range (minimo f fs) (maximo f fs)))
  end.

End Campos.

End Calendario.
(** ** A small ledger with its rate series *)

Module EjemploLibro.
Import Pipeline Cotizaciones Ventas.

(** A sale of 1500 pesos in cash and 10 dollars by card. *)
Definition celdas_a (col : string) : string :=
  if String.eqb col "Turno" then "M"
  else if String.eqb col "C" then "1500"
  else if String.eqb col "T" then "10 usd"
  else if String.eqb col "Fecha" then "02/01/2022"
  else "".

(** The same sale with its date written in another way. *)
Definition celdas_b (col : string) : string :=
  if String.eqb col "Fecha" then "2/1/2022" else celdas_a col.

(** Three rows: a sale of 2022-01-02, the same sale again, and a sale
    dated in the year 1917. *)
Definition df_ventas : list (registro string) :=
  [ Registro 738157 celdas_a; Registro 738157 celdas_b;
    Registro 700000 celdas_a ].

Definition columnas_ventas : list string :=
  [ "Fecha"; "Turno"; "C"; "T"; "M"; "fecha_dt"; "fecha_fuera_de_rango";
    "nota_fecha" ].

Definition columnas_merged : list string :=
  (columnas_ventas ++ ["fecha"; "cotizacion_blue"])%list.

Definition hoy : Z := 739000.

(** The calendar fields of the days of January 2022, the only days of
    this ledger. *)
Definition anio (d : Z) : Z := 2022.
Definition mes (d : Z) : Z := 1.
Definition dia (d : Z) : Z := (d - 738155)%Z.

(** Quotes of 2022-01-01 and 2022-01-03, and a live value for the latter. *)
Definition df_historico : list cotizacion := [(738156, 200%Q); (738158, 205%Q)]%Z.
Definition df_hoy : list cotizacion := [(738158, 210%Q)]%Z.

Definition df_ordenado : list (registro string) :=
  ventas_preparadas String.eqb hoy columnas_ventas df_ventas.

Definition df_merged : list venta :=
  merge (fun s => s) df_ordenado (obtener_dolar_hibrido df_historico df_hoy).

Definition tabla : list fact :=
  match tabla_fact columnas_merged df_merged with
  | Ok fs => fs
  | Raise _ => []
  end.

Definition primera_fila : fact :=
  nth 0 tabla
      (Fact (FilaLimpia (FilaMelt 0 None "" "" "") 0 "") 0 0 0 0 0 0 0 0).

End EjemploLibro.
(** ** Binary64 numbers

    Python's [float] is IEEE 754 binary64: a sign, a significand of 53
    bits and a power of two.  A float is taken as the rational number it
    is, and an operation as its exact result rounded to the nearest such
    number, ties to the even significand.  The exponent is not bounded:
    overflow and underflow (magnitudes above 1.8e308 or below 2.2e-308)
    are outside this model. *)

From Stdlib Require Import Qabs.

Module Binario64.
Import Pipeline.
Local Open Scope Q_scope.

(** The exponent [e] of the binary64 number nearest to [x]: the one with
    [2^52 <= |x| / 2^e < 2^53]. *)
Definition exponente (x : Q) : Z :=
  let e0 := (Z.log2 (Z.abs (Qnum x)) - Z.log2 (Zpos (Qden x)) - 53)%Z in
  if Qle_bool (2 ^ 52) (Qabs x * 2 ^ (- (e0 + 1))) then (e0 + 1)%Z else e0.

(** The binary64 number nearest to [x], ties to the even significand.
    The exponent is not bounded. *)
Definition doble (x : Q) : Q :=
  if Qeq_bool x 0 then 0
  else
    let e := exponente x in
    inject_Z (Z.sgn (Qnum x) * redondeo_par (Qabs x * 2 ^ (- e))) * 2 ^ e.

(** The unit roundoff 2^-53: one rounding moves a value by at most this
    fraction of it. *)
Definition u64 : Q := 1 # 9007199254740992.

End Binario64.
(** ** The arithmetic of Python's [float] *)

Module Flotante.
Import Transformation Campos Medios Pipeline Binario64.
Local Open Scope Q_scope.

(** [a - b] and [a * b] on floats: the exact result, rounded. *)
Definition fsub (a b : Q) : Q := doble (a - b).
Definition fmul (a b : Q) : Q := doble (a * b).

(** [a + b] on floats. *)
Definition fadd (a b : Q) : Q := doble (a + b).

(** [a / b] on floats: [ZeroDivisionError] is the only way it fails. *)
Definition fdiv (a b : Q) : resultado Q :=
  if Qeq_bool b 0 then Raise ZeroDivisionError else Ok (doble (a / b)).

(** [calcular_impuestos] as the interpreter computes it: the literals
    [1.21], [0.029] and [0.003] are the binary64 numbers nearest to them,
    and every operation rounds its result. *)
Definition calcular_impuestos_b64 (monto_ars : Q) (es_fiscal : Z)
  : resultado desglose :=
  let monto_bruto := monto_ars in
  if (es_fiscal =? 1)%Z then
    neto <- fdiv monto_bruto (doble (121 # 100)) ;;
    let iva := fsub monto_bruto neto in
    let iibb := fmul neto (doble (29 # 1000)) in
    let syh := fmul neto (doble (3 # 1000)) in
    Ok (Desglose neto iva iibb syh)
  else
    let neto := monto_bruto in
    Ok (Desglose neto 0 0 0).

(** [x / cotizacion if cotizacion > 0 else 0] on floats. *)
Definition en_usd_b64 (x : Q) (cotizacion : option Q) : resultado Q :=
  match cotizacion with
  | Some c => if Qltb 0 c then fdiv x c else Ok 0
  | None => Ok 0
  end.

(** Lines 143-164 on floats: the indicators of one row, before [.round(4)]. *)
Definition indicadores_b64 (f : fila_limpia) : resultado fact :=
  let cot := cotizacion_blue (origen f) in
  usd <- en_usd_b64 (monto_ars f) cot ;;
  let fiscal := es_fiscal_de (medio_pago_origen (origen f)) in
  d <- calcular_impuestos_b64 (monto_ars f) fiscal ;;
  neto_usd <- en_usd_b64 (neto_de d) cot ;;
  Ok (Fact f (monto_ars f) usd fiscal (neto_de d) (iva_de d) (iibb_de d)
           (syh_de d) neto_usd).

End Flotante.
Import PyStr Re ReLang Transformation Aportes CeldasUSD Formato Main.
Local Open Scope Q_scope.

(** ** Amounts *)

Lemma Qltb_lt (a b : Q) : Qltb a b = true <-> a < b.
Proof.
  unfold Qltb. rewrite negb_true_iff.
  split; intro H.
  - apply Qnot_le_lt. intro Hle. apply Qle_bool_iff in Hle. congruence.
  - destruct (Qle_bool b a) eqn:E; [|reflexivity].
    apply Qle_bool_iff in E. exfalso. exact (Qlt_not_le _ _ H E).
Qed.

Lemma Qltb_ge (a b : Q) : Qltb a b = false <-> b <= a.
Proof.
  unfold Qltb. rewrite negb_false_iff. apply Qle_bool_iff.
Qed.

Lemma suma_nonneg (l : list Q) : Forall (fun x => 0 <= x) l -> 0 <= suma l.
Proof.
  induction 1 as [|x l Hx _ IH]; simpl.
  - apply Qle_refl.
  - replace 0 with (0 + 0) by reflexivity. apply Qplus_le_compat; assumption.
Qed.

(** ** The two loops as sums of contributions *)

Lemma paso_usd_eq (cot total : Q) (texto m : string) :
  exists total',
    paso_usd cot (total, texto) m = (total', snd (paso_usd cot (total, texto) m))
    /\ total' == total + aporte_usd cot m.
Proof.
  unfold paso_usd, cuerpo_usd, aporte_usd, try_except, bind.
  destruct (Qltb 0 cot).
  - destruct (float _) as [v|e]; simpl; eexists; split; try reflexivity; ring.
  - simpl. eexists; split; [reflexivity | ring].
Qed.

Lemma fold_paso_usd_total (cot : Q) (ms : list string) :
  forall total texto,
    fst (fold_left (paso_usd cot) ms (total, texto))
    == total + suma (map (aporte_usd cot) ms).
Proof.
  induction ms as [|m ms IH]; intros total texto; simpl.
  - ring.
  - destruct (paso_usd_eq cot total texto m) as [t' [E Ht']].
    rewrite E, IH, Ht'. ring.
Qed.

Lemma paso_pesos_eq (n : nat) (total : Q) (notas : list string) (c : string) :
  exists total',
    paso_pesos n (total, notas) c = (total', (notas ++ etiqueta_pesos n c)%list)
    /\ total' == total + aporte_pesos n c.
Proof.
  unfold paso_pesos, cuerpo_pesos, aporte_pesos, etiqueta_pesos, valor_candidato,
    es_anio, try_except, bind.
  destruct (in_list _ _).
  - rewrite app_nil_r. eexists; split; [reflexivity | ring].
  - destruct (float _) as [v|e].
    + destruct (Qltb 2020 v && Qltb v 2030 && (n =? 1)%nat);
        [| rewrite app_nil_r]; eexists; split; try reflexivity; ring.
    + rewrite app_nil_r. eexists; split; [reflexivity | ring].
Qed.

Lemma fold_paso_pesos (n : nat) (cs : list string) :
  forall total notas,
    exists total',
      fold_left (paso_pesos n) cs (total, notas)
      = (total', (notas ++ flat_map (etiqueta_pesos n) cs)%list)
      /\ total' == total + suma (map (aporte_pesos n) cs).
Proof.
  induction cs as [|c cs IH]; intros total notas; simpl.
  - rewrite app_nil_r. eexists; split; [reflexivity | ring].
  - destruct (paso_pesos_eq n total notas c) as [t1 [E1 H1]].
    rewrite E1.
    destruct (IH t1 (notas ++ etiqueta_pesos n c)%list) as [t2 [E2 H2]].
    exists t2. split.
    + rewrite E2, <- app_assoc. reflexivity.
    + rewrite H2, H1. ring.
Qed.

Lemma auditar_eq (texto : string) (cot : Q) :
  exists total,
    auditar texto cot
    = (total, match anomalias texto cot with
              | [] => [NORMAL]
              | _ :: _ => anomalias texto cot
              end)
    /\ total == suma (map (aporte_usd cot) (coincidencias_usd texto))
             + suma (map (aporte_pesos (List.length (candidatos texto cot)))
                         (candidatos texto cot)).
Proof.
  unfold auditar, anomalias, notas_letras, notas_fecha, candidatos, texto_residual.
  fold (notas_usd texto).
  pose proof (fold_paso_usd_total cot (coincidencias_usd texto) 0 texto) as Hu.
  fold (pase_usd texto cot) in Hu.
  destruct (pase_usd texto cot) as [tu tx]. simpl in Hu. simpl snd.
  destruct (fold_paso_pesos (List.length (posibles_numeros tx)) (posibles_numeros tx)
              tu (notas_usd texto)) as [tp [Ep Hp]].
  rewrite Ep.
  exists tp. split.
  - destruct (search patron_letra tx && _).
    + rewrite app_assoc.
      destruct (notas_usd texto ++ _)%list; reflexivity.
    + rewrite !app_nil_r. destruct (notas_usd texto ++ _)%list; reflexivity.
  - rewrite Hp, Hu. ring.
Qed.

(** ** The shape of the tag list *)

Lemma etiqueta_pesos_cases (n : nat) (c : string) :
  etiqueta_pesos n c = [] \/ (etiqueta_pesos n c = [POSIBLE_FECHA_IGNORADA] /\ n = 1%nat).
Proof.
  unfold etiqueta_pesos.
  destruct (valor_candidato c) as [v|]; [|now left].
  destruct (es_anio v); simpl; [|now left].
  destruct (Nat.eqb_spec n 1); [right; split; auto | now left].
Qed.

Lemma notas_usd_cases (texto : string) :
  notas_usd texto = [] \/ notas_usd texto = [CONVERSION_USD].
Proof.
  unfold notas_usd. destruct (coincidencias_usd texto); auto.
Qed.

Lemma notas_fecha_cases (texto : string) (cot : Q) :
  notas_fecha texto cot = [] \/ notas_fecha texto cot = [POSIBLE_FECHA_IGNORADA].
Proof.
  unfold notas_fecha.
  destruct (candidatos texto cot) as [|c [|c' cs]]; simpl.
  - now left.
  - rewrite app_nil_r. destruct (etiqueta_pesos_cases 1 c) as [E|[E _]]; auto.
  - left.
    assert (H : forall l, flat_map (etiqueta_pesos (S (S (List.length cs)))) l = []).
    { induction l as [|x l IH]; simpl; [reflexivity|].
      destruct (etiqueta_pesos_cases (S (S (List.length cs))) x) as [E|[_ E]];
        [rewrite E, IH; reflexivity | discriminate]. }
    exact (H (c :: c' :: cs)).
Qed.

Lemma notas_letras_cases (texto : string) (cot : Q) :
  notas_letras texto cot = []
  \/ (notas_letras texto cot = [LIMPIEZA_TEXTO] /\ notas_usd texto = []).
Proof.
  unfold notas_letras.
  destruct (search patron_letra _); simpl; [|now left].
  destruct (notas_usd_cases texto) as [E|E]; rewrite E; simpl.
  - destruct (in_list _ _); simpl; [now left | right; auto].
  - now left.
Qed.

Lemma notas_de_eq (valor : string) (cot : option Q) :
  notas_de valor cot =
  if es_vacio (texto_de valor) then [VACIO]
  else match anomalias (texto_de valor) (cotizacion_de cot) with
       | [] => [NORMAL]
       | _ :: _ => anomalias (texto_de valor) (cotizacion_de cot)
       end.
Proof.
  unfold notas_de. destruct (es_vacio _); [reflexivity|].
  destruct (auditar_eq (texto_de valor) (cotizacion_de cot)) as [t [E _]].
  rewrite E. reflexivity.
Qed.

Lemma limpiar_eq (valor : string) (cot : option Q) :
  exists monto,
    limpiar_celda_dinero_auditado valor cot
    = Ok (monto, join " + " (notas_de valor cot)).
Proof.
  unfold limpiar_celda_dinero_auditado, notas_de.
  destruct (es_vacio _).
  - exists 0. reflexivity.
  - destruct (auditar _ _) as [t ns]. exists t. reflexivity.
Qed.

(** Every tag of [anomalias] is one of the three anomaly tags, in the
    order dollar, date, letters. *)
Lemma anomalias_cases (texto : string) (cot : Q) :
  exists u f l,
    anomalias texto cot = (u ++ f ++ l)%list
    /\ (u = [] \/ u = [CONVERSION_USD])
    /\ (f = [] \/ f = [POSIBLE_FECHA_IGNORADA])
    /\ (l = [] \/ (l = [LIMPIEZA_TEXTO] /\ u = [])).
Proof.
  exists (notas_usd texto), (notas_fecha texto cot), (notas_letras texto cot).
  split; [reflexivity|].
  split; [apply notas_usd_cases|].
  split; [apply notas_fecha_cases | apply notas_letras_cases].
Qed.

(** The possible tag lists, enumerated. *)
Lemma notas_de_enum (valor : string) (cot : option Q) :
  In (notas_de valor cot)
     [ [VACIO]; [NORMAL];
       [CONVERSION_USD]; [CONVERSION_USD; POSIBLE_FECHA_IGNORADA];
       [POSIBLE_FECHA_IGNORADA]; [POSIBLE_FECHA_IGNORADA; LIMPIEZA_TEXTO];
       [LIMPIEZA_TEXTO] ].
Proof.
  rewrite notas_de_eq.
  destruct (es_vacio _); [simpl; auto|].
  destruct (anomalias_cases (texto_de valor) (cotizacion_de cot))
    as (u & f & l & E & [Hu|Hu] & [Hf|Hf] & [Hl|[Hl Hu']]);
    rewrite E; subst; try discriminate; simpl; auto 10.
Qed.

(** ** Empty cells *)

Lemma es_vacio_true (texto : string) :
  texto = "" \/ texto = "nan" \/ texto = "none" -> es_vacio texto = true.
Proof.
  intros [E|[E|E]]; subst; reflexivity.
Qed.

(** C4. Whatever the exchange rate, a cell whose text is empty after
    lower-casing and trimming, or is then one of the null markers [nan]
    and [none], returns amount 0 with the single tag [VACIO]; the rate and
    the rest of the text processing play no part in the result.  In
    particular [""] and ["nan"] give [(0, "VACIO")] for every rate. *)
Theorem C4_celda_vacia (valor : string) (cotizacion_blue : option Q) :
  strip (lower valor) = "" \/ strip (lower valor) = "nan"
  \/ strip (lower valor) = "none" ->
  limpiar_celda_dinero_auditado valor cotizacion_blue = Ok (0, "VACIO")
  /\ notas_de valor cotizacion_blue = ["VACIO"]
  /\ limpiar_celda_dinero_auditado "" cotizacion_blue = Ok (0, "VACIO")
  /\ limpiar_celda_dinero_auditado "nan" cotizacion_blue = Ok (0, "VACIO").
Proof.
  intro H. apply es_vacio_true in H.
  unfold limpiar_celda_dinero_auditado, notas_de, texto_de.
  rewrite H. repeat split; reflexivity.
Qed.

Lemma C4_celda_vacia_witness :
  limpiar_celda_dinero_auditado "  NoNe " (Some 1000) = Ok (0, "VACIO").
Proof.
  apply (C4_celda_vacia "  NoNe " (Some 1000)).
  right; right; reflexivity.
Defined.

(** ** Tags *)

(** C6. The tag list behind the returned audit text is never empty; the
    returned text is that list joined with [" + "]; and when none of the
    anomaly tags [VACIO], [CONVERSION_USD], [POSIBLE_FECHA_IGNORADA],
    [LIMPIEZA_TEXTO] was appended, the list is the single tag [NORMAL].
    A cell with two anomalies shows the separator. *)
Theorem C6_notas_nunca_vacias (valor : string) (cotizacion_blue : option Q) :
  notas_de valor cotizacion_blue <> []
  /\ (exists monto,
        limpiar_celda_dinero_auditado valor cotizacion_blue
        = Ok (monto, join " + " (notas_de valor cotizacion_blue)))
  /\ (~ In VACIO (notas_de valor cotizacion_blue) ->
      ~ In CONVERSION_USD (notas_de valor cotizacion_blue) ->
      ~ In POSIBLE_FECHA_IGNORADA (notas_de valor cotizacion_blue) ->
      ~ In LIMPIEZA_TEXTO (notas_de valor cotizacion_blue) ->
      notas_de valor cotizacion_blue = [NORMAL])
  /\ limpiar_celda_dinero_auditado "5usd 2025" (Some 1000)
     = Ok (5000, "CONVERSION_USD + POSIBLE_FECHA_IGNORADA").
Proof.
  pose proof (notas_de_enum valor cotizacion_blue) as H.
  split; [|split; [apply limpiar_eq | split; [|reflexivity]]].
  - intro E. rewrite E in H. simpl in H.
    repeat (destruct H as [H|H]; [discriminate|]). exact H.
  - intros Hv Hc Hf Hl. simpl in H.
    repeat (destruct H as [H|H];
            [rewrite <- H in *; try reflexivity; exfalso;
             first [apply Hv; simpl; now auto | apply Hc; simpl; now auto
                   | apply Hf; simpl; now auto | apply Hl; simpl; now auto] |]).
    contradiction.
Qed.

Lemma C6_notas_nunca_vacias_witness :
  notas_de "150" (Some 1000) = [NORMAL].
Proof.
  apply (C6_notas_nunca_vacias "150" (Some 1000));
    vm_compute; intros H;
    repeat (destruct H as [H|H]; [discriminate|]); exact H.
Defined.

(** C8. The tag list is a function of the cell, in the order the tags
    were appended.  When [CONVERSION_USD] is present it is the first tag
    and occurs nowhere else, so it is appended at most once and stands
    before any [LIMPIEZA_TEXTO] or [POSIBLE_FECHA_IGNORADA] tag of the
    cell. *)
Theorem C8_orden_de_notas (valor : string) (cotizacion_blue : option Q) :
  (In CONVERSION_USD (notas_de valor cotizacion_blue) ->
   exists resto,
     notas_de valor cotizacion_blue = CONVERSION_USD :: resto
     /\ ~ In CONVERSION_USD resto)
  /\ (forall i j : nat,
        nth_error (notas_de valor cotizacion_blue) i = Some CONVERSION_USD ->
        nth_error (notas_de valor cotizacion_blue) j = Some LIMPIEZA_TEXTO
        \/ nth_error (notas_de valor cotizacion_blue) j = Some POSIBLE_FECHA_IGNORADA ->
        (i < j)%nat)
  /\ (List.length (filter (String.eqb CONVERSION_USD)
                          (notas_de valor cotizacion_blue)) <= 1)%nat.
Proof.
  pose proof (notas_de_enum valor cotizacion_blue) as H.
  simpl in H.
  repeat (destruct H as [H|H]; [rewrite <- H; clear H|]); try contradiction.
  all: split; [|split].
  all: match goal with
       | |- In _ _ -> _ =>
           intro Hin; cbv in Hin;
           repeat (destruct Hin as [Hin|Hin]; try discriminate Hin);
           try contradiction;
           (eexists; split;
            [ reflexivity
            | cbv; intro Hr;
              repeat (destruct Hr as [Hr|Hr]; try discriminate Hr); contradiction ])
       | |- (_ <= _)%nat => vm_compute; lia
       | |- _ =>
           intros i j Hi Hj;
           destruct i as [|[|[|i]]]; cbv in Hi; try discriminate Hi;
           destruct j as [|[|[|j]]]; cbv in Hj;
           destruct Hj as [Hj|Hj]; try discriminate Hj; lia
       end.
Qed.

Lemma C8_orden_de_notas_witness :
  (exists resto,
      notas_de "5usd 2025" (Some 1000) = CONVERSION_USD :: resto
      /\ ~ In CONVERSION_USD resto)
  /\ (0 < 1)%nat.
Proof.
  split.
  - apply (proj1 (C8_orden_de_notas "5usd 2025" (Some 1000))).
    vm_compute. left. reflexivity.
  - apply (proj1 (proj2 (C8_orden_de_notas "5usd 2025" (Some 1000))) 0%nat 1%nat).
    + reflexivity.
    + right. reflexivity.
Defined.

(** ** The fiscal decomposition *)

(** C3. For a non-negative amount [a] on a fiscal channel the
    decomposition returns [neto = a / 1.21], [iva = a - neto] (so that
    [neto + iva] is [a] in exact arithmetic), [iibb = neto * 0.029] and
    [syh = neto * 0.003]; on a non-fiscal channel it returns
    [(a, 0, 0, 0)]. *)
Theorem C3_calcular_impuestos (a : Q) :
  0 <= a ->
  (exists neto iva iibb syh,
      calcular_impuestos a 1 = Ok (Desglose neto iva iibb syh)
      /\ neto == a / (121 # 100)
      /\ iva == a - neto
      /\ neto + iva == a
      /\ iibb == neto * (29 # 1000)
      /\ syh == neto * (3 # 1000))
  /\ calcular_impuestos a 0 = Ok (Desglose a 0 0 0).
Proof.
  intros _. split; [|reflexivity].
  unfold calcular_impuestos, truediv. simpl.
  do 4 eexists. split; [reflexivity|].
  repeat split; try reflexivity. ring.
Qed.

Lemma C3_calcular_impuestos_witness :
  (exists neto iva iibb syh,
      calcular_impuestos 121 1 = Ok (Desglose neto iva iibb syh)
      /\ neto == 121 / (121 # 100)
      /\ iva == 121 - neto
      /\ neto + iva == 121
      /\ iibb == neto * (29 # 1000)
      /\ syh == neto * (3 # 1000))
  /\ calcular_impuestos 121 0 = Ok (Desglose 121 0 0 0).
Proof.
  apply (C3_calcular_impuestos 121). discriminate.
Defined.

(** ** Strings *)

Lemma todos_app (p : ascii -> bool) (a b : string) :
  todos p (a ++ b) = todos p a && todos p b.
Proof.
  induction a as [|c a IH]; simpl; [reflexivity|].
  rewrite IH, andb_assoc. reflexivity.
Qed.

Lemma todos_impl (p q : ascii -> bool) (s : string) :
  (forall c, p c = true -> q c = true) -> todos p s = true -> todos q s = true.
Proof.
  intro Hpq. induction s as [|c s IH]; simpl; [reflexivity|].
  rewrite !andb_true_iff. intros [H1 H2]. auto.
Qed.

Lemma length_app (a b : string) :
  String.length (a ++ b) = (String.length a + String.length b)%nat.
Proof.
  induction a as [|c a IH]; simpl; [reflexivity | now rewrite IH].
Qed.

Lemma take_app (w rest : string) :
  take (String.length (w ++ rest) - String.length rest) (w ++ rest) = w.
Proof.
  rewrite length_app, Nat.add_sub.
  induction w as [|c w IH]; simpl.
  - destruct rest; reflexivity.
  - now rewrite IH.
Qed.

Lemma prefix_drop (l s : string) :
  prefix l s = true -> s = l ++ drop (String.length l) s.
Proof.
  revert s. induction l as [|c l IH]; intros s H; simpl.
  - destruct s; reflexivity.
  - destruct s as [|d s]; simpl in H; [discriminate|].
    destruct (ascii_dec c d) as [->|]; [|discriminate].
    f_equal. apply IH, H.
Qed.

Lemma app_assoc_s (a b c : string) : (a ++ b) ++ c = a ++ (b ++ c).
Proof.
  induction a as [|x a IH]; simpl; [reflexivity | now rewrite IH].
Qed.

(** ** Soundness of the matcher *)

Section Soundness.
Variable R : Type.

Lemma orelse_some (x y : option R) (v : R) :
  orelse R x y = Some v -> x = Some v \/ y = Some v.
Proof.
  destruct x; simpl; auto.
Qed.

Lemma star_sound (p : ascii -> bool) (s : string) (cap : option string)
      (k : cont R) (v : R) :
  star p s cap k = Some v ->
  exists w rest, s = w ++ rest /\ todos p w = true /\ k rest cap = Some v.
Proof.
  induction s as [|c s IH]; simpl; intro H.
  - exists "", "". auto.
  - destruct (p c) eqn:Hp.
    + apply orelse_some in H. destruct H as [H|H].
      * destruct (IH H) as (w & rest & E & Hw & Hk).
        exists (String c w), rest. simpl. rewrite Hp, Hw, E. auto.
      * exists "", (String c s). auto.
    + exists "", (String c s). auto.
Qed.

Lemma cap_ok_refl (r : regex) (cap : option string) : cap_ok r cap cap.
Proof. now left. Qed.

Lemma exec_sound (r : regex) :
  forall (s : string) (cap : option string) (k : cont R) (v : R),
    exec r s cap k = Some v ->
    exists w rest cap',
      s = w ++ rest /\ lang r w /\ cap_ok r cap cap' /\ k rest cap' = Some v.
Proof.
  induction r as [p|l|a IHa b IHb|a IHa b IHb|p|p|p|a IHa];
    intros s cap k v H; simpl in H.
  - destruct s as [|c s]; [discriminate|].
    destruct (p c) eqn:Hp; [|discriminate].
    exists (String c ""), s, cap. repeat split; auto using cap_ok_refl.
    now constructor.
  - destruct (prefix l s) eqn:Hl; [|discriminate].
    exists l, (drop (String.length l) s), cap.
    repeat split; auto using cap_ok_refl, prefix_drop. constructor.
  - destruct (IHa _ _ _ _ H) as (w1 & r1 & c1 & E1 & L1 & C1 & K1).
    destruct (IHb _ _ _ _ K1) as (w2 & r2 & c2 & E2 & L2 & C2 & K2).
    exists (w1 ++ w2), r2, c2. repeat split; auto.
    + rewrite app_assoc_s, <- E2. exact E1.
    + now constructor.
    + unfold cap_ok in *. simpl.
      destruct C2 as [->|(g & t & Hg & Ht & ->)].
      * destruct C1 as [->|(g & t & Hg & Ht & ->)]; [now left|].
        right. exists g, t. rewrite in_app_iff. auto.
      * right. exists g, t. rewrite in_app_iff. auto.
  - apply orelse_some in H. destruct H as [H|H].
    + destruct (IHa _ _ _ _ H) as (w & r & c & E & L & C & K).
      exists w, r, c. repeat split; auto; [now apply L_alt_l|].
      unfold cap_ok in *. simpl.
      destruct C as [->|(g & t & Hg & Ht & ->)]; [now left|].
      right. exists g, t. rewrite in_app_iff. auto.
    + destruct (IHb _ _ _ _ H) as (w & r & c & E & L & C & K).
      exists w, r, c. repeat split; auto; [now apply L_alt_r|].
      unfold cap_ok in *. simpl.
      destruct C as [->|(g & t & Hg & Ht & ->)]; [now left|].
      right. exists g, t. rewrite in_app_iff. auto.
  - destruct s as [|c s].
    + exists "", "", cap. repeat split; auto using cap_ok_refl. constructor.
    + destruct (p c) eqn:Hp.
      * apply orelse_some in H. destruct H as [H|H].
        -- exists (String c ""), s, cap.
           repeat split; auto using cap_ok_refl. now constructor.
        -- exists "", (String c s), cap.
           repeat split; auto using cap_ok_refl. constructor.
      * exists "", (String c s), cap.
        repeat split; auto using cap_ok_refl. constructor.
  - destruct (star_sound _ _ _ _ _ H) as (w & rest & E & Hw & Hk).
    exists w, rest, cap. repeat split; auto using cap_ok_refl. now constructor.
  - destruct s as [|c s]; [discriminate|].
    destruct (p c) eqn:Hp; [|discriminate].
    destruct (star_sound _ _ _ _ _ H) as (w & rest & E & Hw & Hk).
    exists (String c w), rest, cap. simpl.
    repeat split; auto using cap_ok_refl; [now rewrite E | now constructor].
  - destruct (IHa _ _ _ _ H) as (w & r & c & E & L & C & K).
    exists w, r, (Some w). repeat split; auto.
    + now constructor.
    + right. exists a, w. simpl. auto.
    + rewrite E, take_app in K. exact K.
Qed.
End Soundness.

Lemma match_at_sound (r : regex) (s m : string) (g : option string) :
  match_at r s = Some (m, g) ->
  (exists rest, s = m ++ rest) /\ lang r m /\ cap_ok r None g.
Proof.
  unfold match_at. intro H.
  destruct (exec_sound _ r _ _ _ _ H) as (w & rest & c & E & L & C & K).
  rewrite E, take_app in K. injection K as <- <-.
  split; [now exists rest | auto].
Qed.

Lemma finditer_sound (r : regex) (s : string) :
  forall (skip : nat) (m : string) (g : option string),
    In (m, g) (finditer r s skip) -> lang r m /\ cap_ok r None g.
Proof.
  induction s as [|c s IH]; intros skip m g H; simpl in H; [contradiction|].
  destruct skip as [|n]; [|now apply IH in H].
  destruct (match_at r (String c s)) as [[m' g']|] eqn:E.
  - destruct H as [H|H]; [|now apply IH in H].
    injection H as -> ->. now apply match_at_sound in E.
  - now apply IH in H.
Qed.

(** ** The texts handed to [float] *)

Lemma es_digito_numerico (c : ascii) : es_digito c = true -> es_numerico c = true.
Proof.
  unfold es_numerico. intros ->. reflexivity.
Qed.

Lemma es_punto_o_coma_numerico (c : ascii) :
  es_punto_o_coma c = true -> es_numerico c = true.
Proof.
  unfold es_numerico. intros ->. apply orb_true_r.
Qed.

(** What group 1 of [patron_usd] captures is made of digits, points and
    commas. *)
Lemma grupo_usd_numerico (g : string) :
  lang (Seq (Plus es_digito) (Seq (Opt es_punto_o_coma) (Star es_digito))) g ->
  todos es_numerico g = true.
Proof.
  intro H.
  inversion H as [| |a b w1 w23 H1 H23| | | | | | |]; subst.
  inversion H23 as [| |a b w2 w3 H2 H3| | | | | | |]; subst.
  assert (T1 : todos es_numerico w1 = true).
  { inversion H1 as [| | | | | | | |p c w Hc Hw|]; subst. simpl.
    rewrite (es_digito_numerico c Hc).
    exact (todos_impl _ _ _ es_digito_numerico Hw). }
  assert (T2 : todos es_numerico w2 = true).
  { inversion H2 as [| | | | |p|p c Hc| | |]; subst; simpl; [reflexivity|].
    now rewrite (es_punto_o_coma_numerico c Hc). }
  assert (T3 : todos es_numerico w3 = true).
  { inversion H3 as [| | | | | | |p w Hw| |]; subst.
    exact (todos_impl _ _ _ es_digito_numerico Hw). }
  rewrite !todos_app, T1, T2, T3. reflexivity.
Qed.

Lemma coincidencias_usd_numerico (texto g : string) :
  In g (coincidencias_usd texto) -> todos es_numerico g = true.
Proof.
  unfold coincidencias_usd, findall_group. rewrite in_map_iff.
  intros ([m o] & E & H). simpl in E.
  apply finditer_sound in H. destruct H as [_ [C|(a & t & Ha & Ht & C)]].
  - subst. reflexivity.
  - subst. simpl in Ha. destruct Ha as [<-|[]].
    now apply grupo_usd_numerico.
Qed.

Lemma posibles_numeros_numerico (texto c : string) :
  In c (posibles_numeros texto) -> todos es_numerico c = true.
Proof.
  unfold posibles_numeros, findall. rewrite in_map_iff.
  intros ([m o] & E & H). simpl in E. subst.
  apply finditer_sound in H. destruct H as [H _].
  inversion H; subst. simpl.
  match goal with Hc : es_numerico _ = true |- _ => rewrite Hc end.
  assumption.
Qed.

Lemma es_numerico_cases (c : ascii) :
  es_numerico c = true -> es_digito c = true \/ c = "."%char \/ c = ","%char.
Proof.
  unfold es_numerico, es_punto_o_coma. rewrite !orb_true_iff.
  intros [H|[H|H]]; auto; apply Ascii.eqb_eq in H; auto.
Qed.

(** [monto_clean] is made of digits and points. *)
Lemma monto_clean_chars (g : string) :
  todos es_numerico g = true ->
  todos es_decimal (replace_char "," "." g) = true.
Proof.
  induction g as [|c g IH]; simpl; [reflexivity|].
  rewrite andb_true_iff. intros [Hc Hg]. rewrite (IH Hg), andb_true_r.
  destruct (es_numerico_cases c Hc) as [H|[->| ->]]; try reflexivity.
  destruct (Ascii.eqb c ","); [reflexivity|].
  unfold es_decimal. now rewrite H.
Qed.

(** [n_clean] is made of digits and points. *)
Lemma n_clean_chars (c : string) :
  todos es_numerico c = true -> todos es_decimal (n_clean_de c) = true.
Proof.
  unfold n_clean_de.
  induction c as [|x c IH]; simpl; [reflexivity|].
  rewrite andb_true_iff. intros [Hx Hc].
  destruct (es_numerico_cases x Hx) as [H|[->| ->]]; simpl; auto.
  destruct (Ascii.eqb x ".") eqn:E1; [auto|]. simpl.
  rewrite (IH Hc), andb_true_r.
  destruct (Ascii.eqb x ","); [reflexivity|].
  unfold es_decimal. now rewrite H.
Qed.

Lemma es_decimal_no_menos (c : ascii) : es_decimal c = true -> no_es_menos c = true.
Proof.
  unfold no_es_menos. destruct (Ascii.eqb_spec c "-") as [->|]; [|reflexivity].
  discriminate.
Qed.

Lemma todos_lstrip (p q : ascii -> bool) (s : string) :
  todos q s = true -> todos q (lstrip_con p s) = true.
Proof.
  induction s as [|c s IH]; simpl; [reflexivity|].
  rewrite andb_true_iff. intros [Hc Hs].
  destruct (p c); [auto | simpl; now rewrite Hc, Hs].
Qed.

Lemma todos_rstrip (p q : ascii -> bool) (s : string) :
  todos q s = true -> todos q (rstrip_con p s) = true.
Proof.
  induction s as [|c s IH]; simpl; [reflexivity|].
  rewrite andb_true_iff. intros [Hc Hs]. specialize (IH Hs).
  destruct (rstrip_con p s) as [|d r].
  - destruct (p c); simpl; [reflexivity | now rewrite Hc].
  - simpl. simpl in IH. now rewrite Hc, IH.
Qed.

Lemma decimal_nonneg (ip fr : string) : 0 <= decimal ip fr.
Proof.
  unfold decimal, Qle. simpl. lia.
Qed.

(** A text without a minus sign is never read as a negative number. *)
Lemma float_nonneg (s : string) (v : Q) :
  todos no_es_menos s = true -> float s = Ok v -> 0 <= v.
Proof.
  intros Hs. unfold float.
  pose proof (todos_rstrip es_espacio_float _ _
                (todos_lstrip es_espacio_float _ _ Hs)) as Ht.
  destruct (rstrip_con es_espacio_float (lstrip_con es_espacio_float s))
    as [|c t] eqn:Et.
  - simpl. discriminate.
  - assert (Hneg : Ascii.eqb c "-" = false).
    { simpl in Ht. apply andb_true_iff in Ht. destruct Ht as [Hc _].
      unfold no_es_menos in Hc. now apply negb_true_iff in Hc. }
    assert (E : (match String c t with
                 | String "-" r => (true, r)
                 | String "+" r => (false, r)
                 | _ => (false, String c t)
                 end) = (false, match String c t with
                                | String "+" r => r
                                | _ => String c t
                                end)).
    { destruct c as [[] [] [] [] [] [] [] []]; try reflexivity. discriminate. }
    rewrite E. clear E.
    destruct (match drop_while _ _ with
              | "" => Some ""
              | String "." f => if todos es_digito f then Some f else None
              | String _ _ => None
              end) as [fr|]; [|discriminate].
    destruct (_ && _)%bool; [discriminate|].
    intro H. injection H as <-. apply decimal_nonneg.
Qed.

Lemma aporte_usd_nonneg (texto : string) (cot : Q) (g : string) :
  In g (coincidencias_usd texto) -> 0 <= aporte_usd cot g.
Proof.
  intro Hg. unfold aporte_usd.
  destruct (Qltb 0 cot) eqn:Hc; [|apply Qle_refl].
  destruct (float _) as [v|e] eqn:Ef; [|apply Qle_refl].
  apply Qmult_le_0_compat.
  - apply float_nonneg in Ef; [assumption|].
    eapply todos_impl; [apply es_decimal_no_menos|].
    apply monto_clean_chars. eapply coincidencias_usd_numerico; eassumption.
  - apply Qlt_le_weak, Qltb_lt, Hc.
Qed.

Lemma valor_candidato_nonneg (texto c : string) (v : Q) :
  In c (posibles_numeros texto) -> valor_candidato c = Some v -> 0 <= v.
Proof.
  intros Hc. unfold valor_candidato.
  destruct (in_list _ _); [discriminate|].
  destruct (float _) as [x|e] eqn:Ef; [|discriminate].
  intro H. injection H as <-.
  apply float_nonneg in Ef; [assumption|].
  eapply todos_impl; [apply es_decimal_no_menos|].
  apply n_clean_chars. eapply posibles_numeros_numerico; eassumption.
Qed.

Lemma aporte_pesos_nonneg (texto : string) (n : nat) (c : string) :
  In c (posibles_numeros texto) -> 0 <= aporte_pesos n c.
Proof.
  intro Hc. unfold aporte_pesos.
  destruct (valor_candidato c) as [v|] eqn:E; [|apply Qle_refl].
  destruct (_ && _)%bool; [apply Qle_refl|].
  eapply valor_candidato_nonneg; eassumption.
Qed.

Lemma Forall_map_nonneg (A : Type) (f : A -> Q) (l : list A) :
  (forall x, In x l -> 0 <= f x) -> Forall (fun q => 0 <= q) (map f l).
Proof.
  intro H. apply Forall_forall. intros q Hq.
  apply in_map_iff in Hq. destruct Hq as (x & <- & Hx). auto.
Qed.

(** The total as the sum of the contributions of both passes. *)
Lemma auditar_total (texto : string) (cot : Q) :
  fst (auditar texto cot)
  == suma (map (aporte_usd cot) (coincidencias_usd texto))
     + suma (map (aporte_pesos (List.length (candidatos texto cot)))
                 (candidatos texto cot)).
Proof.
  destruct (auditar_eq texto cot) as [t [E H]]. rewrite E. exact H.
Qed.

Lemma auditar_nonneg (texto : string) (cot : Q) : 0 <= fst (auditar texto cot).
Proof.
  rewrite auditar_total.
  replace 0 with (0 + 0) by reflexivity.
  apply Qplus_le_compat; apply suma_nonneg, Forall_map_nonneg; intros x Hx.
  - eapply aporte_usd_nonneg; eassumption.
  - eapply aporte_pesos_nonneg. exact Hx.
Qed.

(** C9. For every input text and every non-negative exchange rate the
    returned amount is non-negative: the numerals matched by the two
    patterns carry no sign, and a contribution is a numeral or a numeral
    times a positive rate. *)
Theorem C9_monto_no_negativo (valor : string) (r : Q) :
  0 <= r ->
  exists monto notas,
    limpiar_celda_dinero_auditado valor (Some r) = Ok (monto, notas)
    /\ 0 <= monto.
Proof.
  intros _. unfold limpiar_celda_dinero_auditado.
  destruct (es_vacio _).
  - exists 0, VACIO. split; [reflexivity | apply Qle_refl].
  - pose proof (auditar_nonneg (texto_de valor) (cotizacion_de (Some r))) as H.
    destruct (auditar _ _) as [t ns]. exists t, (join " + " ns).
    split; [reflexivity | exact H].
Qed.

Lemma C9_monto_no_negativo_witness :
  exists monto notas,
    limpiar_celda_dinero_auditado "1.500,50 + 20 usd y 2025" (Some 2)
    = Ok (monto, notas)
    /\ 0 <= monto.
Proof.
  apply (C9_monto_no_negativo "1.500,50 + 20 usd y 2025" 2). discriminate.
Defined.

(** ** The date heuristic *)

Lemma pase_usd_total (texto : string) (cot : Q) :
  fst (pase_usd texto cot) == suma (map (aporte_usd cot) (coincidencias_usd texto)).
Proof.
  unfold pase_usd. rewrite fold_paso_usd_total. ring.
Qed.

Lemma auditar_notas (texto : string) (cot : Q) :
  snd (auditar texto cot)
  = match anomalias texto cot with
    | [] => [NORMAL]
    | _ :: _ => anomalias texto cot
    end.
Proof.
  destruct (auditar_eq texto cot) as [t [E _]]. rewrite E. reflexivity.
Qed.

Lemma fecha_en_notas (texto : string) (cot : Q) :
  In POSIBLE_FECHA_IGNORADA (snd (auditar texto cot))
  <-> notas_fecha texto cot = [POSIBLE_FECHA_IGNORADA].
Proof.
  rewrite auditar_notas. unfold anomalias.
  destruct (notas_usd_cases texto) as [Eu|Eu];
    destruct (notas_fecha_cases texto cot) as [Ef|Ef];
    destruct (notas_letras_cases texto cot) as [El|[El _]];
    rewrite Eu, Ef, El; cbv;
    split; intro H; try reflexivity; try discriminate H; auto;
    repeat (destruct H as [H|H]; try discriminate H); try contradiction.
Qed.

Lemma es_anio_iff (v : Q) : es_anio v = true <-> 2020 < v /\ v < 2030.
Proof.
  unfold es_anio. rewrite andb_true_iff, !Qltb_lt. reflexivity.
Qed.

Lemma varios_candidatos (n : nat) (cs : list string) :
  n <> 1%nat ->
  map (aporte_pesos n) cs = map valor_o_cero cs
  /\ flat_map (etiqueta_pesos n) cs = [].
Proof.
  intro Hn. apply Nat.eqb_neq in Hn.
  induction cs as [|c cs [IH1 IH2]]; simpl; [auto|].
  rewrite IH1, IH2.
  unfold aporte_pesos, etiqueta_pesos, valor_o_cero.
  destruct (valor_candidato c); rewrite ?Hn, ?andb_false_r; auto.
Qed.

(** C5. In the peso pass a candidate whose value lies strictly between
    2020 and 2030 is tagged [POSIBLE_FECHA_IGNORADA] and left out of the
    total exactly when it is the only candidate of the pass: a lone
    candidate in the range adds nothing and is tagged, a lone candidate
    outside the range is added, and with two or more candidates every one
    that denotes a number is added and none is tagged.  Hence ["2025"]
    gives [(0, POSIBLE_FECHA_IGNORADA)] and ["2025 500"] gives
    [(2525, NORMAL)] at rate 1000. *)
Theorem C5_heuristica_de_fecha (texto : string) (cot : Q) :
  (forall c v,
      candidatos texto cot = [c] -> valor_candidato c = Some v ->
      2020 < v -> v < 2030 ->
      fst (auditar texto cot) == fst (pase_usd texto cot)
      /\ In POSIBLE_FECHA_IGNORADA (snd (auditar texto cot)))
  /\ (forall c v,
         candidatos texto cot = [c] -> valor_candidato c = Some v ->
         ~ (2020 < v /\ v < 2030) ->
         fst (auditar texto cot) == fst (pase_usd texto cot) + v
         /\ ~ In POSIBLE_FECHA_IGNORADA (snd (auditar texto cot)))
  /\ ((2 <= List.length (candidatos texto cot))%nat ->
      fst (auditar texto cot)
      == fst (pase_usd texto cot) + suma (map valor_o_cero (candidatos texto cot))
      /\ ~ In POSIBLE_FECHA_IGNORADA (snd (auditar texto cot)))
  /\ limpiar_celda_dinero_auditado "2025" (Some 1000)
     = Ok (0, "POSIBLE_FECHA_IGNORADA")
  /\ limpiar_celda_dinero_auditado "2025 500" (Some 1000)
     = Ok (2525, "NORMAL").
Proof.
  split; [|split; [|split; [|split; reflexivity]]].
  - intros c v Hcs Hv H1 H2.
    assert (Ha : es_anio v = true) by (apply es_anio_iff; auto).
    rewrite fecha_en_notas, auditar_total, pase_usd_total.
    unfold notas_fecha. rewrite Hcs. simpl.
    unfold aporte_pesos, etiqueta_pesos. rewrite Hv, Ha. simpl.
    split; [ring | reflexivity].
  - intros c v Hcs Hv Hno.
    assert (Ha : es_anio v = false).
    { destruct (es_anio v) eqn:E; [|reflexivity].
      apply es_anio_iff in E. contradiction. }
    rewrite fecha_en_notas, auditar_total, pase_usd_total.
    unfold notas_fecha. rewrite Hcs. simpl.
    unfold aporte_pesos, etiqueta_pesos. rewrite Hv, Ha. simpl.
    split; [ring | discriminate].
  - intro Hlen.
    rewrite fecha_en_notas, auditar_total, pase_usd_total.
    unfold notas_fecha.
    destruct (varios_candidatos (List.length (candidatos texto cot))
                (candidatos texto cot)) as [E1 E2]; [lia|].
    rewrite E1, E2. split; [reflexivity | discriminate].
Qed.

Lemma C5_heuristica_de_fecha_witness :
  (fst (auditar "2025" 1000) == fst (pase_usd "2025" 1000)
   /\ In POSIBLE_FECHA_IGNORADA (snd (auditar "2025" 1000)))
  /\ (fst (auditar "150" 1000) == fst (pase_usd "150" 1000) + 150
      /\ ~ In POSIBLE_FECHA_IGNORADA (snd (auditar "150" 1000)))
  /\ (fst (auditar "2025 500" 1000)
      == fst (pase_usd "2025 500" 1000)
         + suma (map valor_o_cero (candidatos "2025 500" 1000))
      /\ ~ In POSIBLE_FECHA_IGNORADA (snd (auditar "2025 500" 1000))).
Proof.
  split; [|split].
  - apply (proj1 (C5_heuristica_de_fecha "2025" 1000) "2025" 2025);
      reflexivity.
  - apply (proj1 (proj2 (C5_heuristica_de_fecha "150" 1000)) "150" 150);
      try reflexivity.
    intros [H _]. vm_compute in H. discriminate.
  - apply (proj1 (proj2 (proj2 (C5_heuristica_de_fecha "2025 500" 1000)))).
    vm_compute. lia.
Defined.

(** ** Missing or non-positive exchange rates, and exceptions *)

Lemma paso_usd_sin_cotizacion (cot total : Q) (texto m : string) :
  Qltb 0 cot = false ->
  paso_usd cot (total, texto) m = (total, remove_first m texto).
Proof.
  intro H. unfold paso_usd, cuerpo_usd. rewrite H. reflexivity.
Qed.

Lemma fold_paso_usd_sin_cotizacion (cot : Q) (ms : list string) :
  Qltb 0 cot = false ->
  forall total texto,
    fold_left (paso_usd cot) ms (total, texto)
    = (total, fold_left (fun t m => remove_first m t) ms texto).
Proof.
  intro H. induction ms as [|m ms IH]; intros total texto; simpl.
  - reflexivity.
  - rewrite paso_usd_sin_cotizacion by assumption. apply IH.
Qed.

Lemma pase_usd_sin_cotizacion (texto : string) (cot : Q) :
  Qltb 0 cot = false ->
  pase_usd texto cot
  = (0, fold_left (fun t m => remove_first m t) (coincidencias_usd texto) texto).
Proof.
  intro H. unfold pase_usd. now apply fold_paso_usd_sin_cotizacion.
Qed.

Lemma auditar_sin_cotizacion (texto : string) (cot : Q) :
  Qltb 0 cot = false -> auditar texto cot = auditar texto 0.
Proof.
  intro H. unfold auditar.
  rewrite (pase_usd_sin_cotizacion texto cot H).
  rewrite (pase_usd_sin_cotizacion texto 0) by reflexivity.
  reflexivity.
Qed.

Lemma sin_cotizacion (cotizacion_blue : option Q) :
  cotizacion_blue = None \/ (exists r, cotizacion_blue = Some r /\ r <= 0) ->
  Qltb 0 (cotizacion_de cotizacion_blue) = false.
Proof.
  intros [->|(r & -> & Hr)]; [reflexivity|].
  simpl. now apply Qltb_ge.
Qed.

(** C7. Neither function raises, whatever the text and the exchange
    rate: the normalizer and the decomposer always return a value.  A
    numeric substring that [float] rejects leaves the running total and
    the tags as they were, and a missing (NaN) or non-positive exchange
    rate acts as a zero rate: the dollar pass adds nothing and the result
    is the one obtained at rate 0. *)
Theorem C7_sin_excepciones (valor : string) (cotizacion_blue : option Q)
        (monto_ars : Q) (es_fiscal : Z) :
  (exists monto notas,
      limpiar_celda_dinero_auditado valor cotizacion_blue = Ok (monto, notas))
  /\ (exists d, calcular_impuestos monto_ars es_fiscal = Ok d)
  /\ (forall cuantos total notas num_str e,
         float (n_clean_de num_str) = Raise e ->
         paso_pesos cuantos (total, notas) num_str = (total, notas))
  /\ (cotizacion_blue = None \/ (exists r, cotizacion_blue = Some r /\ r <= 0) ->
      limpiar_celda_dinero_auditado valor cotizacion_blue
      = limpiar_celda_dinero_auditado valor (Some 0)
      /\ fst (pase_usd (texto_de valor) (cotizacion_de cotizacion_blue)) = 0)
  /\ limpiar_celda_dinero_auditado "1,2,3 5" (Some 2) = Ok (5, "NORMAL").
Proof.
  split; [|split; [|split; [|split; [|reflexivity]]]].
  - unfold limpiar_celda_dinero_auditado.
    destruct (es_vacio _); [now eexists; eexists|].
    destruct (auditar _ _). now eexists; eexists.
  - unfold calcular_impuestos, truediv.
    destruct (es_fiscal =? 1)%Z; simpl; now eexists.
  - intros cuantos total notas num_str e He.
    unfold paso_pesos, cuerpo_pesos.
    destruct (in_list _ _); [reflexivity|].
    rewrite He. reflexivity.
  - intro H. apply sin_cotizacion in H.
    unfold limpiar_celda_dinero_auditado.
    rewrite (auditar_sin_cotizacion _ _ H).
    rewrite (pase_usd_sin_cotizacion _ _ H).
    split; reflexivity.
Qed.

Lemma C7_sin_excepciones_witness :
  paso_pesos 2 (0, []) "1,2,3" = (0, [])
  /\ limpiar_celda_dinero_auditado "10usd 7" (Some (-3))
     = limpiar_celda_dinero_auditado "10usd 7" (Some 0).
Proof.
  split.
  - apply (proj1 (proj2 (proj2 (C7_sin_excepciones "" None 0 0)))
             2%nat 0 [] "1,2,3" ValueError).
    reflexivity.
  - apply (proj1 (proj2 (proj2 (proj2
             (C7_sin_excepciones "10usd 7" (Some (-3)) 0 0))))).
    right. exists (-3). split; [reflexivity | discriminate].
Defined.

(** ** Dollar amounts without an exchange rate *)






(** ** Plain digit strings *)

Lemma es_digito_cases (c : ascii) : es_digito c = true -> In c diez_digitos.
Proof.
  destruct c as [[] [] [] [] [] [] [] []]; intro H;
    try discriminate H; simpl; auto 12.
Qed.

Ltac por_digito c H :=
  apply es_digito_cases in H; simpl in H;
  repeat (destruct H as [H|H]; [subst c|]); [..|contradiction].

Lemma digito_lower (c : ascii) : es_digito c = true -> lower_char c = c.
Proof. intro H. por_digito c H; reflexivity. Qed.

Lemma digito_no_espacio (c : ascii) : es_digito c = true -> es_espacio c = false.
Proof. intro H. por_digito c H; reflexivity. Qed.

Lemma digito_no_espacio_float (c : ascii) :
  es_digito c = true -> es_espacio_float c = false.
Proof. intro H. por_digito c H; reflexivity. Qed.

Lemma digito_no_letra (c : ascii) : es_digito c = true -> es_letra c = false.
Proof. intro H. por_digito c H; reflexivity. Qed.

Lemma digito_no_punto (c : ascii) : es_digito c = true -> Ascii.eqb c "." = false.
Proof. intro H. por_digito c H; reflexivity. Qed.

Lemma digito_no_coma (c : ascii) : es_digito c = true -> Ascii.eqb c "," = false.
Proof. intro H. por_digito c H; reflexivity. Qed.

Lemma lower_digitos (s : string) : todos es_digito s = true -> lower s = s.
Proof.
  induction s as [|c s IH]; simpl; [reflexivity|].
  rewrite andb_true_iff. intros [Hc Hs].
  now rewrite IH, digito_lower.
Qed.

Lemma lstrip_sin_espacios (p : ascii -> bool) (s : string) :
  (forall c, es_digito c = true -> p c = false) ->
  todos es_digito s = true -> lstrip_con p s = s.
Proof.
  intros Hp. destruct s as [|c s]; simpl; [reflexivity|].
  rewrite andb_true_iff. intros [Hc _]. now rewrite Hp.
Qed.

Lemma rstrip_sin_espacios (p : ascii -> bool) (s : string) :
  (forall c, es_digito c = true -> p c = false) ->
  todos es_digito s = true -> rstrip_con p s = s.
Proof.
  intros Hp. induction s as [|c s IH]; simpl; [reflexivity|].
  rewrite andb_true_iff. intros [Hc Hs].
  rewrite (IH Hs), (Hp c Hc). destruct s; reflexivity.
Qed.

Lemma texto_de_digitos (s : string) : todos es_digito s = true -> texto_de s = s.
Proof.
  intro H. unfold texto_de, strip. rewrite (lower_digitos s H).
  rewrite (lstrip_sin_espacios _ s digito_no_espacio H).
  apply (rstrip_sin_espacios _ s digito_no_espacio H).
Qed.

Lemma es_vacio_digitos (c : ascii) (s : string) :
  es_digito c = true -> es_vacio (String c s) = false.
Proof.
  intro H. por_digito c H; reflexivity.
Qed.

(** *** No marker in a digit string *)

Lemma marcador_no_digitos (m : string) :
  lang marcador_usd m -> todos es_digito m = false.
Proof.
  unfold marcador_usd. intro H.
  repeat match goal with
         | H : lang (Alt _ _) _ |- _ => inversion H; subst; clear H
         | H : lang (Lit _) _ |- _ => inversion H; subst; clear H
         end; reflexivity.
Qed.

Lemma patron_usd_no_digitos (m : string) :
  lang patron_usd m -> todos es_digito m = false.
Proof.
  unfold patron_usd. intro H.
  inversion H as [| |a b g w H1 H2| | | | | | |]; subst.
  inversion H2 as [| |a b ws mk H3 H4| | | | | | |]; subst.
  rewrite !todos_app, (marcador_no_digitos mk H4).
  now rewrite !andb_false_r.
Qed.

Lemma patron_marcadores_no_digitos (m : string) :
  lang patron_marcadores m -> todos es_digito m = false.
Proof.
  unfold patron_marcadores. intro H.
  repeat match goal with
         | H : lang (Alt _ _) _ |- _ => inversion H; subst; clear H
         | H : lang (Lit _) _ |- _ => inversion H; subst; clear H
         end; reflexivity.
Qed.

(** The three patterns that are scanned for never match the empty text. *)
Lemma patrones_no_vacios (m : string) :
  lang patron_usd m \/ lang patron_marcadores m \/ lang patron_numeros m ->
  m <> "".
Proof.
  intros [H|[H|H]] ->.
  - apply patron_usd_no_digitos in H. discriminate.
  - apply patron_marcadores_no_digitos in H. discriminate.
  - inversion H.
Qed.

(** A pattern whose matches all hold a non-digit finds nothing in a digit
    string. *)
Lemma match_at_digitos (r : regex) (s : string) :
  (forall m, lang r m -> todos es_digito m = false) ->
  todos es_digito s = true -> match_at r s = None.
Proof.
  intros Hr Hs. destruct (match_at r s) as [[m g]|] eqn:E; [|reflexivity].
  apply match_at_sound in E. destruct E as ((rest & ->) & L & _).
  rewrite todos_app, (Hr m L) in Hs. discriminate.
Qed.

Lemma finditer_digitos (r : regex) (s : string) :
  (forall m, lang r m -> todos es_digito m = false) ->
  todos es_digito s = true -> forall skip, finditer r s skip = [].
Proof.
  intros Hr. induction s as [|c s IH]; intros Hs skip; [reflexivity|].
  pose proof (match_at_digitos r _ Hr Hs) as E.
  simpl in Hs. apply andb_true_iff in Hs. destruct Hs as [_ Hs].
  cbn [finditer]. destruct skip; [rewrite E|]; now apply IH.
Qed.

Lemma sub_empty_digitos (r : regex) (s : string) :
  (forall m, lang r m -> todos es_digito m = false) ->
  todos es_digito s = true -> sub_empty r s 0 = s.
Proof.
  intros Hr. induction s as [|c s IH]; intros Hs; [reflexivity|].
  pose proof (match_at_digitos r _ Hr Hs) as E.
  simpl in Hs. apply andb_true_iff in Hs. destruct Hs as [_ Hs].
  cbn [sub_empty]. rewrite E, (IH Hs). reflexivity.
Qed.

Lemma search_letra_digitos (s : string) :
  todos es_digito s = true -> search patron_letra s = false.
Proof.
  induction s as [|c s IH]; [reflexivity|].
  simpl. rewrite andb_true_iff. intros [Hc Hs].
  unfold match_at. simpl. rewrite (digito_no_letra c Hc). now apply IH.
Qed.

(** *** The peso pass on a digit string *)

Lemma star_todos (R : Type) (p : ascii -> bool) (s : string)
      (cap : option string) (k : cont R) (v : R) :
  todos p s = true -> k "" cap = Some v -> star p s cap k = Some v.
Proof.
  intros Hs Hk. induction s as [|c s IH]; simpl; [exact Hk|].
  simpl in Hs. apply andb_true_iff in Hs. destruct Hs as [Hc Hs].
  rewrite Hc, (IH Hs). reflexivity.
Qed.

Lemma take_length (s : string) : take (String.length s) s = s.
Proof.
  induction s as [|c s IH]; simpl; [reflexivity | now rewrite IH].
Qed.

Lemma match_at_plus_todos (p : ascii -> bool) (c : ascii) (s : string) :
  p c = true -> todos p s = true ->
  match_at (Plus p) (String c s) = Some (String c s, None).
Proof.
  intros Hc Hs. unfold match_at. cbn [exec]. rewrite Hc.
  apply star_todos; [assumption|].
  cbn [String.length]. rewrite Nat.sub_0_r.
  change (S (String.length s)) with (String.length (String c s)).
  now rewrite take_length.
Qed.

Lemma finditer_skip (r : regex) (s : string) :
  forall skip, (String.length s <= skip)%nat -> finditer r s skip = [].
Proof.
  induction s as [|c s IH]; intros skip H; [reflexivity|].
  simpl in H. destruct skip as [|n]; [lia|].
  cbn [finditer]. apply IH. lia.
Qed.

Lemma findall_plus_todos (p : ascii -> bool) (c : ascii) (s : string) :
  p c = true -> todos p s = true ->
  findall (Plus p) (String c s) = [String c s].
Proof.
  intros Hc Hs. unfold findall. cbn [finditer].
  rewrite (match_at_plus_todos p c s Hc Hs). cbn [map fst].
  rewrite finditer_skip; [reflexivity|]. simpl. lia.
Qed.

Lemma remove_char_digitos (s : string) :
  todos es_digito s = true -> remove_char "." s = s.
Proof.
  induction s as [|c s IH]; simpl; [reflexivity|].
  rewrite andb_true_iff. intros [Hc Hs].
  now rewrite (digito_no_punto c Hc), IH.
Qed.

Lemma replace_char_digitos (s : string) :
  todos es_digito s = true -> replace_char "," "." s = s.
Proof.
  induction s as [|c s IH]; simpl; [reflexivity|].
  rewrite andb_true_iff. intros [Hc Hs].
  now rewrite (digito_no_coma c Hc), IH.
Qed.

Lemma n_clean_digitos (s : string) :
  todos es_digito s = true -> n_clean_de s = s.
Proof.
  intro H. unfold n_clean_de.
  now rewrite (remove_char_digitos s H), (replace_char_digitos s H).
Qed.

Lemma take_while_todos (p : ascii -> bool) (s : string) :
  todos p s = true -> take_while p s = s /\ drop_while p s = "".
Proof.
  induction s as [|c s IH]; simpl; [auto|].
  rewrite andb_true_iff. intros [Hc Hs].
  destruct (IH Hs) as [E1 E2]. now rewrite Hc, E1, E2.
Qed.

Lemma app_empty_r (s : string) : s ++ "" = s.
Proof.
  induction s as [|c s IH]; simpl; [reflexivity | now rewrite IH].
Qed.

(** [float] reads a digit string as the whole number it writes. *)
Lemma float_digitos (c : ascii) (s : string) :
  es_digito c = true -> todos es_digito s = true ->
  float (String c s) = Ok (Z.of_N (valor_digitos 0 (String c s)) # 1).
Proof.
  intros Hc Hs.
  assert (H : todos es_digito (String c s) = true) by (simpl; now rewrite Hc, Hs).
  unfold float.
  rewrite (lstrip_sin_espacios _ _ digito_no_espacio_float H).
  rewrite (rstrip_sin_espacios _ _ digito_no_espacio_float H).
  assert (E : (match String c s with
               | String "-" r => (true, r)
               | String "+" r => (false, r)
               | _ => (false, String c s)
               end) = (false, String c s)).
  { clear H Hs. por_digito c Hc; reflexivity. }
  rewrite E. clear E.
  destruct (take_while_todos es_digito _ H) as [E1 E2].
  rewrite E1, E2. cbn [String.length Nat.eqb andb].
  unfold decimal. rewrite app_empty_r. reflexivity.
Qed.

Lemma in_list_digitos (c : ascii) (s : string) :
  es_digito c = true -> in_list (String c s) [""; "."; ","] = false.
Proof.
  intro H. unfold in_list. simpl.
  now rewrite (digito_no_punto c H), (digito_no_coma c H).
Qed.

(** The whole pipeline on a non-empty digit string. *)
Lemma auditar_digitos (c : ascii) (s : string) (cot : Q) :
  es_digito c = true -> todos es_digito s = true ->
  auditar (String c s) cot
  = let val := Z.of_N (valor_digitos 0 (String c s)) # 1 in
    if es_anio val then (0, [POSIBLE_FECHA_IGNORADA])
    else (0 + val, [NORMAL]).
Proof.
  intros Hc Hs.
  assert (H : todos es_digito (String c s) = true) by (simpl; now rewrite Hc, Hs).
  assert (Eu : coincidencias_usd (String c s) = []).
  { unfold coincidencias_usd, findall_group.
    now rewrite (finditer_digitos _ _ patron_usd_no_digitos H). }
  assert (En : posibles_numeros (String c s) = [String c s]).
  { unfold posibles_numeros.
    rewrite (sub_empty_digitos _ _ patron_marcadores_no_digitos H).
    apply findall_plus_todos.
    - now apply es_digito_numerico.
    - exact (todos_impl _ _ _ es_digito_numerico Hs). }
  unfold auditar, pase_usd. rewrite Eu. cbn [fold_left].
  rewrite En, (search_letra_digitos _ H). cbn [List.length fold_left].
  unfold paso_pesos, cuerpo_pesos.
  rewrite (n_clean_digitos _ H), (in_list_digitos c s Hc), (float_digitos c s Hc Hs).
  cbn [bind]. unfold es_anio. rewrite Nat.eqb_refl, andb_true_r.
  cbv zeta.
  destruct (Qltb 2020 _ && Qltb _ 2030); reflexivity.
Qed.

(** *** Whole amounts written as digits *)

Lemma todos_string_of_uint (d : Decimal.uint) :
  todos es_digito (DecimalString.NilEmpty.string_of_uint d) = true.
Proof.
  induction d; simpl; auto.
Qed.

Lemma valor_string_of_uint (d : Decimal.uint) :
  forall acc : N,
    valor_digitos acc (DecimalString.NilEmpty.string_of_uint d)
    = (DecimalPos.Unsigned.of_lu (Decimal.rev d)
       + acc * 10 ^ DecimalPos.Unsigned.usize d)%N.
Proof.
  induction d; intro acc;
    cbn [DecimalString.NilEmpty.string_of_uint valor_digitos];
    [ simpl; lia | .. ];
    unfold Decimal.rev; cbn [Decimal.revapp];
    rewrite (DecimalPos.Unsigned.of_lu_revapp d), IHd;
    cbn [DecimalPos.Unsigned.usize]; rewrite N.pow_succ_r';
    change (digito _) with 0%N || change (digito _) with 1%N
    || change (digito _) with 2%N || change (digito _) with 3%N
    || change (digito _) with 4%N || change (digito _) with 5%N
    || change (digito _) with 6%N || change (digito _) with 7%N
    || change (digito _) with 8%N || change (digito _) with 9%N;
    cbn [DecimalPos.Unsigned.of_lu]; ring.
Qed.

Lemma valor_nilzero (d : Decimal.uint) :
  valor_digitos 0 (DecimalString.NilZero.string_of_uint d) = N.of_uint d.
Proof.
  assert (H : valor_digitos 0 (DecimalString.NilEmpty.string_of_uint d)
              = N.of_uint d).
  { rewrite valor_string_of_uint, N.mul_0_l, N.add_0_r.
    symmetry. apply DecimalPos.Unsigned.of_uint_alt. }
  destruct d; [reflexivity | exact H ..].
Qed.

Lemma valor_str_entero (n : N) : valor_digitos 0 (str_entero n) = n.
Proof.
  unfold str_entero. rewrite valor_nilzero.
  apply DecimalN.Unsigned.of_to.
Qed.

Lemma str_entero_digitos (n : N) :
  exists c s, str_entero n = String c s
              /\ es_digito c = true /\ todos es_digito s = true.
Proof.
  unfold str_entero, DecimalString.NilZero.string_of_uint.
  destruct (N.to_uint n) eqn:Ed;
    [ exists "0"%char, ""; auto | .. ];
    cbn [DecimalString.NilEmpty.string_of_uint];
    eexists; eexists; (split; [reflexivity|]);
    (split; [reflexivity | apply todos_string_of_uint]).
Qed.

(** ** The round trip and the year range *)

(** A point is a thousands separator for the peso pass: an amount written
    with a decimal point does not come back. *)
Example punto_es_separador_de_miles :
  limpiar_celda_dinero_auditado "150.0" (Some 1000) = Ok (1500, "NORMAL").
Proof. reflexivity. Qed.

(** The round trip fails on the amount 2025: the text ["2000 25"] yields
    2025, and ["2025"], which is [formato 2025 ""], is then taken for a
    year. *)
Lemma C2_contraejemplo :
  limpiar_celda_dinero_auditado "2000 25" (Some 1000) = Ok (2025, "NORMAL")
  /\ str_entero 2025 = "2025"
  /\ ~ (exists monto notas,
          limpiar_celda_dinero_auditado (str_entero 2025) (Some 1000)
          = Ok (monto, notas)
          /\ monto == 2025).
Proof.
  split; [reflexivity | split; [reflexivity|]].
  intros (m & ns & E & H).
  vm_compute in E. injection E as <- <-.
  vm_compute in H. discriminate.
Qed.

(** ** The matched numeral and the text that is deleted *)

(** C1, at the text ["110 10usd"] and rate 1000.  The dollar pattern
    matches the numeral ["10"] in front of [usd]; deleting the first
    occurrence of that text takes the ["10"] out of ["110"] instead, so
    the peso pass reads the candidates ["1"] and ["10"]: the matched
    numeral is counted once as 10 dollars and again as 10 pesos, and the
    110 pesos become 1.  The total is 10011 where the sum of the amounts
    written in the cell is 10110. *)
Theorem C1_numeral_contado_dos_veces :
  coincidencias_usd "110 10usd" = ["10"]
  /\ texto_residual "110 10usd" 1000 = "1 10usd"
  /\ candidatos "110 10usd" 1000 = ["1"; "10"]
  /\ limpiar_celda_dinero_auditado "110 10usd" (Some 1000)
     = Ok (10011, "CONVERSION_USD").
Proof.
  repeat split; reflexivity.
Qed.

(** ** Cells of foreign-currency amounts: what the dollar pattern finds *)

























(** ** Cells of foreign-currency amounts: what is left for the peso pass *)












(** ** Cells of foreign-currency amounts: canonical text *)









(** A numeral with both a thousands separator and a decimal point is not
    of the shape the dollar pattern reads in full: the pattern takes
    ["000.50"] and the peso pass is left with ["1,"]. *)
Example importe_con_miles :
  coincidencias_usd "1,000.50usd" = ["000.50"]
  /\ limpiar_celda_dinero_auditado "1,000.50usd" None = Ok (1, "CONVERSION_USD").
Proof. split; reflexivity. Qed.




(** * Further properties of the normalizer *)

Import Partes.

(** ** Case and surrounding white space *)

Lemma lower_char_idem (c : ascii) : lower_char (lower_char c) = lower_char c.
Proof.
  destruct c as [[] [] [] [] [] [] [] []]; reflexivity.
Qed.

Lemma espacio_lower_char (c : ascii) : es_espacio (lower_char c) = es_espacio c.
Proof.
  destruct c as [[] [] [] [] [] [] [] []]; reflexivity.
Qed.

Lemma lower_idem (s : string) : lower (lower s) = lower s.
Proof.
  induction s as [|c s IH]; simpl; [reflexivity|].
  now rewrite lower_char_idem, IH.
Qed.

Lemma lower_lstrip (s : string) :
  lower (lstrip_con es_espacio s) = lstrip_con es_espacio (lower s).
Proof.
  induction s as [|c s IH]; simpl; [reflexivity|].
  rewrite espacio_lower_char. destruct (es_espacio c); [exact IH | reflexivity].
Qed.

Lemma lower_rstrip (s : string) :
  lower (rstrip_con es_espacio s) = rstrip_con es_espacio (lower s).
Proof.
  induction s as [|c s IH]; simpl; [reflexivity|].
  rewrite <- IH, espacio_lower_char.
  destruct (rstrip_con es_espacio s); simpl; [|reflexivity].
  destruct (es_espacio c); reflexivity.
Qed.

Lemma lower_strip (s : string) : lower (strip s) = strip (lower s).
Proof.
  unfold strip. now rewrite lower_rstrip, lower_lstrip.
Qed.

Lemma rstrip_cons (p : ascii -> bool) (c : ascii) (s : string) :
  rstrip_con p (String c s)
  = match rstrip_con p s with
    | EmptyString => if p c then EmptyString else String c EmptyString
    | r => String c r
    end.
Proof. reflexivity. Qed.

Lemma rstrip_idem (p : ascii -> bool) (s : string) :
  rstrip_con p (rstrip_con p s) = rstrip_con p s.
Proof.
  induction s as [|c s IH]; [reflexivity|].
  rewrite rstrip_cons.
  destruct (rstrip_con p s) as [|d r] eqn:E.
  - destruct (p c) eqn:Hc; simpl; [reflexivity | now rewrite Hc].
  - rewrite rstrip_cons, IH. reflexivity.
Qed.

Lemma rstrip_no_empieza (p : ascii -> bool) (s : string) :
  no_empieza p s = true -> no_empieza p (rstrip_con p s) = true.
Proof.
  destruct s as [|c s]; simpl; [reflexivity|].
  intro Hc. destruct (rstrip_con p s); [|exact Hc].
  apply negb_true_iff in Hc. now rewrite Hc; simpl; rewrite Hc.
Qed.

Lemma lstrip_no_empieza (p : ascii -> bool) (s : string) :
  no_empieza p (lstrip_con p s) = true.
Proof.
  induction s as [|c s IH]; simpl; [reflexivity|].
  destruct (p c) eqn:Hc; [exact IH | simpl; now rewrite Hc].
Qed.

Lemma lstrip_id (p : ascii -> bool) (s : string) :
  no_empieza p s = true -> lstrip_con p s = s.
Proof.
  destruct s as [|c s]; simpl; [reflexivity|].
  intro H. apply negb_true_iff in H. now rewrite H.
Qed.

Lemma strip_idem (s : string) : strip (strip s) = strip s.
Proof.
  unfold strip.
  rewrite (lstrip_id es_espacio (rstrip_con es_espacio (lstrip_con es_espacio s))).
  - apply rstrip_idem.
  - apply rstrip_no_empieza, lstrip_no_empieza.
Qed.

Lemma texto_de_lower (valor : string) : texto_de (lower valor) = texto_de valor.
Proof.
  unfold texto_de. now rewrite lower_idem.
Qed.

Lemma texto_de_strip (valor : string) : texto_de (strip valor) = texto_de valor.
Proof.
  unfold texto_de. now rewrite lower_strip, strip_idem.
Qed.

(** X1. The normalizer does not see letter case or surrounding white
    space: lower-casing the cell, or trimming it, before the call changes
    neither the amount nor the audit text, at any exchange rate. *)
Theorem X1_mayusculas_y_espacios (valor : string) (cotizacion_blue : option Q) :
  limpiar_celda_dinero_auditado (lower valor) cotizacion_blue
  = limpiar_celda_dinero_auditado valor cotizacion_blue
  /\ limpiar_celda_dinero_auditado (strip valor) cotizacion_blue
     = limpiar_celda_dinero_auditado valor cotizacion_blue.
Proof.
  unfold limpiar_celda_dinero_auditado.
  now rewrite texto_de_lower, texto_de_strip.
Qed.

(** ** Which tags go together *)

(** X2. The audit trail holds at most two tags.  [VACIO] and [NORMAL]
    only ever stand alone, and [LIMPIEZA_TEXTO] never stands with
    [CONVERSION_USD]: a cell with a dollar match is never reported as
    text-contaminated, whatever words it holds. *)
Theorem X2_notas_excluyentes (valor : string) (cotizacion_blue : option Q) :
  (List.length (notas_de valor cotizacion_blue) <= 2)%nat
  /\ (In VACIO (notas_de valor cotizacion_blue) ->
      notas_de valor cotizacion_blue = [VACIO])
  /\ (In NORMAL (notas_de valor cotizacion_blue) ->
      notas_de valor cotizacion_blue = [NORMAL])
  /\ ~ (In CONVERSION_USD (notas_de valor cotizacion_blue)
        /\ In LIMPIEZA_TEXTO (notas_de valor cotizacion_blue)).
Proof.
  pose proof (notas_de_enum valor cotizacion_blue) as H. simpl in H.
  repeat (destruct H as [H|H]; [rewrite <- H; clear H|]); try contradiction.
  all: split; [simpl; lia|].
  all: split; [|split].
  all: try (intro Hin; try reflexivity; cbv in Hin;
            repeat (destruct Hin as [Hin|Hin]; try discriminate Hin);
            contradiction).
  all: intros [H1 H2]; cbv in H1, H2;
    repeat (destruct H1 as [H1|H1]; try discriminate H1); try contradiction;
    repeat (destruct H2 as [H2|H2]; try discriminate H2); contradiction.
Qed.

Lemma X2_notas_excluyentes_witness :
  notas_de "  " (Some 1000) = [VACIO].
Proof.
  apply (proj1 (proj2 (X2_notas_excluyentes "  " (Some 1000)))).
  left. reflexivity.
Defined.

(** ** The numerals of the dollar pass are always read *)

Lemma rstrip_con_id (p q : ascii -> bool) (s : string) :
  (forall c, q c = true -> p c = false) ->
  todos q s = true -> rstrip_con p s = s.
Proof.
  intros Hpq. induction s as [|c s IH]; [reflexivity|].
  simpl todos. rewrite andb_true_iff. intros [Hc Hs].
  rewrite rstrip_cons, (IH Hs), (Hpq c Hc). destruct s; reflexivity.
Qed.

Lemma decimal_no_espacio_float (c : ascii) :
  es_decimal c = true -> es_espacio_float c = false.
Proof.
  unfold es_decimal. rewrite orb_true_iff. intros [H|H].
  - now apply digito_no_espacio_float.
  - apply Ascii.eqb_eq in H. subst. reflexivity.
Qed.

Lemma take_while_app (p : ascii -> bool) (a b : string) :
  todos p a = true -> no_empieza p b = true ->
  take_while p (a ++ b) = a /\ drop_while p (a ++ b) = b.
Proof.
  intros Ha Hb. induction a as [|c a IH]; simpl.
  - destruct b as [|x b]; simpl; [auto|].
    simpl in Hb. apply negb_true_iff in Hb. now rewrite Hb.
  - simpl in Ha. apply andb_true_iff in Ha. destruct Ha as [Hc Ha].
    destruct (IH Ha) as [E1 E2]. now rewrite Hc, E1, E2.
Qed.

Lemma replace_char_app (a b : string) :
  replace_char "," "." (a ++ b) = replace_char "," "." a ++ replace_char "," "." b.
Proof.
  induction a as [|c a IH]; simpl; [reflexivity | now rewrite IH].
Qed.

(** [float] reads a digit, more digits, and an optional point with
    digits. *)
Lemma float_texto_decimal (c : ascii) (w d3 : string) (punto : bool) :
  es_digito c = true -> todos es_digito w = true -> todos es_digito d3 = true ->
  float (String c (w ++ (if punto then "." else "")%string ++ d3))
  = Ok (if punto then decimal (String c w) d3
        else decimal (String c (w ++ d3)) "").
Proof.
  intros Hc Hw Hd.
  set (s := String c (w ++ (if punto then "." else "")%string ++ d3)).
  assert (Hs : todos es_decimal s = true).
  { unfold s. cbn [todos]. rewrite !todos_app.
    unfold es_decimal at 1. rewrite Hc. cbn [orb andb].
    assert (Hi : forall x, es_digito x = true -> es_decimal x = true)
      by (intros x Hx; unfold es_decimal; now rewrite Hx).
    rewrite (todos_impl _ _ w Hi Hw), (todos_impl _ _ d3 Hi Hd).
    destruct punto; reflexivity. }
  unfold float.
  rewrite (lstrip_id es_espacio_float s)
    by (unfold s; simpl; now rewrite (digito_no_espacio_float c Hc)).
  rewrite (rstrip_con_id _ _ s decimal_no_espacio_float Hs).
  assert (E : (match s with
               | String "-" r => (true, r)
               | String "+" r => (false, r)
               | _ => (false, s)
               end) = (false, s)).
  { unfold s. clear Hs. por_digito c Hc; reflexivity. }
  rewrite E. clear E. unfold s.
  destruct punto.
  - change (String c (w ++ "." ++ d3)) with (String c w ++ String "." d3).
    destruct (take_while_app es_digito (String c w) (String "." d3)) as [E1 E2];
      [simpl; now rewrite Hc, Hw | reflexivity |].
    rewrite E1, E2, Hd. reflexivity.
  - cbn [append].
    destruct (take_while_todos es_digito (String c (w ++ d3))) as [E1 E2];
      [simpl; now rewrite Hc, todos_app, Hw, Hd|].
    rewrite E1, E2. reflexivity.
Qed.

(** The shape of what group 1 of the dollar pattern captures. *)
Lemma lang_plus_inv (p : ascii -> bool) (g : string) :
  lang (Plus p) g -> exists c w, g = String c w /\ p c = true /\ todos p w = true.
Proof. intro H. inversion H; subst. eauto. Qed.

Lemma lang_star_inv (p : ascii -> bool) (g : string) :
  lang (Star p) g -> todos p g = true.
Proof. intro H. inversion H; subst. assumption. Qed.

Lemma lang_opt_inv (p : ascii -> bool) (g : string) :
  lang (Opt p) g -> g = "" \/ exists c, g = String c "" /\ p c = true.
Proof. intro H. inversion H; subst; eauto. Qed.

Lemma lang_seq_inv (a b : regex) (g : string) :
  lang (Seq a b) g -> exists w1 w2, g = w1 ++ w2 /\ lang a w1 /\ lang b w2.
Proof. intro H. inversion H; subst. eauto. Qed.

Lemma grupo_usd_forma (g : string) :
  lang (Seq (Plus es_digito) (Seq (Opt es_punto_o_coma) (Star es_digito))) g ->
  exists (c : ascii) (w : string) (punto : bool) (d3 : string),
    replace_char "," "." g = String c (w ++ (if punto then "." else "")%string ++ d3)
    /\ es_digito c = true /\ todos es_digito w = true
    /\ todos es_digito d3 = true.
Proof.
  intro H.
  apply lang_seq_inv in H. destruct H as (w1 & w23 & -> & H1 & H23).
  apply lang_seq_inv in H23. destruct H23 as (w2 & d3 & -> & H2 & H3).
  apply lang_plus_inv in H1. destruct H1 as (c & w & -> & Hc & Hw).
  apply lang_star_inv in H3. rename H3 into Hd.
  apply lang_opt_inv in H2.
  exists c, w.
  destruct H2 as [->|(x & -> & Hx)].
  - exists false, d3. repeat split; auto.
    cbn [append]. rewrite (replace_char_digitos (String c (w ++ d3))).
    + reflexivity.
    + simpl. now rewrite Hc, todos_app, Hw, Hd.
  - exists true, d3. repeat split; auto.
    rewrite !replace_char_app.
    rewrite (replace_char_digitos (String c w)) by (simpl; now rewrite Hc, Hw).
    rewrite (replace_char_digitos d3 Hd).
    simpl. do 2 f_equal.
    unfold es_punto_o_coma in Hx. apply orb_true_iff in Hx.
    destruct Hx as [Hx|Hx]; apply Ascii.eqb_eq in Hx; subst; reflexivity.
Qed.

Section Captura.
Variable R : Type.

(** A successful match of a capturing pattern hands its continuation the
    text of one of its groups. *)
Lemma exec_captura (r : regex) :
  captura r = true ->
  forall (s : string) (cap : option string) (k : cont R) (v : R),
    exec r s cap k = Some v ->
    exists rest a g, In a (grupos r) /\ lang a g /\ k rest (Some g) = Some v.
Proof.
  induction r as [p|l|a IHa b IHb|a IHa b IHb|p|p|p|a IHa];
    intros Hr s cap k v H; simpl in Hr; try discriminate Hr.
  - simpl in H. destruct (captura b) eqn:Hb.
    + destruct (exec_sound _ a _ _ _ _ H) as (w1 & r1 & c1 & _ & _ & _ & K1).
      destruct (IHb eq_refl _ _ _ _ K1) as (rest & x & g & Hx & Hg & K).
      exists rest, x, g. simpl. rewrite in_app_iff. auto.
    + rewrite orb_false_r in Hr.
      destruct (IHa Hr _ _ _ _ H) as (r1 & x & g & Hx & Hg & K1).
      destruct (exec_sound _ b _ _ _ _ K1) as (w2 & r2 & c2 & _ & _ & C2 & K2).
      destruct C2 as [->|(y & h & Hy & Hh & ->)].
      * exists r2, x, g. simpl. rewrite in_app_iff. auto.
      * exists r2, y, h. simpl. rewrite in_app_iff. auto.
  - apply andb_true_iff in Hr. destruct Hr as [Ha Hb].
    simpl in H. apply orelse_some in H. destruct H as [H|H].
    + destruct (IHa Ha _ _ _ _ H) as (rest & x & g & Hx & Hg & K).
      exists rest, x, g. simpl. rewrite in_app_iff. auto.
    + destruct (IHb Hb _ _ _ _ H) as (rest & x & g & Hx & Hg & K).
      exists rest, x, g. simpl. rewrite in_app_iff. auto.
  - simpl in H.
    destruct (exec_sound _ a _ _ _ _ H) as (w & r & c & E & L & _ & K).
    rewrite E, take_app in K.
    exists r, a, w. simpl. auto.
Qed.
End Captura.

Lemma finditer_captura (r : regex) (s : string) :
  captura r = true ->
  forall (skip : nat) (m : string) (o : option string),
    In (m, o) (finditer r s skip) ->
    exists a g, In a (grupos r) /\ lang a g /\ o = Some g.
Proof.
  intro Hr. induction s as [|c s IH]; intros skip m o H; simpl in H; [contradiction|].
  destruct skip as [|n]; [|now apply IH in H].
  destruct (match_at r (String c s)) as [[m' o']|] eqn:E.
  - destruct H as [H|H]; [|now apply IH in H].
    injection H as -> ->. unfold match_at in E.
    destruct (exec_captura _ r Hr _ _ _ _ E) as (rest & a & g & Ha & Hg & K).
    injection K as _ <-. eauto.
  - now apply IH in H.
Qed.

Lemma float_coincidencia (texto m : string) :
  In m (coincidencias_usd texto) ->
  exists v, float (replace_char "," "." m) = Ok v /\ 0 <= v.
Proof.
  intro Hin.
  assert (Hv : forall v, float (replace_char "," "." m) = Ok v -> 0 <= v).
  { intros v Ev. apply float_nonneg in Ev; [assumption|].
    eapply todos_impl; [apply es_decimal_no_menos|].
    apply monto_clean_chars. eapply coincidencias_usd_numerico; eassumption. }
  unfold coincidencias_usd, findall_group in Hin. rewrite in_map_iff in Hin.
  destruct Hin as ([t o] & E & H). simpl in E.
  apply finditer_captura in H; [|reflexivity].
  destruct H as (a & g & Ha & Hg & ->). subst m.
  simpl in Ha. destruct Ha as [<-|[]].
  destruct (grupo_usd_forma g Hg) as (c & w & punto & d3 & E & Hc & Hw & Hd).
  rewrite E in *. rewrite (float_texto_decimal c w d3 punto Hc Hw Hd) in *.
  eexists. split; [reflexivity|]. now apply Hv.
Qed.

Lemma cuerpo_usd_ok (texto : string) (cot total : Q) (t m : string) :
  In m (coincidencias_usd texto) ->
  exists total',
    cuerpo_usd cot (total, t) m = Ok (total', remove_first m t)
    /\ total' == total + valor_usd m * cotizacion_efectiva cot.
Proof.
  intro Hin. destruct (float_coincidencia texto m Hin) as (v & Ev & _).
  unfold cuerpo_usd, valor_usd, cotizacion_efectiva. rewrite Ev.
  destruct (Qltb 0 cot); simpl; eexists; (split; [reflexivity | ring]).
Qed.

Lemma fold_paso_usd_texto (texto : string) (cot : Q) (ms : list string) :
  (forall m, In m ms -> In m (coincidencias_usd texto)) ->
  forall total t,
    snd (fold_left (paso_usd cot) ms (total, t))
    = fold_left (fun x m => remove_first m x) ms t.
Proof.
  induction ms as [|m ms IH]; intros Hin total t; [reflexivity|].
  cbn [fold_left]. unfold paso_usd at 2.
  destruct (cuerpo_usd_ok texto cot total t m (Hin m (or_introl eq_refl)))
    as (t' & E & _).
  rewrite E. cbn [try_except]. apply IH. intros x Hx. apply Hin. now right.
Qed.

Lemma texto_residual_eq (texto : string) (cot : Q) :
  texto_residual texto cot = sin_numerales texto.
Proof.
  unfold texto_residual, pase_usd, sin_numerales.
  now apply (fold_paso_usd_texto texto).
Qed.

(** X3. The [except] branch of the dollar loop never runs: [float]
    accepts every numeral the dollar pattern captures, so each iteration
    adds the numeral times the rate (nothing when the rate is missing or
    not positive) and deletes the first occurrence of the numeral.  The
    text handed to the peso pass is therefore the same at every rate. *)
Theorem X3_bucle_usd_sin_excepcion (texto : string) (cot total : Q) (t m : string) :
  In m (coincidencias_usd texto) ->
  (exists total',
      cuerpo_usd cot (total, t) m = Ok (total', remove_first m t)
      /\ total' == total + valor_usd m * cotizacion_efectiva cot)
  /\ texto_residual texto cot = sin_numerales texto.
Proof.
  intro Hin. split; [now apply (cuerpo_usd_ok texto) | apply texto_residual_eq].
Qed.

Lemma X3_bucle_usd_sin_excepcion_witness :
  (exists total',
      cuerpo_usd 1000 (7, "2,5 usd y 3.5us") "3.5"
      = Ok (total', remove_first "3.5" "2,5 usd y 3.5us")
      /\ total' == 7 + valor_usd "3.5" * cotizacion_efectiva 1000)
  /\ texto_residual "2,5 usd y 3.5us" 1000 = sin_numerales "2,5 usd y 3.5us".
Proof.
  apply (X3_bucle_usd_sin_excepcion "2,5 usd y 3.5us" 1000 7 "2,5 usd y 3.5us" "3.5").
  vm_compute. right. left. reflexivity.
Defined.

(** ** The amount as a function of the exchange rate *)







(** ** Cells of dollar amounts at a positive rate *)






(** * The fiscal decomposition, further *)

Import Campos.

(** * From the merged ledger to the fact table *)

Import Medios Pipeline.

Lemma limpiar_total (valor : string) (cot : option Q) :
  exists monto notas, limpiar_celda_dinero_auditado valor cot = Ok (monto, notas).
Proof.
  unfold limpiar_celda_dinero_auditado.
  destruct (es_vacio _); [now eexists; eexists|].
  destruct (auditar _ _). now eexists; eexists.
Qed.

Lemma limpiar_nonneg (valor : string) (cot : option Q) (monto : Q) (notas : string) :
  limpiar_celda_dinero_auditado valor cot = Ok (monto, notas) -> 0 <= monto.
Proof.
  unfold limpiar_celda_dinero_auditado.
  destruct (es_vacio _).
  - intro H. injection H as <- _. apply Qle_refl.
  - pose proof (auditar_nonneg (texto_de valor) (cotizacion_de cot)) as Hn.
    destruct (auditar _ _) as [t ns]. intro H. injection H as <- _. exact Hn.
Qed.

Lemma monto_de_nonneg (f : fila_melt) : 0 <= monto_de f.
Proof.
  unfold monto_de.
  destruct (limpiar_celda_dinero_auditado _ _) as [[m n]|e] eqn:E.
  - simpl. eapply limpiar_nonneg; eassumption.
  - apply Qle_refl.
Qed.

(** The cleaned row of a row of [df_melt]. *)
Lemma aplicar_limpieza_eq (df_melt : list fila_melt) :
  exists limpias,
    aplicar_limpieza df_melt = Ok limpias
    /\ map origen limpias = df_melt
    /\ Forall (fun x => monto_ars x = monto_de (origen x)) limpias.
Proof.
  induction df_melt as [|f fs (ls & E & Ho & Hm)]; simpl.
  - exists []. auto.
  - destruct (limpiar_total (valor_sucio f) (cotizacion_blue f)) as (m & n & El).
    rewrite El, E. simpl.
    eexists. split; [reflexivity|]. simpl. rewrite Ho. split; [reflexivity|].
    constructor; [|exact Hm]. simpl. unfold monto_de. now rewrite El.
Qed.

Lemma en_usd_total (x : Q) (cot : option Q) : exists y, en_usd x cot = Ok y.
Proof.
  unfold en_usd, truediv. destruct cot as [c|]; [|now eexists].
  destruct (Qltb 0 c) eqn:Hc; [|now eexists].
  apply Qltb_lt in Hc.
  destruct (Qeq_bool c 0) eqn:E; [|now eexists].
  apply Qeq_bool_iff in E. rewrite E in Hc. discriminate Hc.
Qed.

Lemma calcular_impuestos_total (a : Q) (fiscal : Z) :
  exists d, calcular_impuestos a fiscal = Ok d.
Proof.
  unfold calcular_impuestos, truediv.
  destruct (fiscal =? 1)%Z; simpl; now eexists.
Qed.

Lemma indicadores_total (x : fila_limpia) :
  exists f, indicadores x = Ok f /\ limpia f = x
            /\ fact_monto_ars f = monto_ars x
            /\ fact_es_fiscal f = es_fiscal_de (medio_pago_origen (origen x)).
Proof.
  unfold indicadores.
  destruct (en_usd_total (monto_ars x) (cotizacion_blue (origen x))) as [u Eu].
  destruct (calcular_impuestos_total (monto_ars x)
              (es_fiscal_de (medio_pago_origen (origen x)))) as [d Ed].
  destruct (en_usd_total (neto_de d) (cotizacion_blue (origen x))) as [nu En].
  rewrite Eu, Ed. simpl. rewrite En. simpl.
  eexists. split; [reflexivity|]. auto.
Qed.

Lemma aplicar_indicadores_eq (df_fact : list fila_limpia) :
  exists fs,
    aplicar_indicadores df_fact = Ok fs
    /\ map limpia fs = df_fact
    /\ Forall (fun f => indicadores (limpia f) = Ok f) fs.
Proof.
  induction df_fact as [|x xs (fs & E & Hl & Hf)]; simpl.
  - exists []. auto.
  - destruct (indicadores_total x) as (f & Ef & Hx & _).
    rewrite Ef, E. simpl. eexists. split; [reflexivity|].
    simpl. rewrite Hx, Hl. split; [reflexivity|].
    constructor; [now rewrite Hx | exact Hf].
Qed.

Lemma map_filter_comm (A B : Type) (g : A -> B) (p : B -> bool) (q : A -> bool)
      (l : list A) :
  (forall x, In x l -> q x = p (g x)) ->
  map g (filter q l) = filter p (map g l).
Proof.
  induction l as [|x l IH]; intro H; simpl; [reflexivity|].
  rewrite (H x (or_introl eq_refl)).
  destruct (p (g x)); simpl; rewrite IH; auto; intros y Hy; apply H; now right.
Qed.

Lemma melt_medio (value_vars : list string) (df : list venta) (m : fila_melt) :
  In m (melt value_vars df) -> In (medio_pago_origen m) value_vars.
Proof.
  unfold melt. rewrite in_flat_map. intros (col & Hcol & Hm).
  rewrite in_map_iff in Hm. destruct Hm as (v & <- & _). exact Hcol.
Qed.

Lemma melt_length (value_vars : list string) (df : list venta) :
  List.length (melt value_vars df)
  = (List.length value_vars * List.length df)%nat.
Proof.
  unfold melt. induction value_vars as [|c cs IH]; simpl; [reflexivity|].
  now rewrite List.length_app, List.length_map, IH.
Qed.

Lemma cols_reales_incl (columnas : list string) (c : string) :
  In c (cols_reales columnas) -> In c cols_dinero /\ In c columnas.
Proof.
  unfold cols_reales. rewrite filter_In. intros [H1 H2]. split; [exact H1|].
  unfold in_list in H2. apply existsb_exists in H2.
  destruct H2 as (x & Hx & E). apply String.eqb_eq in E. now subst.
Qed.

(** The rows of the fact table, before rounding, seen from [df_melt]. *)
Lemma tabla_sin_redondear_eq (columnas : list string) (df_merged : list venta) :
  exists fs,
    tabla_sin_redondear columnas df_merged = Ok fs
    /\ map (fun f => origen (limpia f)) fs
       = filter (fun m => Qltb 0 (monto_de m))
                (melt (cols_reales columnas) df_merged)
    /\ Forall (fun f => indicadores (limpia f) = Ok f
                        /\ monto_ars (limpia f) = monto_de (origen (limpia f))) fs.
Proof.
  unfold tabla_sin_redondear.
  destruct (aplicar_limpieza_eq (melt (cols_reales columnas) df_merged))
    as (ls & E & Ho & Hm).
  rewrite E. cbn [bind].
  destruct (aplicar_indicadores_eq (positivas ls)) as (fs & Ef & Hl & Hf).
  exists fs. split; [exact Ef|]. split.
  - rewrite <- map_map, Hl, <- Ho. unfold positivas.
    apply map_filter_comm. intros x Hx.
    rewrite Forall_forall in Hm. now rewrite (Hm x Hx).
  - rewrite Forall_forall in *. intros f Hin. split; [now apply Hf|].
    apply Hm. assert (Hp : In (limpia f) (positivas ls))
      by (rewrite <- Hl; now apply in_map).
    unfold positivas in Hp. now apply filter_In in Hp.
Qed.

(** X8. When some cell of the melted ledger has a strictly positive
    amount, no row of the pipeline raises, the fact table has a row, and
    its rows are, in order, the rows of the melted ledger whose normalized
    amount is strictly positive.  An amount is never negative, so a row is
    left out exactly when its amount is zero; there are at most eight fact
    rows per ledger row. *)
Theorem X8_filas_de_la_tabla (columnas : list string) (df_merged : list venta)
        (m0 : fila_melt) :
  In m0 (melt (cols_reales columnas) df_merged) -> 0 < monto_de m0 ->
  (exists fs,
      tabla_sin_redondear columnas df_merged = Ok fs
      /\ fs <> []
      /\ map (fun f => origen (limpia f)) fs
         = filter (fun m => Qltb 0 (monto_de m))
                  (melt (cols_reales columnas) df_merged)
      /\ Forall (fun f => 0 < fact_monto_ars f
                          /\ fact_monto_ars f = monto_de (origen (limpia f))) fs
      /\ (List.length fs <= 8 * List.length df_merged)%nat)
  /\ (forall m, Qltb 0 (monto_de m) = negb (Qeq_bool (monto_de m) 0)).
Proof.
  intros Hin0 Hpos0. split.
  - destruct (tabla_sin_redondear_eq columnas df_merged) as (fs & E & Ho & Hf).
    exists fs. split; [exact E|]. split; [|split; [exact Ho|split]].
    + intros ->. simpl in Ho.
      assert (Hp : In m0 (filter (fun m => Qltb 0 (monto_de m))
                                 (melt (cols_reales columnas) df_merged)))
        by (apply filter_In; split; [exact Hin0 | now apply Qltb_lt]).
      rewrite <- Ho in Hp. exact Hp.
    + rewrite Forall_forall in *. intros f Hin.
      destruct (Hf f Hin) as [Hi Hm].
      destruct (indicadores_total (limpia f)) as (f' & E' & _ & Ha & _).
      rewrite Hi in E'. injection E' as <-. rewrite Ha, Hm. split; [|reflexivity].
      assert (Hp : In (origen (limpia f))
                      (filter (fun m => Qltb 0 (monto_de m))
                              (melt (cols_reales columnas) df_merged)))
        by (rewrite <- Ho; now apply (in_map (fun f => origen (limpia f)))).
      apply filter_In in Hp. now apply Qltb_lt.
    + rewrite <- (List.length_map (fun f => origen (limpia f))), Ho.
      eapply Nat.le_trans; [apply filter_length_le|].
      rewrite melt_length. apply Nat.mul_le_mono_r.
      unfold cols_reales.
      eapply Nat.le_trans; [apply filter_length_le | simpl; lia].
  - intro m. pose proof (monto_de_nonneg m) as Hn.
    destruct (Qeq_bool (monto_de m) 0) eqn:E; simpl.
    + apply Qeq_bool_iff in E. apply Qltb_ge. rewrite E. apply Qle_refl.
    + apply Qltb_lt. apply Qle_lt_or_eq in Hn. destruct Hn as [Hn|Hn]; [exact Hn|].
      symmetry in Hn. apply Qeq_bool_iff in Hn. congruence.
Qed.

Lemma X8_filas_de_la_tabla_witness :
  (exists fs,
      tabla_sin_redondear Ejemplos.columnas_ejemplo [Ejemplos.venta_ejemplo] = Ok fs
      /\ fs <> []
      /\ map (fun f => origen (limpia f)) fs
         = filter (fun m => Qltb 0 (monto_de m))
                  (melt (cols_reales Ejemplos.columnas_ejemplo)
                        [Ejemplos.venta_ejemplo])
      /\ Forall (fun f => 0 < fact_monto_ars f
                          /\ fact_monto_ars f = monto_de (origen (limpia f))) fs
      /\ (List.length fs <= 8 * List.length [Ejemplos.venta_ejemplo])%nat)
  /\ (forall m, Qltb 0 (monto_de m) = negb (Qeq_bool (monto_de m) 0)).
Proof.
  apply (X8_filas_de_la_tabla Ejemplos.columnas_ejemplo [Ejemplos.venta_ejemplo]
           (origen (limpia Ejemplos.fact_ejemplo))).
  - left. reflexivity.
  - vm_compute. reflexivity.
Defined.

(** ** The fact table and the channel dimension *)

Ltac fila_de_dim k :=
  exists (nth k generar_dim_medios (Medio "" "" "" 0));
  split; [simpl; auto 10|];
  split; [reflexivity|];
  split; [reflexivity|];
  let m' := fresh "m" in
  let Hm := fresh "Hm" in
  let E := fresh "E" in
  intros m' Hm E; simpl in Hm;
  repeat (destruct Hm as [Hm|Hm]); try contradiction; subst m';
  first [reflexivity | vm_compute in E; discriminate E].

Lemma dim_medios_de_cols_dinero (c : string) :
  In c cols_dinero ->
  exists m,
    In m generar_dim_medios /\ id_medio m = c
    /\ es_fiscal m = es_fiscal_de c
    /\ forall m', In m' generar_dim_medios -> id_medio m' = c -> m' = m.
Proof.
  intro H. simpl in H.
  repeat (destruct H as [H|H]); try contradiction; subst c.
  all: first [ fila_de_dim 0%nat | fila_de_dim 1%nat | fila_de_dim 2%nat
             | fila_de_dim 3%nat | fila_de_dim 4%nat | fila_de_dim 5%nat
             | fila_de_dim 6%nat | fila_de_dim 7%nat ].
Qed.

(** X9. Every row of the fact table has exactly one row in the
    payment-channel dimension with its [medio_pago_origen] as
    [id_medio], its channel is a column of the ledger, and the
    [es_fiscal] flag computed for the fact row is the flag of that
    dimension row. *)
Theorem X9_integridad_con_dim_medios (columnas : list string)
        (df_merged : list venta) (fs : list fact) (f : fact) :
  tabla_fact columnas df_merged = Ok fs -> In f fs ->
  In (medio_pago_origen (origen (limpia f))) columnas
  /\ exists m,
      In m generar_dim_medios
      /\ id_medio m = medio_pago_origen (origen (limpia f))
      /\ es_fiscal m = fact_es_fiscal f
      /\ forall m', In m' generar_dim_medios ->
                    id_medio m' = medio_pago_origen (origen (limpia f)) -> m' = m.
Proof.
  unfold tabla_fact.
  destruct (tabla_sin_redondear_eq columnas df_merged) as (gs & E & Ho & Hf).
  rewrite E. cbn [bind]. intro H. injection H as <-.
  rewrite in_map_iff. intros (g & <- & Hg).
  cbn [redondear limpia fact_es_fiscal].
  assert (Hm : In (origen (limpia g))
                  (melt (cols_reales columnas) df_merged)).
  { assert (Hp : In (origen (limpia g)) (map (fun f => origen (limpia f)) gs))
      by now apply (in_map (fun f => origen (limpia f))).
    rewrite Ho in Hp. now apply filter_In in Hp. }
  apply melt_medio, cols_reales_incl in Hm. destruct Hm as [Hd Hc].
  split; [exact Hc|].
  rewrite Forall_forall in Hf. destruct (Hf g Hg) as [Hi _].
  destruct (indicadores_total (limpia g)) as (g' & E' & _ & _ & Hfis).
  rewrite Hi in E'. injection E' as <-. rewrite Hfis.
  now apply dim_medios_de_cols_dinero.
Qed.

Lemma X9_integridad_con_dim_medios_witness :
  In (medio_pago_origen (origen (limpia Ejemplos.fact_ejemplo)))
     Ejemplos.columnas_ejemplo
  /\ exists m,
      In m generar_dim_medios
      /\ id_medio m = medio_pago_origen (origen (limpia Ejemplos.fact_ejemplo))
      /\ es_fiscal m = fact_es_fiscal Ejemplos.fact_ejemplo
      /\ forall m', In m' generar_dim_medios ->
                    id_medio m' = medio_pago_origen (origen (limpia Ejemplos.fact_ejemplo)) ->
                    m' = m.
Proof.
  apply (X9_integridad_con_dim_medios Ejemplos.columnas_ejemplo
           [Ejemplos.venta_ejemplo] Ejemplos.tabla_ejemplo
           Ejemplos.fact_ejemplo eq_refl).
  left. reflexivity.
Defined.

(** ** Dollar equivalents *)



(** ** Rounding to four decimals *)

From Stdlib Require Import Qabs.

Lemma redondeo_par_cota (x : Q) :
  - (1 # 2) <= inject_Z (redondeo_par x) - x
  /\ inject_Z (redondeo_par x) - x <= 1 # 2.
Proof.
  destruct x as [n d]. unfold redondeo_par. cbn [Qnum Qden].
  pose proof (Z.div_mod n (Zpos d) ltac:(discriminate)) as Hdm.
  pose proof (Z.mod_pos_bound n (Zpos d) ltac:(reflexivity)) as Hb.
  set (q := (n / Zpos d)%Z) in *. set (r := (n mod Zpos d)%Z) in *.
  clearbody q r.
  assert (Hcases :
            forall R : Z,
              (R = q /\ 2 * r <= Zpos d)%Z \/ (R = q + 1 /\ Zpos d <= 2 * r)%Z ->
              - (1 # 2) <= inject_Z R - (n # d) /\ inject_Z R - (n # d) <= 1 # 2).
  { intros R HR. unfold Qle, Qminus, Qplus, Qopp, inject_Z. cbn [Qnum Qden].
    rewrite !Pos.mul_1_l.
    destruct HR as [[-> H]|[-> H]]; split; nia. }
  destruct (Z.compare_spec (2 * r) (Zpos d)) as [C|C|C].
  - destruct (Z.even q); apply Hcases; [left | right]; lia.
  - apply Hcases. left. lia.
  - apply Hcases. right. lia.
Qed.











(** * The arithmetic of the interpreter *)

From Stdlib Require Import Qpower Lqa.

Import Binario64 Flotante.

(** ** Rounding to binary64 *)

Lemma pot2_pos (e : Z) : 0 < 2 ^ e.
Proof. apply Qpower_0_lt. reflexivity. Qed.

Lemma pot2_no_cero (e : Z) : ~ 2 ^ e == 0.
Proof. intro H. pose proof (pot2_pos e) as P. rewrite H in P. discriminate P. Qed.

Lemma pot2_opp (e : Z) : 2 ^ (- e) * 2 ^ e == 1.
Proof.
  rewrite Qpower_opp, Qmult_comm. apply Qmult_inv_r, pot2_no_cero.
Qed.

Lemma pot2_suma (a b : Z) : 2 ^ (a + b) == 2 ^ a * 2 ^ b.
Proof. apply Qpower_plus. discriminate. Qed.

Lemma pot2_Z (k : Z) : (0 <= k)%Z -> inject_Z (2 ^ k) == 2 ^ k.
Proof. intro H. exact (Zpower_Qpower 2 k H). Qed.

(** [|x|] lies between the powers of two that the two logarithms give. *)
Lemma log2_cotas (x : Q) :
  ~ x == 0 ->
  let k := (Z.log2 (Z.abs (Qnum x)) - Z.log2 (Zpos (Qden x)))%Z in
  2 ^ (k - 1) < Qabs x /\ Qabs x < 2 ^ (k + 1).
Proof.
  intro Hx. cbv zeta.
  destruct x as [n d]. cbn [Qnum Qden].
  assert (Hn : (0 < Z.abs n)%Z).
  { destruct n; [elim Hx; reflexivity | reflexivity | reflexivity]. }
  pose proof (Z.log2_spec (Z.abs n) Hn) as [N1 N2].
  pose proof (Z.log2_spec (Zpos d) ltac:(reflexivity)) as [D1 D2].
  pose proof (Z.log2_nonneg (Z.abs n)) as Ln.
  pose proof (Z.log2_nonneg (Zpos d)) as Ld.
  set (ln := Z.log2 (Z.abs n)) in *. set (ld := Z.log2 (Zpos d)) in *.
  assert (En : 2 ^ ln == inject_Z (2 ^ ln)) by (symmetry; now apply pot2_Z).
  assert (En' : 2 ^ (ln + 1) == inject_Z (2 ^ (ln + 1))) by (symmetry; apply pot2_Z; lia).
  assert (Ed : 2 ^ ld == inject_Z (2 ^ ld)) by (symmetry; now apply pot2_Z).
  assert (Ed' : 2 ^ (ld + 1) == inject_Z (2 ^ (ld + 1))) by (symmetry; apply pot2_Z; lia).
  assert (Pd : (0 < 2 ^ ld)%Z) by (apply Z.pow_pos_nonneg; lia).
  assert (Pd' : (0 < 2 ^ (ld + 1))%Z) by (apply Z.pow_pos_nonneg; lia).
  assert (Ea : Qabs (n # d) == inject_Z (Z.abs n) / inject_Z (Zpos d)).
  { unfold Qabs. apply Qmake_Qdiv. }
  split.
  - replace (ln - ld - 1)%Z with (ln + - (ld + 1))%Z by lia.
    rewrite pot2_suma, Qpower_opp, En, Ed', Ea.
    unfold Z.succ in *.
    destruct (2 ^ (ld + 1))%Z as [|pb|pb] eqn:Epb; try lia.
    unfold Qlt, Qdiv, Qmult, Qinv, inject_Z. cbn [Qnum Qden]. nia.
  - replace (ln - ld + 1)%Z with (ln + 1 + - ld)%Z by lia.
    rewrite pot2_suma, Qpower_opp, En', Ed, Ea.
    unfold Z.succ in *.
    destruct (2 ^ ld)%Z as [|pb|pb] eqn:Epb; try lia.
    unfold Qlt, Qdiv, Qmult, Qinv, inject_Z. cbn [Qnum Qden]. nia.
Qed.

Lemma pot2_escala (z : Q) (a b : Z) :
  z * 2 ^ (- a) == z * 2 ^ (- (a + b)) * 2 ^ b.
Proof.
  replace (- a)%Z with (- (a + b) + b)%Z by lia.
  rewrite pot2_suma. ring.
Qed.

(** The significand has 53 bits. *)
Lemma exponente_cota (x : Q) :
  ~ x == 0 ->
  2 ^ 52 <= Qabs x * 2 ^ (- exponente x)
  /\ Qabs x * 2 ^ (- exponente x) < 2 ^ 53.
Proof.
  intro Hx. destruct (log2_cotas x Hx) as [L1 L2].
  unfold exponente.
  set (k := (Z.log2 (Z.abs (Qnum x)) - Z.log2 (Zpos (Qden x)))%Z) in *.
  set (e0 := (k - 53)%Z).
  destruct (Qle_bool (2 ^ 52) (Qabs x * 2 ^ (- (e0 + 1)))) eqn:E.
  - apply Qle_bool_iff in E. split; [exact E|].
    (* |x| < 2^(k+1) and e0 + 1 = k - 52 *)
    assert (H : Qabs x * 2 ^ (- (e0 + 1)) < 2 ^ (k + 1) * 2 ^ (- (e0 + 1))).
    { apply Qmult_lt_compat_r; [apply pot2_pos | exact L2]. }
    rewrite <- pot2_suma in H.
    replace (k + 1 + - (e0 + 1))%Z with 53%Z in H by (unfold e0; lia).
    exact H.
  - assert (E' : Qabs x * 2 ^ (- (e0 + 1)) < 2 ^ 52).
    { apply Qnot_le_lt. intro H. apply Qle_bool_iff in H. congruence. }
    split.
    + assert (H : 2 ^ (k - 1) * 2 ^ (- e0) < Qabs x * 2 ^ (- e0)).
      { apply Qmult_lt_compat_r; [apply pot2_pos | exact L1]. }
      rewrite <- pot2_suma in H.
      replace (k - 1 + - e0)%Z with 52%Z in H by (unfold e0; lia).
      apply Qlt_le_weak. exact H.
    + rewrite (pot2_escala (Qabs x) e0 1).
      setoid_replace (2 ^ 53) with (2 ^ 52 * 2 ^ 1) by reflexivity.
      apply Qmult_lt_compat_r; [reflexivity | exact E'].
Qed.

Lemma signo_abs (x : Q) : x == inject_Z (Z.sgn (Qnum x)) * Qabs x.
Proof.
  destruct x as [[|p|p] d]; unfold Qeq, Qabs, inject_Z, Qmult; cbn; lia.
Qed.

Lemma abs_signo (x : Q) :
  ~ x == 0 -> Qabs (inject_Z (Z.sgn (Qnum x))) == 1.
Proof.
  destruct x as [[|p|p] d]; intro H; [elim H; reflexivity | reflexivity | reflexivity].
Qed.

(** Rounding to binary64 moves a number by at most half a unit in the
    last place. *)
Lemma doble_error (x : Q) : Qabs (doble x - x) <= u64 * Qabs x.
Proof.
  unfold doble. destruct (Qeq_bool x 0) eqn:E0.
  - apply Qeq_bool_iff in E0. rewrite E0. discriminate.
  - assert (Hx : ~ x == 0).
    { intro H. apply Qeq_bool_iff in H. congruence. }
    cbv zeta. set (e := exponente x).
    destruct (exponente_cota x Hx) as [B1 _]. fold e in B1.
    set (y := Qabs x * 2 ^ (- e)) in *.
    destruct (redondeo_par_cota y) as [R1 R2].
    set (m := redondeo_par y) in *.
    assert (Ey : Qabs x == y * 2 ^ e).
    { unfold y. rewrite <- Qmult_assoc, pot2_opp. ring. }
    assert (Ed : inject_Z (Z.sgn (Qnum x) * m) * 2 ^ e - x
                 == inject_Z (Z.sgn (Qnum x)) * ((inject_Z m - y) * 2 ^ e)).
    { rewrite inject_Z_mult. rewrite (signo_abs x) at 2. rewrite Ey. ring. }
    rewrite Ed, Qabs_Qmult, (abs_signo x Hx), Qmult_1_l, Qabs_Qmult.
    rewrite (Qabs_pos (2 ^ e)) by (apply Qlt_le_weak, pot2_pos).
    rewrite Ey, Qmult_assoc.
    apply Qmult_le_compat_r; [|apply Qlt_le_weak, pot2_pos].
    apply Qle_trans with (1 # 2).
    + apply Qabs_Qle_condition. split; assumption.
    + unfold u64. setoid_replace (2 ^ 52) with (4503599627370496 # 1) in B1 by reflexivity.
      lra.
Qed.

(** ** Taxes and dollar columns in binary64 *)

Lemma doble_cotas (x : Q) :
  0 <= x -> x * (1 - u64) <= doble x /\ doble x <= x * (1 + u64).
Proof.
  intro Hx. pose proof (doble_error x) as H.
  rewrite (Qabs_pos x Hx) in H. apply Qabs_Qle_condition in H.
  destruct H as [H1 H2]. split; lra.
Qed.

Lemma doble_pos (x : Q) : 0 < x -> 0 < doble x.
Proof.
  intro Hx. destruct (doble_cotas x (Qlt_le_weak _ _ Hx)) as [H _].
  unfold u64 in H. lra.
Qed.

Lemma c121_valor : doble (121 # 100) == 1362338887279575 # 1125899906842624.
Proof. vm_compute. reflexivity. Qed.

Lemma c029_valor : doble (29 # 1000) == 8358680908399641 # 288230376151711744.
Proof. vm_compute. reflexivity. Qed.

Lemma c003_valor : doble (3 # 1000) == 3458764513820541 # 1152921504606846976.
Proof. vm_compute. reflexivity. Qed.

(** The fields of the fiscal decomposition, each within its rounding of
    the exact formula. *)
Lemma impuestos_b64_fiscal (a : Q) :
  0 <= a ->
  exists neto iva iibb syh q,
    calcular_impuestos_b64 a 1 = Ok (Desglose neto iva iibb syh)
    /\ q * (1362338887279575 # 1125899906842624) == a
    /\ q * (1 - u64) <= neto <= q * (1 + u64)
    /\ (a - neto) * (1 - u64) <= iva <= (a - neto) * (1 + u64)
    /\ neto * (8358680908399641 # 288230376151711744) * (1 - u64) <= iibb
       <= neto * (8358680908399641 # 288230376151711744) * (1 + u64)
    /\ neto * (3458764513820541 # 1152921504606846976) * (1 - u64) <= syh
       <= neto * (3458764513820541 # 1152921504606846976) * (1 + u64).
Proof.
  intro Ha.
  unfold calcular_impuestos_b64, fdiv, fsub, fmul. cbn [Z.eqb Pos.eqb].
  assert (E0 : Qeq_bool (doble (121 # 100)) 0 = false) by (vm_compute; reflexivity).
  rewrite E0. cbn [bind].
  set (q := a / doble (121 # 100)).
  assert (Eq : q * (1362338887279575 # 1125899906842624) == a).
  { unfold q. rewrite c121_valor. field. }
  assert (Hq : 0 <= q) by lra.
  destruct (doble_cotas q Hq) as [N1 N2].
  set (neto := doble q) in *.
  assert (Hneto : 0 <= neto) by (unfold u64 in *; lra).
  assert (Hres : 0 <= a - neto) by (unfold u64 in *; lra).
  destruct (doble_cotas (a - neto) Hres) as [I1 I2].
  set (p29 := neto * doble (29 # 1000)).
  set (p3 := neto * doble (3 # 1000)).
  assert (E29 : p29 == neto * (8358680908399641 # 288230376151711744))
    by (unfold p29; now rewrite c029_valor).
  assert (E3 : p3 == neto * (3458764513820541 # 1152921504606846976))
    by (unfold p3; now rewrite c003_valor).
  assert (H29 : 0 <= p29) by lra.
  assert (H3 : 0 <= p3) by lra.
  destruct (doble_cotas _ H29) as [B1 B2].
  destruct (doble_cotas _ H3) as [S1 S2].
  exists neto, (doble (a - neto)), (doble p29), (doble p3), q.
  split; [reflexivity|]. unfold u64 in *. repeat split; lra.
Qed.

Lemma impuestos_b64_no_fiscal (a : Q) (es_fiscal : Z) :
  es_fiscal <> 1%Z ->
  calcular_impuestos_b64 a es_fiscal = Ok (Desglose a 0 0 0).
Proof.
  intro H. unfold calcular_impuestos_b64.
  destruct (Z.eqb_spec es_fiscal 1) as [E|_]; [contradiction | reflexivity].
Qed.


(** X6. In binary64, as the interpreter computes them: on a fiscal
    channel a positive gross amount [a] splits into a net amount strictly
    between 0 and [a], a positive VAT and two positive levies.  The VAT
    is 21% of the net, and net plus the three taxes is [a] plus 3.2% of the
    net, up to rounding: the first within [3 * u64 * a], the second within
    [u64 * a], where [u64] is 2^-53.  Neither holds exactly (see
    [iva_no_exacto]). *)
Theorem X6_impuestos_en_binary64 (a : Q) :
  0 < a ->
  exists d,
    calcular_impuestos_b64 a 1 = Ok d
    /\ 0 < neto_de d /\ neto_de d < a
    /\ 0 < iva_de d /\ 0 < iibb_de d /\ 0 < syh_de d
    /\ Qabs (iva_de d - (21 # 100) * neto_de d) <= 3 * u64 * a
    /\ Qabs (neto_de d + iva_de d + iibb_de d + syh_de d
             - (a + (32 # 1000) * neto_de d)) <= u64 * a.
Proof.
  intro Ha.
  destruct (impuestos_b64_fiscal a (Qlt_le_weak _ _ Ha))
    as (neto & iva & iibb & syh & q & E & Eq & [N1 N2] & [I1 I2] & [B1 B2] & [S1 S2]).
  exists (Desglose neto iva iibb syh). split; [exact E|].
  cbn [neto_de iva_de iibb_de syh_de]. unfold u64 in *.
  repeat split; try lra.
  - apply Qabs_Qle_condition. split; lra.
  - apply Qabs_Qle_condition. split; lra.
Qed.

Lemma X6_impuestos_en_binary64_witness :
  exists d,
    calcular_impuestos_b64 100 1 = Ok d
    /\ 0 < neto_de d /\ neto_de d < 100
    /\ 0 < iva_de d /\ 0 < iibb_de d /\ 0 < syh_de d
    /\ Qabs (iva_de d - (21 # 100) * neto_de d) <= 3 * u64 * 100
    /\ Qabs (neto_de d + iva_de d + iibb_de d + syh_de d
             - (100 + (32 # 1000) * neto_de d)) <= u64 * 100.
Proof.
  apply (X6_impuestos_en_binary64 100). reflexivity.
Defined.

(** At [a = 100.0] the interpreter gives [neto = 82.64462809917356] and
    [iva = 17.35537190082644]; the VAT is not 21% of the net exactly. *)
Example iva_no_exacto :
  exists neto iva iibb syh,
    calcular_impuestos_b64 100 1 = Ok (Desglose neto iva iibb syh)
    /\ neto == 2907799346184463 # 35184372088832
    /\ iva == 610637862698737 # 35184372088832
    /\ iibb == 1349218896629591 # 562949953421312
    /\ ~ iva == (21 # 100) * neto.
Proof.
  do 4 eexists. split; [reflexivity|].
  split; [vm_compute; reflexivity|]. split; [vm_compute; reflexivity|].
  split; [vm_compute; reflexivity|].
  intro H. vm_compute in H. discriminate H.
Qed.

(** X7. In binary64 the decomposition is additive up to rounding, on
    fiscal and non-fiscal channels alike: for amounts [a, b >= 0], each
    field of the decomposition of the float sum [a + b] is the sum of the
    fields of the two decompositions to within [3 * u64 * (a + b)], where
    [u64] is 2^-53.  It is not additive exactly (see [neto_no_aditivo]). *)
Theorem X7_impuestos_aditivos_en_binary64 (a b : Q) (es_fiscal : Z) :
  0 <= a -> 0 <= b ->
  exists da db ds,
    calcular_impuestos_b64 a es_fiscal = Ok da
    /\ calcular_impuestos_b64 b es_fiscal = Ok db
    /\ calcular_impuestos_b64 (fadd a b) es_fiscal = Ok ds
    /\ Qabs (neto_de ds - (neto_de da + neto_de db)) <= 3 * u64 * (a + b)
    /\ Qabs (iva_de ds - (iva_de da + iva_de db)) <= 3 * u64 * (a + b)
    /\ Qabs (iibb_de ds - (iibb_de da + iibb_de db)) <= 3 * u64 * (a + b)
    /\ Qabs (syh_de ds - (syh_de da + syh_de db)) <= 3 * u64 * (a + b).
Proof.
  intros Ha Hb.
  assert (Hab : 0 <= a + b) by lra.
  destruct (doble_cotas (a + b) Hab) as [S1 S2]. fold (fadd a b) in S1, S2.
  set (s := fadd a b) in *.
  assert (Hs : 0 <= s) by (unfold u64 in *; lra).
  destruct (Z.eq_dec es_fiscal 1) as [->|Hf].
  - destruct (impuestos_b64_fiscal a Ha)
      as (na & ia & ba & sa & qa & Ea & Eqa & [A1 A2] & [A3 A4] & [A5 A6] & [A7 A8]).
    destruct (impuestos_b64_fiscal b Hb)
      as (nb & ib & bb & sb & qb & Eb & Eqb & [B1 B2] & [B3 B4] & [B5 B6] & [B7 B8]).
    destruct (impuestos_b64_fiscal s Hs)
      as (ns & ivs & bs & ss & qs & Es & Eqs & [C1 C2] & [C3 C4] & [C5 C6] & [C7 C8]).
    exists (Desglose na ia ba sa), (Desglose nb ib bb sb), (Desglose ns ivs bs ss).
    repeat (split; [assumption|]).
    cbn [neto_de iva_de iibb_de syh_de]. unfold u64 in *.
    repeat split; apply Qabs_Qle_condition; split; lra.
  - rewrite !(impuestos_b64_no_fiscal _ _ Hf).
    do 3 eexists. repeat (split; [reflexivity|]).
    cbn [neto_de iva_de iibb_de syh_de]. unfold u64 in *.
    repeat split; apply Qabs_Qle_condition; split; lra.
Qed.

Lemma X7_impuestos_aditivos_en_binary64_witness :
  exists da db ds,
    calcular_impuestos_b64 (1 # 10) 1 = Ok da
    /\ calcular_impuestos_b64 (2 # 10) 1 = Ok db
    /\ calcular_impuestos_b64 (fadd (1 # 10) (2 # 10)) 1 = Ok ds
    /\ Qabs (neto_de ds - (neto_de da + neto_de db)) <= 3 * u64 * ((1 # 10) + (2 # 10))
    /\ Qabs (iva_de ds - (iva_de da + iva_de db)) <= 3 * u64 * ((1 # 10) + (2 # 10))
    /\ Qabs (iibb_de ds - (iibb_de da + iibb_de db)) <= 3 * u64 * ((1 # 10) + (2 # 10))
    /\ Qabs (syh_de ds - (syh_de da + syh_de db)) <= 3 * u64 * ((1 # 10) + (2 # 10)).
Proof.
  apply (X7_impuestos_aditivos_en_binary64 (1 # 10) (2 # 10) 1); discriminate.
Defined.

(** With the floats [0.1] and [0.2]: the net of the sum is
    [0.2479338842975207], the float sum of the two nets is
    [0.24793388429752067]. *)
Example neto_no_aditivo :
  exists da db ds,
    calcular_impuestos_b64 (doble (1 # 10)) 1 = Ok da
    /\ calcular_impuestos_b64 (doble (2 # 10)) 1 = Ok db
    /\ calcular_impuestos_b64 (fadd (doble (1 # 10)) (doble (2 # 10))) 1 = Ok ds
    /\ neto_de ds == 8932759591478671 # 36028797018963968
    /\ fadd (neto_de da) (neto_de db) == 4466379795739335 # 18014398509481984
    /\ ~ neto_de ds == neto_de da + neto_de db.
Proof.
  do 3 eexists.
  split; [reflexivity|]. split; [reflexivity|]. split; [reflexivity|].
  split; [vm_compute; reflexivity|]. split; [vm_compute; reflexivity|].
  intro H. vm_compute in H. discriminate H.
Qed.

Lemma fdiv_ok (x c : Q) : 0 < c -> fdiv x c = Ok (doble (x / c)).
Proof.
  intro Hc. unfold fdiv.
  destruct (Qeq_bool c 0) eqn:E; [|reflexivity].
  apply Qeq_bool_iff in E. rewrite E in Hc. discriminate Hc.
Qed.

(** A quotient by [c > 0], rounded, times [c], is the dividend to within
    one rounding. *)
Lemma cociente_por_divisor (x c : Q) :
  0 <= x -> 0 < c ->
  x * (1 - u64) <= doble (x / c) * c /\ doble (x / c) * c <= x * (1 + u64).
Proof.
  intros Hx Hc.
  assert (Hw : 0 <= x / c).
  { unfold Qdiv. apply Qmult_le_0_compat; [exact Hx|].
    apply Qlt_le_weak, Qinv_lt_0_compat, Hc. }
  destruct (doble_cotas (x / c) Hw) as [H1 H2].
  assert (E : forall k, x / c * k * c == x * k) by (intro k; field; lra).
  split.
  - rewrite <- (E (1 - u64)). apply Qmult_le_compat_r; [exact H1 | lra].
  - rewrite <- (E (1 + u64)). apply Qmult_le_compat_r; [exact H2 | lra].
Qed.

Lemma en_usd_b64_eq (x : Q) (cot : option Q) :
  en_usd_b64 x cot
  = Ok (match cot with
        | Some c => if Qltb 0 c then doble (x / c) else 0
        | None => 0
        end).
Proof.
  unfold en_usd_b64. destruct cot as [c|]; [|reflexivity].
  destruct (Qltb 0 c) eqn:Hc; [|reflexivity].
  apply Qltb_lt in Hc. now apply fdiv_ok.
Qed.

Lemma calcular_impuestos_b64_total (a : Q) (fiscal : Z) :
  exists d, calcular_impuestos_b64 a fiscal = Ok d.
Proof.
  unfold calcular_impuestos_b64, fdiv.
  assert (E0 : Qeq_bool (doble (121 # 100)) 0 = false) by (vm_compute; reflexivity).
  rewrite E0. destruct (fiscal =? 1)%Z; simpl; now eexists.
Qed.

(** X10. The dollar columns of a fact row in binary64, as the interpreter
    computes them, for a peso amount that is not negative ([u64] is 2^-53).
    With a positive rate [c], [monto_usd * c] is the peso amount and
    [monto_neto_usd * c] the net amount, each to within one rounding
    ([u64] times the amount); with a missing or non-positive rate both
    dollar columns are 0 and nothing is divided.  On a fiscal channel
    [monto_neto_usd * 1.21] is [monto_usd] to within [5 * u64 * monto_usd];
    on the other channels the two dollar columns are the same number. *)
Theorem X10_columnas_en_usd_en_binary64 (x : fila_limpia) :
  0 <= monto_ars x ->
  exists f,
    indicadores_b64 x = Ok f
    /\ (forall c, cotizacion_blue (origen x) = Some c -> 0 < c ->
          Qabs (monto_usd f * c - monto_ars x) <= u64 * monto_ars x
          /\ Qabs (monto_neto_usd f * c - monto_neto f) <= u64 * monto_neto f)
    /\ (cotizacion_blue (origen x) = None
        \/ (exists c, cotizacion_blue (origen x) = Some c /\ c <= 0) ->
        monto_usd f = 0 /\ monto_neto_usd f = 0)
    /\ (fact_es_fiscal f = 1%Z ->
        Qabs (monto_neto_usd f * (121 # 100) - monto_usd f)
        <= 5 * u64 * monto_usd f)
    /\ (fact_es_fiscal f <> 1%Z ->
        monto_neto_usd f = monto_usd f /\ monto_neto f = monto_ars x).
Proof.
  intro Hx. unfold indicadores_b64.
  set (cot := cotizacion_blue (origen x)).
  set (fiscal := es_fiscal_de (medio_pago_origen (origen x))).
  rewrite en_usd_b64_eq. cbn [bind].
  destruct (calcular_impuestos_b64_total (monto_ars x) fiscal) as [d Ed].
  rewrite Ed. cbn [bind]. rewrite en_usd_b64_eq. cbn [bind].
  eexists. split; [reflexivity|].
  cbn [monto_usd monto_neto_usd monto_neto fact_es_fiscal].
  assert (Hn : 0 <= neto_de d
               /\ (fiscal <> 1%Z -> neto_de d = monto_ars x)
               /\ (fiscal = 1%Z ->
                   exists q, q * (1362338887279575 # 1125899906842624) == monto_ars x
                             /\ q * (1 - u64) <= neto_de d <= q * (1 + u64))).
  { destruct (Z.eq_dec fiscal 1) as [Ef|Ef].
    - rewrite Ef in Ed.
      destruct (impuestos_b64_fiscal (monto_ars x) Hx)
        as (neto & iva & iibb & syh & q & E & Eq & [N1 N2] & _).
      rewrite E in Ed. injection Ed as <-. cbn [neto_de].
      split; [unfold u64 in *; lra|]. split; [contradiction|].
      intros _. exists q. auto.
    - rewrite (impuestos_b64_no_fiscal _ _ Ef) in Ed. injection Ed as <-.
      cbn [neto_de]. split; [exact Hx|]. split; [reflexivity | contradiction]. }
  destruct Hn as (Hneto & Hnf & Hfi).
  split; [|split; [|split]].
  - intros c Ec Hc. rewrite Ec. rewrite (proj2 (Qltb_lt 0 c) Hc).
    destruct (cociente_por_divisor (monto_ars x) c Hx Hc) as [A1 A2].
    destruct (cociente_por_divisor (neto_de d) c Hneto Hc) as [B1 B2].
    split; apply Qabs_Qle_condition; split; lra.
  - intros [E|(c & E & Hc)]; rewrite E; [split; reflexivity|].
    rewrite (proj2 (Qltb_ge 0 c) Hc). split; reflexivity.
  - intro Ef. destruct (Hfi Ef) as (q & Eq & N1 & N2).
    destruct cot as [c|]; [|apply Qabs_Qle_condition; split; lra].
    destruct (Qltb 0 c) eqn:Hc; [|apply Qabs_Qle_condition; split; lra].
    apply Qltb_lt in Hc.
    assert (Hic : 0 < / c) by (apply Qinv_lt_0_compat, Hc).
    assert (Hw : 0 <= monto_ars x / c)
      by (unfold Qdiv; apply Qmult_le_0_compat; lra).
    assert (Hz : 0 <= neto_de d / c)
      by (unfold Qdiv; apply Qmult_le_0_compat; lra).
    destruct (doble_cotas _ Hw) as [U1 U2].
    destruct (doble_cotas _ Hz) as [Z1 Z2].
    set (w := monto_ars x / c) in *. set (z := neto_de d / c) in *.
    assert (V1 : q / c * (1 - u64) <= z).
    { unfold z. setoid_replace (q / c * (1 - u64)) with (q * (1 - u64) * / c) by field; [|lra].
      unfold Qdiv. apply Qmult_le_compat_r; lra. }
    assert (V2 : z <= q / c * (1 + u64)).
    { unfold z. setoid_replace (q / c * (1 + u64)) with (q * (1 + u64) * / c) by field; [|lra].
      unfold Qdiv. apply Qmult_le_compat_r; lra. }
    assert (Ev : q / c * (1362338887279575 # 1125899906842624) == w).
    { unfold w. rewrite <- Eq. field. lra. }
    set (v := q / c) in *.
    unfold u64 in *. apply Qabs_Qle_condition; split; lra.
  - intro Ef. rewrite (Hnf Ef). split; reflexivity.
Qed.

Lemma X10_columnas_en_usd_en_binary64_witness :
  exists f,
    indicadores_b64 (limpia Ejemplos.fact_ejemplo) = Ok f
    /\ (forall c,
          cotizacion_blue (origen (limpia Ejemplos.fact_ejemplo)) = Some c ->
          0 < c ->
          Qabs (monto_usd f * c - monto_ars (limpia Ejemplos.fact_ejemplo))
          <= u64 * monto_ars (limpia Ejemplos.fact_ejemplo)
          /\ Qabs (monto_neto_usd f * c - monto_neto f) <= u64 * monto_neto f)
    /\ (cotizacion_blue (origen (limpia Ejemplos.fact_ejemplo)) = None
        \/ (exists c,
               cotizacion_blue (origen (limpia Ejemplos.fact_ejemplo)) = Some c
               /\ c <= 0) ->
        monto_usd f = 0 /\ monto_neto_usd f = 0)
    /\ (fact_es_fiscal f = 1%Z ->
        Qabs (monto_neto_usd f * (121 # 100) - monto_usd f)
        <= 5 * u64 * monto_usd f)
    /\ (fact_es_fiscal f <> 1%Z ->
        monto_neto_usd f = monto_usd f
        /\ monto_neto f = monto_ars (limpia Ejemplos.fact_ejemplo)).
Proof.
  apply (X10_columnas_en_usd_en_binary64 (limpia Ejemplos.fact_ejemplo)).
  vm_compute. discriminate.
Defined.

(** With the amount [1.0] and the rate [49.0]: [monto_usd] is
    [0.02040816326530612], and the float product [monto_usd * 49.0] is
    [0.9999999999999999]. *)
Example usd_no_exacto :
  exists usd,
    en_usd_b64 1 (Some 49) = Ok usd
    /\ usd == 5882252574524729 # 288230376151711744
    /\ fmul usd 49 == 9007199254740991 # 9007199254740992
    /\ ~ usd * 49 == 1.
Proof.
  eexists. split; [reflexivity|].
  split; [vm_compute; reflexivity|]. split; [vm_compute; reflexivity|].
  intro H. vm_compute in H. discriminate H.
Qed.
Import PyStr ReLang Transformation Cotizaciones CeldasUSD.

(** ** The live quote *)

Lemma remove_char_app (c : ascii) (a b : string) :
  remove_char c (a ++ b) = remove_char c a ++ remove_char c b.
Proof.
  induction a as [|x a IH]; simpl; [reflexivity|].
  destruct (Ascii.eqb x c); simpl; now rewrite IH.
Qed.

Lemma remove_punto_digitos (s : string) :
  todos es_decimal s = true -> todos es_digito (remove_char "." s) = true.
Proof.
  induction s as [|c s IH]; simpl; [reflexivity|].
  rewrite andb_true_iff. intros [Hc Hs].
  destruct (Ascii.eqb c ".") eqn:E; [now apply IH|].
  unfold es_decimal in Hc. rewrite E, orb_false_r in Hc.
  simpl. now rewrite Hc, IH.
Qed.

Lemma rstrip_app_keep (p : ascii -> bool) (x y : string) (c : ascii) :
  p c = false ->
  rstrip_con p (x ++ String c y) = x ++ String c (rstrip_con p y).
Proof.
  intro Hc. induction x as [|a x IH].
  - cbn [append]. rewrite rstrip_cons, Hc. now destruct (rstrip_con p y).
  - cbn [append]. rewrite rstrip_cons, IH. now destruct x.
Qed.

(** The text of [float] once the points are dropped and the comma is a
    point: digits, a point, digits. *)
Lemma float_punto (E F : string) :
  todos es_digito E = true -> todos es_digito F = true ->
  (E ++ F)%string <> "" ->
  float (E ++ "." ++ F) = Ok (decimal E F).
Proof.
  intros HE HF Hne.
  set (s := (E ++ "." ++ F)%string).
  assert (Hi : forall x, es_digito x = true -> es_decimal x = true)
    by (intros x Hx; unfold es_decimal; now rewrite Hx).
  assert (Hs : todos es_decimal s = true).
  { unfold s. rewrite !todos_app, (todos_impl _ _ E Hi HE), (todos_impl _ _ F Hi HF).
    reflexivity. }
  assert (H1 : no_empieza es_espacio_float s = true).
  { unfold s. destruct E as [|c E]; [reflexivity|].
    simpl in HE. apply andb_true_iff in HE. destruct HE as [Hc _].
    simpl. now rewrite (digito_no_espacio_float c Hc). }
  unfold float.
  rewrite (lstrip_id _ _ H1), (rstrip_con_id _ _ s decimal_no_espacio_float Hs).
  assert (E0 : (match s with
               | String "-" r => (true, r)
               | String "+" r => (false, r)
               | _ => (false, s)
               end) = (false, s)).
  { unfold s. destruct E as [|c E]; [reflexivity|].
    simpl in HE. apply andb_true_iff in HE. destruct HE as [Hc _].
    cbn [append]. clear - Hc. por_digito c Hc; reflexivity. }
  rewrite E0. clear E0. unfold s.
  destruct (take_while_app es_digito E (String "." F)) as [E1 E2];
    [exact HE | reflexivity |].
  change (E ++ "." ++ F)%string with (E ++ String "." F)%string.
  rewrite E1, E2, HF.
  destruct E as [|c E]; [|reflexivity].
  destruct F as [|c F]; [now contradiction Hne | reflexivity].
Qed.

Lemma float_dos_puntos (E F G : string) :
  todos es_digito E = true -> todos es_digito F = true ->
  float (E ++ "." ++ F ++ "." ++ G) = Raise ValueError.
Proof.
  intros HE HF.
  set (s := (E ++ "." ++ F ++ "." ++ G)%string).
  assert (H1 : no_empieza es_espacio_float s = true).
  { unfold s. destruct E as [|c E]; [reflexivity|].
    simpl in HE. apply andb_true_iff in HE. destruct HE as [Hc _].
    simpl. now rewrite (digito_no_espacio_float c Hc). }
  unfold float. rewrite (lstrip_id _ _ H1). unfold s.
  change (E ++ "." ++ F ++ "." ++ G)%string
    with (E ++ String "." (F ++ String "." G))%string.
  rewrite (rstrip_app_keep es_espacio_float E _ "." eq_refl).
  rewrite (rstrip_app_keep es_espacio_float F _ "." eq_refl).
  set (G' := rstrip_con es_espacio_float G).
  set (u := (E ++ String "." (F ++ String "." G'))%string).
  assert (E0 : (match u with
               | String "-" r => (true, r)
               | String "+" r => (false, r)
               | _ => (false, u)
               end) = (false, u)).
  { unfold u. destruct E as [|c E]; [reflexivity|].
    simpl in HE. apply andb_true_iff in HE. destruct HE as [Hc _].
    cbn [append]. clear - Hc. por_digito c Hc; reflexivity. }
  rewrite E0. clear E0. unfold u.
  destruct (take_while_app es_digito E (String "." (F ++ String "." G')))
    as [E1 E2]; [exact HE | reflexivity |].
  rewrite E1, E2, todos_app, HF. reflexivity.
Qed.

(** X13. The live quote is read in the local format: every point is
    dropped and the comma is the decimal mark.  A text with one comma is
    worth the digits before it with the digits after it as its fraction;
    a text without a comma is worth all its digits as a whole number,
    wherever its points are, so [1500.50] is read as 150050; with two
    commas [float] raises, and no live row is added. *)
Theorem X13_cotizacion_del_dia (e f : string) :
  todos es_decimal e = true -> todos es_decimal f = true ->
  remove_char "." (e ++ f) <> "" ->
  valor_hoy (e ++ "," ++ f)
  = Ok (decimal (remove_char "." e) (remove_char "." f))
  /\ (remove_char "." e <> "" ->
      valor_hoy e = Ok (decimal (remove_char "." e) ""))
  /\ (forall (g : string) (fecha : resultado Z),
        valor_hoy (e ++ "," ++ f ++ "," ++ g) = Raise ValueError
        /\ df_hoy fecha (e ++ "," ++ f ++ "," ++ g) = []).
Proof.
  intros He Hf Hne.
  pose proof (remove_punto_digitos e He) as HE.
  pose proof (remove_punto_digitos f Hf) as HF.
  rewrite remove_char_app in Hne.
  unfold valor_hoy. split; [|split].
  - rewrite !remove_char_app, !replace_char_app,
      (replace_char_digitos _ HE), (replace_char_digitos _ HF).
    now apply float_punto.
  - intro Hne'. rewrite (replace_char_digitos _ HE).
    destruct (remove_char "." e) as [|c E] eqn:Ee; [now contradiction Hne'|].
    simpl in HE. apply andb_true_iff in HE. destruct HE as [Hc HE].
    rewrite (float_digitos c E Hc HE). unfold decimal.
    now rewrite app_empty_r.
  - intros g fecha.
    assert (R : float (replace_char "," "."
                         (remove_char "." (e ++ "," ++ f ++ "," ++ g)))
                = Raise ValueError).
    { rewrite !remove_char_app, !replace_char_app,
        (replace_char_digitos _ HE), (replace_char_digitos _ HF).
      exact (float_dos_puntos _ _ _ HE HF). }
    split; [exact R|].
    unfold df_hoy, valor_hoy. rewrite R. now destruct fecha.
Qed.

Lemma X13_cotizacion_del_dia_witness :
  valor_hoy ("1.500" ++ "," ++ "50")
  = Ok (decimal (remove_char "." "1.500") (remove_char "." "50"))
  /\ (remove_char "." "1.500" <> "" ->
      valor_hoy "1.500" = Ok (decimal (remove_char "." "1.500") ""))
  /\ (forall (g : string) (fecha : resultado Z),
        valor_hoy ("1.500" ++ "," ++ "50" ++ "," ++ g) = Raise ValueError
        /\ df_hoy fecha ("1.500" ++ "," ++ "50" ++ "," ++ g) = []).
Proof.
  apply (X13_cotizacion_del_dia "1.500" "50").
  - reflexivity.
  - reflexivity.
  - discriminate.
Defined.

(** ** Round trip of decimal amounts *)

Lemma numerico_lower (c : ascii) : es_numerico c = true -> lower_char c = c.
Proof.
  intro H. destruct (es_numerico_cases c H) as [Hd|[->| ->]];
    [now apply digito_lower | reflexivity | reflexivity].
Qed.

Lemma numerico_no_espacio (c : ascii) :
  es_numerico c = true -> es_espacio c = false.
Proof.
  intro H. destruct (es_numerico_cases c H) as [Hd|[->| ->]];
    [now apply digito_no_espacio | reflexivity | reflexivity].
Qed.

Lemma numerico_no_letra (c : ascii) : es_numerico c = true -> es_letra c = false.
Proof.
  intro H. destruct (es_numerico_cases c H) as [Hd|[->| ->]];
    [now apply digito_no_letra | reflexivity | reflexivity].
Qed.

Lemma lower_numerico (s : string) : todos es_numerico s = true -> lower s = s.
Proof.
  induction s as [|c s IH]; simpl; [reflexivity|].
  rewrite andb_true_iff. intros [Hc Hs]. now rewrite IH, numerico_lower.
Qed.

Lemma texto_de_numerico (s : string) :
  todos es_numerico s = true -> texto_de s = s.
Proof.
  intro H. unfold texto_de, strip. rewrite (lower_numerico s H).
  rewrite lstrip_id.
  - exact (rstrip_con_id es_espacio es_numerico s numerico_no_espacio H).
  - destruct s as [|c s]; [reflexivity|]. simpl in H |- *.
    apply andb_true_iff in H. destruct H as [Hc _].
    now rewrite (numerico_no_espacio c Hc).
Qed.

(** *** No marker and no letter in a numeral *)

Lemma marcador_no_numerico (m : string) :
  lang marcador_usd m -> todos es_numerico m = false.
Proof.
  unfold marcador_usd. intro H.
  repeat match goal with
         | H : lang (Alt _ _) _ |- _ => inversion H; subst; clear H
         | H : lang (Lit _) _ |- _ => inversion H; subst; clear H
         end; reflexivity.
Qed.

Lemma patron_usd_no_numerico (m : string) :
  lang patron_usd m -> todos es_numerico m = false.
Proof.
  unfold patron_usd. intro H.
  inversion H as [| |a b g w H1 H2| | | | | | |]; subst.
  inversion H2 as [| |a b ws mk H3 H4| | | | | | |]; subst.
  rewrite !todos_app, (marcador_no_numerico mk H4).
  now rewrite !andb_false_r.
Qed.

Lemma patron_marcadores_no_numerico (m : string) :
  lang patron_marcadores m -> todos es_numerico m = false.
Proof.
  unfold patron_marcadores. intro H.
  repeat match goal with
         | H : lang (Alt _ _) _ |- _ => inversion H; subst; clear H
         | H : lang (Lit _) _ |- _ => inversion H; subst; clear H
         end; reflexivity.
Qed.

(** A pattern whose matches all hold a character outside the class [p]
    finds nothing in a text of class [p]. *)
Lemma match_at_clase (p : ascii -> bool) (r : regex) (s : string) :
  (forall m, lang r m -> todos p m = false) ->
  todos p s = true -> match_at r s = None.
Proof.
  intros Hr Hs. destruct (match_at r s) as [[m g]|] eqn:E; [|reflexivity].
  apply match_at_sound in E. destruct E as ((rest & ->) & L & _).
  rewrite todos_app, (Hr m L) in Hs. discriminate.
Qed.

Lemma finditer_clase (p : ascii -> bool) (r : regex) (s : string) :
  (forall m, lang r m -> todos p m = false) ->
  todos p s = true -> forall skip, finditer r s skip = [].
Proof.
  intros Hr. induction s as [|c s IH]; intros Hs skip; [reflexivity|].
  pose proof (match_at_clase p r _ Hr Hs) as E.
  simpl in Hs. apply andb_true_iff in Hs. destruct Hs as [_ Hs].
  cbn [finditer]. destruct skip; [rewrite E|]; now apply IH.
Qed.

Lemma sub_empty_clase (p : ascii -> bool) (r : regex) (s : string) :
  (forall m, lang r m -> todos p m = false) ->
  todos p s = true -> sub_empty r s 0 = s.
Proof.
  intros Hr. induction s as [|c s IH]; intros Hs; [reflexivity|].
  pose proof (match_at_clase p r _ Hr Hs) as E.
  simpl in Hs. apply andb_true_iff in Hs. destruct Hs as [_ Hs].
  cbn [sub_empty]. rewrite E, (IH Hs). reflexivity.
Qed.

Lemma search_letra_numerico (s : string) :
  todos es_numerico s = true -> search patron_letra s = false.
Proof.
  induction s as [|c s IH]; [reflexivity|].
  simpl. rewrite andb_true_iff. intros [Hc Hs].
  unfold match_at. simpl. rewrite (numerico_no_letra c Hc). now apply IH.
Qed.

(** *** The peso pass on a numeral with a decimal comma *)

Lemma n_clean_decimal (ip fr : string) :
  todos es_digito ip = true -> todos es_digito fr = true ->
  n_clean_de (ip ++ "," ++ fr) = ip ++ "." ++ fr.
Proof.
  intros Hi Hf. unfold n_clean_de.
  rewrite remove_char_app, (remove_char_digitos ip Hi).
  change (remove_char "." ("," ++ fr)) with (String "," (remove_char "." fr)).
  rewrite (remove_char_digitos fr Hf), replace_char_app,
    (replace_char_digitos ip Hi).
  change (replace_char "," "." (String "," fr))
    with (String "." (replace_char "," "." fr)).
  now rewrite (replace_char_digitos fr Hf).
Qed.

(** The whole pipeline on digits, a comma and digits. *)
Lemma auditar_decimal (c : ascii) (w fr : string) (cot : Q) :
  es_digito c = true -> todos es_digito w = true -> todos es_digito fr = true ->
  auditar (String c w ++ "," ++ fr) cot
  = let val := decimal (String c w) fr in
    if es_anio val then (0, [POSIBLE_FECHA_IGNORADA])
    else (0 + val, [NORMAL]).
Proof.
  intros Hc Hw Hf.
  assert (Hi : todos es_digito (String c w) = true) by (simpl; now rewrite Hc, Hw).
  set (s := String c w ++ "," ++ fr).
  assert (H : todos es_numerico s = true).
  { unfold s. rewrite !todos_app.
    rewrite (todos_impl _ _ _ es_digito_numerico Hi),
      (todos_impl _ _ _ es_digito_numerico Hf). reflexivity. }
  assert (Es : s = String c (w ++ "," ++ fr)) by reflexivity.
  assert (Eu : coincidencias_usd s = []).
  { unfold coincidencias_usd, findall_group.
    now rewrite (finditer_clase _ _ _ patron_usd_no_numerico H). }
  assert (En : posibles_numeros s = [s]).
  { unfold posibles_numeros.
    rewrite (sub_empty_clase _ _ _ patron_marcadores_no_numerico H).
    rewrite Es in H |- *. simpl in H. apply andb_true_iff in H.
    destruct H as [H1 H2]. now apply findall_plus_todos. }
  unfold auditar, pase_usd. rewrite Eu. cbn [fold_left].
  rewrite En, (search_letra_numerico _ H). cbn [List.length fold_left].
  unfold paso_pesos, cuerpo_pesos. unfold s at 1 2.
  rewrite (n_clean_decimal _ _ Hi Hf).
  change (String c w ++ "." ++ fr) with (String c (w ++ "." ++ fr)).
  rewrite (in_list_digitos c _ Hc).
  rewrite (float_texto_decimal c w fr true Hc Hw Hf).
  cbn [bind]. unfold es_anio. rewrite Nat.eqb_refl, andb_true_r.
  cbv zeta.
  destruct (Qltb 2020 _ && Qltb _ 2030); reflexivity.
Qed.

Lemma decimal_entero (ip : string) :
  decimal ip "" = Z.of_N (valor_digitos 0 ip) # 1.
Proof. unfold decimal. now rewrite app_empty_r. Qed.

(** The normalizer on an amount written by [formato]. *)
Lemma limpiar_formato (n : N) (fr : string) (cotizacion_blue : option Q) :
  todos es_digito fr = true ->
  limpiar_celda_dinero_auditado (formato n fr) cotizacion_blue
  = if es_anio (decimal (str_entero n) fr)
    then Ok (0, "POSIBLE_FECHA_IGNORADA")
    else Ok (0 + decimal (str_entero n) fr, "NORMAL").
Proof.
  intro Hf.
  destruct (str_entero_digitos n) as (c & w & E & Hc & Hw).
  assert (Hi : todos es_digito (String c w) = true) by (simpl; now rewrite Hc, Hw).
  unfold limpiar_celda_dinero_auditado, formato. rewrite E.
  destruct fr as [|d fr].
  - rewrite (texto_de_digitos _ Hi), (es_vacio_digitos c w Hc).
    rewrite (auditar_digitos c w _ Hc Hw). cbv zeta.
    rewrite decimal_entero.
    destruct (es_anio _); reflexivity.
  - assert (H : todos es_numerico (String c w ++ "," ++ String d fr) = true).
    { rewrite !todos_app.
      rewrite (todos_impl _ _ _ es_digito_numerico Hi),
        (todos_impl _ _ _ es_digito_numerico Hf). reflexivity. }
    rewrite (texto_de_numerico _ H).
    change (String c w ++ "," ++ String d fr)
      with (String c (w ++ "," ++ String d fr)) at 1.
    rewrite (es_vacio_digitos c _ Hc).
    rewrite (auditar_decimal c w (String d fr) _ Hc Hw Hf). cbv zeta.
    destruct (es_anio _); reflexivity.
Qed.

(** What [formato n fr] writes: the whole part [n] and the decimals [fr]. *)
Lemma valor_digitos_app (a b : string) (acc : N) :
  valor_digitos acc (a ++ b) = valor_digitos (valor_digitos acc a) b.
Proof.
  revert acc. induction a as [|c a IH]; intro acc; [reflexivity|].
  cbn [append valor_digitos]. apply IH.
Qed.

Lemma valor_digitos_acc (s : string) (acc : N) :
  valor_digitos acc s
  = (acc * Npos (pow10 (String.length s)) + valor_digitos 0 s)%N.
Proof.
  revert acc. induction s as [|c s IH]; intro acc.
  - cbn [valor_digitos String.length pow10]. lia.
  - cbn [valor_digitos String.length pow10].
    rewrite (IH (10 * acc + digito c)%N), (IH (10 * 0 + digito c)%N). lia.
Qed.

Lemma decimal_str_entero (n : N) (fr : string) :
  decimal (str_entero n) fr
  == inject_Z (Z.of_N n)
     + (Z.of_N (valor_digitos 0 fr) # pow10 (String.length fr)).
Proof.
  unfold decimal. rewrite valor_digitos_app, valor_str_entero, valor_digitos_acc.
  unfold Qeq, Qplus, inject_Z. cbn [Qnum Qden]. nia.
Qed.

(** C2, as the code has it.  When the normalizer yields an amount that is
    not strictly between 2020 and 2030, running it again on that amount
    written back as text by [formato] (the digits of the whole part [n]
    and, when there are decimals, a comma and the decimal digits [fr])
    yields the same amount, with the tag [NORMAL], at every exchange rate.
    An amount strictly between 2020 and 2030 written that way is a lone
    candidate in the year range: the date heuristic returns 0 with
    [POSIBLE_FECHA_IGNORADA].  The statement is for every decimal writing
    of the amount, whole or fractional. *)
Theorem C2_ida_y_vuelta (t : string) (r : option Q)
        (monto : Q) (notas : string) (n : N) (fr : string) :
  limpiar_celda_dinero_auditado t r = Ok (monto, notas) ->
  todos es_digito fr = true ->
  monto == inject_Z (Z.of_N n)
           + (Z.of_N (valor_digitos 0 fr) # pow10 (String.length fr)) ->
  (~ (2020 < monto /\ monto < 2030) ->
   exists monto',
     limpiar_celda_dinero_auditado (formato n fr) r = Ok (monto', "NORMAL")
     /\ monto' == monto)
  /\ (2020 < monto /\ monto < 2030 ->
      limpiar_celda_dinero_auditado (formato n fr) r
      = Ok (0, "POSIBLE_FECHA_IGNORADA")).
Proof.
  intros _ Hf Hm. rewrite <- decimal_str_entero in Hm.
  rewrite (limpiar_formato n fr r Hf).
  assert (Ea : es_anio (decimal (str_entero n) fr) = true
               <-> 2020 < monto /\ monto < 2030).
  { unfold es_anio. rewrite andb_true_iff, !Qltb_lt, Hm. reflexivity. }
  split; intro H.
  - destruct (es_anio _); [elim H; now apply Ea|].
    eexists. split; [reflexivity|]. rewrite Hm. ring.
  - apply Ea in H. now rewrite H.
Qed.

Lemma C2_ida_y_vuelta_witness :
  exists monto',
    limpiar_celda_dinero_auditado (formato 150 "5") (Some 1000)
    = Ok (monto', "NORMAL")
    /\ monto' == 1505 # 10.
Proof.
  apply (C2_ida_y_vuelta "150 0,5" (Some 1000) (1505 # 10) "NORMAL" 150%N "5").
  - reflexivity.
  - reflexivity.
  - reflexivity.
  - intros [H _]. vm_compute in H. discriminate.
Defined.

(** ** The rate series has one row per day *)

Section SerieDolar.
Local Open Scope Z_scope.

Lemma rango_S (a : Z) (n : nat) :
  map (fun i => a + Z.of_nat i) (seq 0 (S n))
  = a :: map (fun i => (a + 1) + Z.of_nat i) (seq 0 n).
Proof.
  cbn [seq map]. f_equal; [lia|].
  rewrite <- seq_shift, map_map. apply map_ext. intro i. lia.
Qed.

Lemma in_date_range (a b d : Z) : In d (date_range a b) <-> a <= d <= b.
Proof.
  unfold date_range. rewrite in_map_iff. split.
  - intros (i & <- & Hi). apply in_seq in Hi. lia.
  - intro H. exists (Z.to_nat (d - a)). split; [lia|]. apply in_seq. lia.
Qed.

Lemma map_fst_ffill (p : option Q) (l : list (Z * option Q)) :
  map fst (ffill p l) = map fst l.
Proof.
  revert p. induction l as [|[d v] l IH]; intro p; [reflexivity|].
  cbn [ffill map fst]. now rewrite IH.
Qed.

Lemma map_fst_reindex (df : list cotizacion) (r : list Z) :
  map fst (reindex df r) = r.
Proof.
  unfold reindex. rewrite map_map. cbn [fst]. apply map_id.
Qed.

(** A value of the filled frame is the value of the nearest day with a
    row at or before it, or the value carried into the range. *)
Lemma ffill_reindex (df : list cotizacion) (n : nat) :
  forall (a : Z) (p : option Q) (d : Z) (v : option Q),
    In (d, v) (ffill p (reindex df (map (fun i => a + Z.of_nat i) (seq 0 n)))) ->
    a <= d
    /\ ((exists d', a <= d' <= d /\ valor_en df d' = v /\ v <> None
                    /\ forall d'', d' < d'' <= d -> valor_en df d'' = None)
        \/ (v = p /\ forall d'', a <= d'' <= d -> valor_en df d'' = None)).
Proof.
  induction n as [|n IH]; intros a p d v Hin; [contradiction|].
  rewrite rango_S in Hin. unfold reindex in Hin. cbn [map ffill] in Hin.
  fold (reindex df (map (fun i => (a + 1) + Z.of_nat i) (seq 0 n))) in Hin.
  destruct Hin as [E|Hin].
  - injection E as <- <-. split; [lia|].
    destruct (valor_en df a) as [q|] eqn:Ea.
    + left. exists a. repeat split; try lia; [exact Ea | discriminate].
    + right. split; [reflexivity|]. intros d'' H. now replace d'' with a by lia.
  - apply IH in Hin. destruct Hin as [Hle [(d' & Hd & Ev & Hv & Hn)|[Ev Hn]]];
      (split; [lia|]).
    + left. exists d'. repeat split; try lia; assumption.
    + destruct (valor_en df a) as [q|] eqn:Ea.
      * left. exists a.
        repeat split; try lia; [now rewrite Ea | rewrite Ev; discriminate |].
        intros d'' H'. apply Hn. lia.
      * right. split; [exact Ev|]. intros d'' H'.
        destruct (Z.eq_dec d'' a) as [->|]; [exact Ea | apply Hn; lia].
Qed.

(** *** Looking a date up *)

Lemma valor_en_none (l : list cotizacion) (d : Z) :
  valor_en l d = None <-> forall r, In r l -> fst r <> d.
Proof.
  unfold valor_en. split.
  - intros H r Hr E.
    destruct (find (fun r => fst r =? d) l) eqn:F; [discriminate|].
    apply (find_none _ _ F) in Hr. lia.
  - intro H. destruct (find (fun r => fst r =? d) l) eqn:F; [|reflexivity].
    apply find_some in F. destruct F as [Hin E]. apply Z.eqb_eq in E.
    now elim (H _ Hin).
Qed.

Lemma valor_en_cons (r : cotizacion) (l : list cotizacion) (d : Z) :
  valor_en (r :: l) d = if fst r =? d then Some (snd r) else valor_en l d.
Proof. unfold valor_en. cbn [find]. now destruct (fst r =? d). Qed.

Lemma valor_en_insertar (r : cotizacion) (l : list cotizacion) (d : Z) :
  (forall x, In x l -> fst x <> fst r) ->
  valor_en (insertar r l) d = valor_en (r :: l) d.
Proof.
  intro H. induction l as [|x l IH]; [reflexivity|].
  cbn [insertar]. destruct (fst r <=? fst x); [reflexivity|].
  rewrite valor_en_cons, IH by (intros y Hy; apply H; now right).
  rewrite !valor_en_cons.
  destruct (Z.eqb_spec (fst x) d) as [E1|N1]; [|reflexivity].
  destruct (Z.eqb_spec (fst r) d) as [E2|N2]; [|reflexivity].
  elim (H x (or_introl eq_refl)). congruence.
Qed.

Lemma in_insertar (r x : cotizacion) (l : list cotizacion) :
  In x (insertar r l) <-> x = r \/ In x l.
Proof.
  induction l as [|y l IH]; simpl; [intuition auto|].
  destruct (fst r <=? fst y); simpl; [intuition auto|].
  rewrite IH. intuition auto.
Qed.

Lemma in_sort_values (x : cotizacion) (l : list cotizacion) :
  In x (sort_values l) <-> In x l.
Proof.
  unfold sort_values. induction l as [|y l IH]; simpl; [tauto|].
  rewrite in_insertar, IH. intuition auto.
Qed.

Lemma valor_en_sort (l : list cotizacion) (d : Z) :
  NoDup (map fst l) -> valor_en (sort_values l) d = valor_en l d.
Proof.
  unfold sort_values. induction l as [|r l IH]; [reflexivity|].
  cbn [map fold_right]. intro H. inversion H as [|? ? Hn Hl]; subst.
  rewrite valor_en_insertar.
  - rewrite !valor_en_cons. now rewrite (IH Hl).
  - intros x Hx E. apply Hn. rewrite <- E.
    apply in_map. exact (proj1 (in_sort_values x l) Hx).
Qed.

(** *** The last row of each date *)

Lemma existsb_fecha (d : Z) (l : list cotizacion) :
  existsb (fun r' => fst r' =? d) l = true <-> In d (map fst l).
Proof.
  rewrite existsb_exists, in_map_iff. split.
  - intros (x & Hx & E). apply Z.eqb_eq in E. eauto.
  - intros (x & E & Hx). exists x. split; [exact Hx | now apply Z.eqb_eq].
Qed.

Lemma in_drop_duplicates_last (l : list cotizacion) (x : cotizacion) :
  In x (drop_duplicates_last l) ->
  exists l1 l2, l = (l1 ++ x :: l2)%list /\ forall r, In r l2 -> fst r <> fst x.
Proof.
  induction l as [|r l IH]; [contradiction|].
  cbn [drop_duplicates_last].
  destruct (existsb (fun r' => fst r' =? fst r) l) eqn:E.
  - intro H. destruct (IH H) as (l1 & l2 & -> & Hl).
    exists (r :: l1), l2. split; [reflexivity | exact Hl].
  - intros [<-|H].
    + exists [], l. split; [reflexivity|]. intros y Hy Ey.
      assert (T : existsb (fun r' => fst r' =? fst r) l = true)
        by (apply existsb_fecha; rewrite <- Ey; now apply in_map).
      congruence.
    + destruct (IH H) as (l1 & l2 & -> & Hl).
      exists (r :: l1), l2. split; [reflexivity | exact Hl].
Qed.

Lemma fechas_drop_duplicates_last (l : list cotizacion) (d : Z) :
  In d (map fst (drop_duplicates_last l)) <-> In d (map fst l).
Proof.
  induction l as [|r l IH]; [tauto|].
  cbn [drop_duplicates_last].
  destruct (existsb (fun r' => fst r' =? fst r) l) eqn:E; cbn [map In].
  - rewrite IH. apply existsb_fecha in E. split; [auto|].
    intros [<-|H]; auto.
  - now rewrite IH.
Qed.

Lemma NoDup_drop_duplicates_last (l : list cotizacion) :
  NoDup (map fst (drop_duplicates_last l)).
Proof.
  induction l as [|r l IH]; [constructor|].
  cbn [drop_duplicates_last].
  destruct (existsb (fun r' => fst r' =? fst r) l) eqn:E; [exact IH|].
  cbn [map]. constructor; [|exact IH].
  rewrite fechas_drop_duplicates_last, <- existsb_fecha. congruence.
Qed.

(** *** The least and the greatest date *)

Lemma minimo_spec (x : Z) (xs : list Z) :
  In (minimo x xs) (x :: xs) /\ forall y, In y (x :: xs) -> minimo x xs <= y.
Proof.
  unfold minimo. revert x. induction xs as [|z xs IH]; intro x; cbn [fold_left].
  - split; [now left|]. intros y [<-|[]]. lia.
  - destruct (IH (Z.min x z)) as [Hin Hle]. split.
    + destruct Hin as [E|Hin]; [|right; now right].
      rewrite <- E. destruct (Z.min_spec x z) as [[_ ->]|[_ ->]];
        [now left | right; now left].
    + intros y Hy. assert (Hm : fold_left Z.min xs (Z.min x z) <= Z.min x z)
        by (apply Hle; now left).
      destruct Hy as [<-|[<-|Hy]]; [lia | lia | apply Hle; now right].
Qed.

Lemma maximo_spec (x : Z) (xs : list Z) :
  In (maximo x xs) (x :: xs) /\ forall y, In y (x :: xs) -> y <= maximo x xs.
Proof.
  unfold maximo. revert x. induction xs as [|z xs IH]; intro x; cbn [fold_left].
  - split; [now left|]. intros y [<-|[]]. lia.
  - destruct (IH (Z.max x z)) as [Hin Hle]. split.
    + destruct Hin as [E|Hin]; [|right; now right].
      rewrite <- E. destruct (Z.max_spec x z) as [[_ ->]|[_ ->]];
        [right; now left | now left].
    + intros y Hy. assert (Hm : Z.max x z <= fold_left Z.max xs (Z.max x z))
        by (apply Hle; now left).
      destruct Hy as [<-|[<-|Hy]]; [lia | lia | apply Hle; now right].
Qed.

Lemma valor_en_some (l : list cotizacion) (d : Z) (q : Q) :
  valor_en l d = Some q -> In (d, q) l.
Proof.
  unfold valor_en. destruct (find (fun r => fst r =? d) l) as [r|] eqn:F;
    [|discriminate].
  apply find_some in F. destruct F as [Hin E]. apply Z.eqb_eq in E.
  cbn [option_map]. intro H. injection H as <-. subst d. now destruct r.
Qed.

Lemma fechas_df_final (l : list cotizacion) (d : Z) :
  In d (map fst (sort_values (drop_duplicates_last l))) <-> In d (map fst l).
Proof.
  rewrite <- (fechas_drop_duplicates_last l d), !in_map_iff.
  split; intros (x & E & Hx); exists x; (split; [exact E|]).
  - exact (proj1 (in_sort_values x _) Hx).
  - exact (proj2 (in_sort_values x _) Hx).
Qed.

Lemma valor_en_df_final (l : list cotizacion) (d : Z) :
  valor_en (sort_values (drop_duplicates_last l)) d
  = valor_en (drop_duplicates_last l) d.
Proof. apply valor_en_sort, NoDup_drop_duplicates_last. Qed.

Lemma valor_en_fecha (l : list cotizacion) (d : Z) :
  In d (map fst l) -> valor_en l d <> None.
Proof.
  intros H E. rewrite valor_en_none in E. apply in_map_iff in H.
  destruct H as (x & Ex & Hx). now apply (E x Hx).
Qed.

(** The days of the series and the rate of each of them. *)
Lemma serie_dolar (df_historico df_hoy : list cotizacion) (r0 : cotizacion) :
  In r0 (df_historico ++ df_hoy) ->
  exists a b,
    In a (map fst (df_historico ++ df_hoy))
    /\ In b (map fst (df_historico ++ df_hoy))
    /\ (forall r, In r (df_historico ++ df_hoy) -> a <= fst r <= b)
    /\ map fst (obtener_dolar_hibrido df_historico df_hoy) = date_range a b
    /\ (forall d v,
          In (d, v) (obtener_dolar_hibrido df_historico df_hoy) ->
          exists l1 l2 d' q,
            (df_historico ++ df_hoy = l1 ++ (d', q) :: l2)%list
            /\ d' <= d /\ v = Some q
            /\ (forall r, In r l2 -> fst r <> d')
            /\ (forall r, In r (df_historico ++ df_hoy) ->
                          fst r <= d -> fst r <= d')).
Proof.
  intro H0. unfold obtener_dolar_hibrido.
  set (C := (df_historico ++ df_hoy)%list) in *.
  destruct C as [|c0 C'] eqn:EC; [contradiction|]. rewrite <- EC in *. clear EC c0 C'.
  set (df := sort_values (drop_duplicates_last C)). cbv zeta.
  assert (Hf : forall d, In d (map fst df) <-> In d (map fst C))
    by (intro d; apply fechas_df_final).
  destruct (map fst df) as [|f fs] eqn:EF.
  { exfalso. apply (proj2 (Hf (fst r0))). now apply in_map. }
  destruct (minimo_spec f fs) as [Ha1 Ha2].
  destruct (maximo_spec f fs) as [Hb1 Hb2].
  set (a := minimo f fs) in *. set (b := maximo f fs) in *.
  exists a, b. split; [now apply Hf|]. split; [now apply Hf|]. split.
  { intros r Hr. assert (In (fst r) (f :: fs)) by (apply Hf; now apply in_map).
    split; [now apply Ha2 | now apply Hb2]. }
  split; [now rewrite map_fst_ffill, map_fst_reindex|].
  intros d v Hin. unfold date_range in Hin.
  apply ffill_reindex in Hin.
  destruct Hin as [Had [(d' & Hd & Ev & Hv & Hn)|[Ev Hn]]].
  - destruct v as [q|]; [|now elim Hv].
    unfold df in Ev. rewrite valor_en_df_final in Ev.
    apply valor_en_some, in_drop_duplicates_last in Ev.
    destruct Ev as (l1 & l2 & E & Hl). cbn [fst] in Hl.
    exists l1, l2, d', q. repeat split; try assumption; try lia.
    intros r Hr Hle. destruct (Z_le_gt_dec (fst r) d') as [L|G]; [exact L|].
    exfalso. apply (valor_en_fecha df (fst r)).
    + rewrite EF. apply Hf. now apply in_map.
    + apply Hn. lia.
  - exfalso. apply (valor_en_fecha df a); [rewrite EF; exact Ha1|]. apply Hn. lia.
Qed.

(** X14. The unified series has exactly one row for every day from its
    first to its last quoted date, in order and without gaps, and no row
    is left without a rate: the rate of a day is that of the latest
    quoted date at or before it, taken from the last row of that date, so
    the live value replaces the historical value of its day. *)
Theorem X14_serie_sin_huecos (df_historico df_hoy : list cotizacion)
        (r0 : cotizacion) :
  In r0 (df_historico ++ df_hoy) ->
  exists a b,
    In a (map fst (df_historico ++ df_hoy))
    /\ In b (map fst (df_historico ++ df_hoy))
    /\ (forall r, In r (df_historico ++ df_hoy) -> a <= fst r <= b)
    /\ map fst (obtener_dolar_hibrido df_historico df_hoy) = date_range a b
    /\ (forall d v,
          In (d, v) (obtener_dolar_hibrido df_historico df_hoy) ->
          exists l1 l2 d' q,
            (df_historico ++ df_hoy = l1 ++ (d', q) :: l2)%list
            /\ d' <= d /\ v = Some q
            /\ (forall r, In r l2 -> fst r <> d')
            /\ (forall r, In r (df_historico ++ df_hoy) ->
                          fst r <= d -> fst r <= d'))
    /\ (forall h q, df_hoy = [(h, q)] ->
                    In (h, Some q) (obtener_dolar_hibrido df_historico df_hoy)).
Proof.
  intro H0.
  destruct (serie_dolar df_historico df_hoy r0 H0)
    as (a & b & Ha & Hb & Hab & Hr & Hcar).
  exists a, b. repeat (split; [assumption|]).
  intros h q Eh.
  assert (HhC : In (h, q) (df_historico ++ df_hoy))
    by (rewrite Eh; apply in_or_app; right; now left).
  assert (Hh : In h (date_range a b))
    by (apply in_date_range; exact (Hab _ HhC)).
  rewrite <- Hr in Hh.
  apply in_map_iff in Hh. destruct Hh as ([h' v] & Eh' & Hin).
  cbn [fst] in Eh'. subst h'.
  destruct (Hcar h v Hin) as (l1 & l2 & d' & q' & E & Hle & -> & Hl & Hmax).
  assert (Ed : d' = h) by (pose proof (Hmax _ HhC) as M; cbn [fst] in M; lia).
  subst d'.
  assert (Eq : q' = q).
  { rewrite Eh in E.
    destruct l2 as [|x l2] using rev_ind.
    - apply app_inj_tail in E. destruct E as [_ E]. congruence.
    - clear IHl2. rewrite app_comm_cons, app_assoc in E.
      apply app_inj_tail in E. destruct E as [_ E]. subst x.
      elim (Hl (h, q)); [apply in_or_app; right; now left | reflexivity]. }
  now subst q'.
Qed.

End SerieDolar.

(** ** The deduplication of the ledger *)

Section Deduplicacion.
Import Ventas.

Variable celda : Type.
Variable igual : celda -> celda -> bool.
Hypothesis igual_refl : forall x, igual x x = true.
Hypothesis igual_sym : forall x y, igual x y = igual y x.
Hypothesis igual_trans :
  forall x y z, igual x y = true -> igual y z = true -> igual x z = true.

Variable subset : list string.

Lemma misma_clave_refl (r : registro celda) : misma_clave igual subset r r = true.
Proof.
  unfold misma_clave. apply forallb_forall. intros c _. unfold misma_celda.
  destruct (String.eqb c "fecha_dt"); [apply Z.eqb_refl | apply igual_refl].
Qed.

Lemma misma_clave_sym (r1 r2 : registro celda) : misma_clave igual subset r1 r2 = misma_clave igual subset r2 r1.
Proof.
  unfold misma_clave.
  induction subset as [|c cs IH]; [reflexivity|]. cbn [forallb].
  rewrite IH. f_equal. unfold misma_celda.
  destruct (String.eqb c "fecha_dt"); [apply Z.eqb_sym | apply igual_sym].
Qed.

Lemma misma_clave_trans (r1 r2 r3 : registro celda) :
  misma_clave igual subset r1 r2 = true -> misma_clave igual subset r2 r3 = true -> misma_clave igual subset r1 r3 = true.
Proof.
  unfold misma_clave. rewrite !forallb_forall. intros H1 H2 c Hc.
  specialize (H1 c Hc). specialize (H2 c Hc). unfold misma_celda in *.
  destruct (String.eqb c "fecha_dt").
  - apply Z.eqb_eq in H1, H2. apply Z.eqb_eq. congruence.
  - eapply igual_trans; eassumption.
Qed.

Lemma visto_false (x : registro celda) (vistos : list (registro celda)) :
  existsb (misma_clave igual subset x) vistos = false <->
  forall v, In v vistos -> misma_clave igual subset x v = false.
Proof.
  split.
  - intros H v Hv. destruct (misma_clave igual subset x v) eqn:E; [|reflexivity].
    assert (T : existsb (misma_clave igual subset x) vistos = true)
      by (apply existsb_exists; eauto).
    congruence.
  - intro H. destruct (existsb (misma_clave igual subset x) vistos) eqn:E; [|reflexivity].
    apply existsb_exists in E. destruct E as (v & Hv & E).
    rewrite (H v Hv) in E. discriminate.
Qed.

(** A kept row is the first row of the frame with its key, and no row
    seen before has it. *)
Lemma desde_primera (vistos df : list (registro celda)) (x : registro celda) :
  In x (drop_duplicates_desde igual subset vistos df) ->
  existsb (misma_clave igual subset x) vistos = false
  /\ exists l1 l2, df = (l1 ++ x :: l2)%list
                   /\ forall y, In y l1 -> misma_clave igual subset y x = false.
Proof.
  revert vistos. induction df as [|r df IH]; intros vistos Hin; [contradiction|].
  cbn [drop_duplicates_desde] in Hin.
  destruct (existsb (misma_clave igual subset r) vistos) eqn:E.
  - destruct (IH _ Hin) as (Hx & l1 & l2 & -> & Hl). split; [exact Hx|].
    exists (r :: l1), l2. split; [reflexivity|].
    intros y [<-|Hy]; [|now apply Hl].
    destruct (misma_clave igual subset r x) eqn:Erx; [|reflexivity].
    apply existsb_exists in E. destruct E as (v & Hv & Erv).
    rewrite visto_false in Hx. specialize (Hx v Hv).
    rewrite misma_clave_sym in Erx.
    rewrite (misma_clave_trans _ _ _ Erx Erv) in Hx. discriminate.
  - destruct Hin as [<-|Hin].
    + split; [exact E|]. exists [], df. split; [reflexivity|]. intros y [].
    + destruct (IH _ Hin) as (Hx & l1 & l2 & -> & Hl).
      cbn [existsb] in Hx. apply orb_false_iff in Hx. destruct Hx as [Hxr Hx].
      split; [exact Hx|].
      exists (r :: l1), l2. split; [reflexivity|].
      intros y [<-|Hy]; [now rewrite misma_clave_sym | now apply Hl].
Qed.

Lemma desde_distintas (vistos df : list (registro celda)) :
  ForallOrdPairs (fun r1 r2 => misma_clave igual subset r1 r2 = false)
                 (drop_duplicates_desde igual subset vistos df).
Proof.
  revert vistos. induction df as [|r df IH]; intro vistos; [constructor|].
  cbn [drop_duplicates_desde].
  destruct (existsb (misma_clave igual subset r) vistos); [apply IH|].
  constructor; [|apply IH].
  apply Forall_forall. intros x Hx. apply desde_primera in Hx.
  destruct Hx as [Hx _]. cbn [existsb] in Hx.
  apply orb_false_iff in Hx. destruct Hx as [Hx _].
  now rewrite misma_clave_sym.
Qed.

Lemma desde_cubre (vistos df : list (registro celda)) (x : registro celda) :
  In x df ->
  existsb (misma_clave igual subset x) vistos = true
  \/ exists x', In x' (drop_duplicates_desde igual subset vistos df)
                /\ misma_clave igual subset x x' = true.
Proof.
  revert vistos. induction df as [|r df IH]; intros vistos Hin; [contradiction|].
  cbn [drop_duplicates_desde].
  destruct (existsb (misma_clave igual subset r) vistos) eqn:E.
  - destruct Hin as [<-|Hin]; [now left | now apply IH].
  - destruct Hin as [<-|Hin].
    + right. exists r. split; [now left | apply misma_clave_refl].
    + destruct (IH (r :: vistos) Hin) as [H|(x' & Hx' & Exx')].
      * cbn [existsb] in H. apply orb_true_iff in H. destruct H as [H|H].
        -- right. exists r. split; [now left | exact H].
        -- now left.
      * right. exists x'. split; [now right | exact Exx'].
Qed.

Lemma desde_length (vistos df : list (registro celda)) :
  (List.length (drop_duplicates_desde igual subset vistos df)
   <= List.length df)%nat.
Proof.
  revert vistos. induction df as [|r df IH]; intro vistos; [apply Nat.le_refl|].
  cbn [drop_duplicates_desde].
  destruct (existsb (misma_clave igual subset r) vistos); cbn [List.length].
  - specialize (IH vistos). lia.
  - specialize (IH (r :: vistos)). lia.
Qed.

Lemma desde_length_eq (vistos df : list (registro celda)) :
  List.length (drop_duplicates_desde igual subset vistos df) = List.length df ->
  drop_duplicates_desde igual subset vistos df = df.
Proof.
  revert vistos. induction df as [|r df IH]; intro vistos; [reflexivity|].
  cbn [drop_duplicates_desde].
  destruct (existsb (misma_clave igual subset r) vistos); cbn [List.length]; intro H.
  - pose proof (desde_length vistos df). lia.
  - f_equal. apply IH. lia.
Qed.

Lemma desde_id (vistos df : list (registro celda)) :
  (forall x, In x df -> existsb (misma_clave igual subset x) vistos = false) ->
  ForallOrdPairs (fun r1 r2 => misma_clave igual subset r1 r2 = false) df ->
  drop_duplicates_desde igual subset vistos df = df.
Proof.
  revert vistos. induction df as [|r df IH]; intros vistos Hv Hp; [reflexivity|].
  cbn [drop_duplicates_desde]. rewrite (Hv r (or_introl eq_refl)).
  inversion Hp as [|? ? Hr Hp']; subst. f_equal. apply IH; [|exact Hp'].
  intros x Hx. cbn [existsb]. rewrite (Hv x (or_intror Hx)), orb_false_r.
  rewrite Forall_forall in Hr. rewrite misma_clave_sym. now apply Hr.
Qed.

(** X15. For a cell equality that is an equivalence: after the
    deduplication no two rows of the ledger agree on all the control columns; the row kept for a key is the first one of the
    frame, every dropped row agrees with a kept one, [rows_removed] is
    never negative and is 0 exactly when nothing was dropped, and a second
    deduplication drops nothing. *)
Theorem X15_deduplicacion (df : list (registro celda)) :
  ForallOrdPairs (fun r1 r2 => misma_clave igual subset r1 r2 = false)
                 (drop_duplicates igual subset df)
  /\ (forall x, In x (drop_duplicates igual subset df) ->
        exists l1 l2, df = (l1 ++ x :: l2)%list
                      /\ forall y, In y l1 -> misma_clave igual subset y x = false)
  /\ (forall x, In x df ->
        exists x', In x' (drop_duplicates igual subset df) /\ misma_clave igual subset x x' = true)
  /\ (0 <= rows_removed igual subset df)%Z
  /\ (rows_removed igual subset df = 0%Z <-> drop_duplicates igual subset df = df)
  /\ drop_duplicates igual subset (drop_duplicates igual subset df)
     = drop_duplicates igual subset df.
Proof.
  unfold rows_removed, drop_duplicates.
  split; [apply desde_distintas|].
  split; [intros x Hx; now apply desde_primera in Hx|].
  split.
  { intros x Hx. destruct (desde_cubre [] df x Hx) as [H|H];
      [discriminate H | exact H]. }
  pose proof (desde_length [] df) as Hlen.
  split; [lia|]. split.
  - split; intro H; [apply desde_length_eq; lia | rewrite H; lia].
  - apply desde_id; [reflexivity | apply desde_distintas].
Qed.

End Deduplicacion.

(** ** The merge with the rate series *)

Section Merge.
Import Ventas.
Local Open Scope Z_scope.

Variable celda : Type.
Variable str : celda -> string.

Lemma NoDup_rango (n : nat) :
  forall a, NoDup (map (fun i => a + Z.of_nat i) (seq 0 n)).
Proof.
  induction n as [|n IH]; intro a; [constructor|].
  rewrite rango_S. constructor; [|apply IH].
  rewrite in_map_iff. intros (i & E & _). lia.
Qed.

Lemma NoDup_date_range (a b : Z) : NoDup (date_range a b).
Proof. apply NoDup_rango. Qed.

Lemma filter_fecha_nada (A : Type) (l : list (Z * A)) (d : Z) :
  ~ In d (map fst l) -> filter (fun q => fst q =? d) l = [].
Proof.
  induction l as [|x l IH]; [reflexivity|].
  cbn [map In filter]. intro H.
  destruct (Z.eqb_spec (fst x) d) as [E|N]; [elim H; now left|].
  apply IH. intro H'. apply H. now right.
Qed.

Lemma filter_fecha_unica (A : Type) (l : list (Z * A)) (d : Z) (v : A) :
  NoDup (map fst l) -> In (d, v) l ->
  filter (fun q => fst q =? d) l = [(d, v)].
Proof.
  induction l as [|x l IH]; [contradiction|].
  cbn [map]. intros Hn Hin. inversion Hn as [|? ? Hx Hl]; subst.
  cbn [filter]. destruct Hin as [->|Hin].
  - cbn [fst] in *. rewrite Z.eqb_refl. f_equal. now apply filter_fecha_nada.
  - destruct (Z.eqb_spec (fst x) d) as [E|N].
    + elim Hx. rewrite E. now apply (in_map fst _ (d, v)).
    + now apply IH.
Qed.

Lemma in_merge (df_ventas : list (registro celda))
      (df_dolar : list (Z * option Q)) (v : venta) :
  In v (merge str df_ventas df_dolar) ->
  exists r,
    In r df_ventas /\ v_fecha_dt v = r_fecha_dt r
    /\ (v_cotizacion_blue v = None
        \/ In (v_fecha_dt v, v_cotizacion_blue v) df_dolar).
Proof.
  unfold merge. rewrite in_flat_map. intros (r & Hr & Hv).
  exists r. split; [exact Hr|].
  destruct (filter (fun q => fst q =? r_fecha_dt r) df_dolar) as [|q qs] eqn:E.
  - destruct Hv as [<-|[]]. split; [reflexivity | now left].
  - apply in_map_iff in Hv. destruct Hv as (q' & <- & Hq).
    split; [reflexivity|]. right. cbn [v_fecha_dt v_cotizacion_blue fila_merged].
    rewrite <- E in Hq. apply filter_In in Hq. destruct Hq as [Hq Ef].
    apply Z.eqb_eq in Ef. rewrite <- Ef. now destruct q'.
Qed.

(** X16. Merged with the unified series, every row of the ledger gives
    exactly one row, in the order of the ledger.  Its rate is the one the
    series has for its day, and it is missing only when the sale is dated
    before the first quote or after the last one. *)
Theorem X16_cotizacion_de_cada_venta (df_historico df_hoy : list cotizacion)
        (df_ventas : list (registro celda)) (r0 : cotizacion) :
  In r0 (df_historico ++ df_hoy) ->
  exists cot : registro celda -> option Q,
    merge str df_ventas (obtener_dolar_hibrido df_historico df_hoy)
    = map (fun r => fila_merged str r (cot r)) df_ventas
    /\ forall r,
        match cot r with
        | Some q =>
            In (r_fecha_dt r, Some q)
               (obtener_dolar_hibrido df_historico df_hoy)
        | None =>
            (forall x, In x (df_historico ++ df_hoy) -> r_fecha_dt r < fst x)
            \/ (forall x, In x (df_historico ++ df_hoy) -> fst x < r_fecha_dt r)
        end.
Proof.
  intro H0.
  destruct (serie_dolar df_historico df_hoy r0 H0)
    as (a & b & Ha & Hb & Hab & Hr & Hcar).
  set (df_dolar := obtener_dolar_hibrido df_historico df_hoy) in *.
  assert (Hnd : NoDup (map fst df_dolar))
    by (rewrite Hr; apply NoDup_date_range).
  set (cot := fun r : registro celda =>
                match filter (fun q => fst q =? r_fecha_dt r) df_dolar with
                | [] => None
                | q :: _ => snd q
                end).
  assert (Hfil : forall r : registro celda,
             (exists q, filter (fun x => fst x =? r_fecha_dt r) df_dolar
                        = [(r_fecha_dt r, Some q)])
             \/ (filter (fun x => fst x =? r_fecha_dt r) df_dolar = []
                 /\ ~ a <= r_fecha_dt r <= b)).
  { intro r. destruct (Z_le_gt_dec a (r_fecha_dt r)) as [L1|G1];
      [destruct (Z_le_gt_dec (r_fecha_dt r) b) as [L2|G2]|].
    - left. assert (Hin : In (r_fecha_dt r) (map fst df_dolar))
        by (rewrite Hr; apply in_date_range; lia).
      apply in_map_iff in Hin. destruct Hin as ([d v] & Ed & Hin).
      cbn [fst] in Ed. subst d.
      destruct (Hcar _ _ Hin) as (_ & _ & _ & q & _ & _ & -> & _).
      exists q. now apply filter_fecha_unica.
    - right. split; [|lia]. apply filter_fecha_nada.
      rewrite Hr, in_date_range. lia.
    - right. split; [|lia]. apply filter_fecha_nada.
      rewrite Hr, in_date_range. lia. }
  exists cot. split.
  - unfold merge. induction df_ventas as [|r rs IH]; [reflexivity|].
    cbn [flat_map]. rewrite IH. cbn [map]. unfold cot.
    destruct (Hfil r) as [(q & ->)|[-> _]]; reflexivity.
  - intro r. unfold cot.
    destruct (Hfil r) as [(q & E)|[E Hout]]; rewrite E; cbn [snd].
    + assert (Hin : In (r_fecha_dt r, Some q)
                       (filter (fun x => fst x =? r_fecha_dt r) df_dolar))
        by (rewrite E; now left).
      now apply filter_In in Hin.
    + destruct (Z_le_gt_dec a (r_fecha_dt r)) as [L1|G1].
      * right. intros x Hx. pose proof (Hab x Hx). lia.
      * left. intros x Hx. pose proof (Hab x Hx). lia.
Qed.

End Merge.

(** ** The calendar dimension *)

From Stdlib Require Import Permutation.

Section DimCalendario.
Import Ventas Calendario.
Local Open Scope Z_scope.

Variables anio mes dia : Z -> Z.

Lemma cuenta_fecha (l : list Z) (d : Z) :
  NoDup l -> In d l -> List.length (filter (fun z => z =? d) l) = 1%nat.
Proof.
  induction l as [|x l IH]; [contradiction|].
  intros Hn Hin. inversion Hn as [|? ? Hx Hl]; subst. cbn [filter].
  destruct (Z.eqb_spec x d) as [->|N].
  - cbn [List.length]. f_equal.
    assert (E : filter (fun z => z =? d) l = []).
    { clear - Hx. induction l as [|y l IH]; [reflexivity|]. cbn [filter].
      destruct (Z.eqb_spec y d) as [->|N]; [elim Hx; now left|].
      apply IH. intro H. apply Hx. now right. }
    now rewrite E.
  - destruct Hin as [E|Hin]; [contradiction | now apply IH].
Qed.

Lemma cuenta_fila (l : list Z) (d : Z) :
  filter (fun x => fecha_id x =? d) (map (fila_de anio mes dia) l)
  = map (fila_de anio mes dia) (filter (fun z => z =? d) l).
Proof.
  induction l as [|x l IH]; [reflexivity|].
  cbn [map filter fecha_id fila_de]. rewrite IH.
  now destruct (x =? d).
Qed.

Lemma dayofweek_cases (d : Z) :
  dayofweek d = 0 \/ dayofweek d = 1 \/ dayofweek d = 2 \/ dayofweek d = 3
  \/ dayofweek d = 4 \/ dayofweek d = 5 \/ dayofweek d = 6.
Proof.
  unfold dayofweek. pose proof (Z.mod_pos_bound (d + 6) 7). lia.
Qed.

Lemma dia_de_la_semana (d : Z) :
  exists n,
    map_dict dias_esp (dayofweek d) = Some n
    /\ (isin_5_6 (dayofweek d) = 1 <-> n = sabado \/ n = "Domingo")
    /\ (isin_5_6 (dayofweek d) = 0 \/ isin_5_6 (dayofweek d) = 1).
Proof.
  destruct (dayofweek_cases d) as [E|[E|[E|[E|[E|[E|E]]]]]]; rewrite E;
    eexists; (split; [reflexivity|]); (split; [|vm_compute; auto]);
    vm_compute; (split; [intro H; try discriminate H; auto
                        | intros [H|H]; try discriminate H; reflexivity]).
Qed.

Lemma una_fila_por_fecha (f : Z) (fs : list Z) (d : Z) :
  In d (f :: fs) ->
  List.length
    (filter (fun x => fecha_id x =? d)
            (map (fila_de anio mes dia)
                 (date_range (minimo f fs) (maximo f fs))))
  = 1%nat.
Proof.
  intro Hd.
  destruct (minimo_spec f fs) as [_ Ha]. destruct (maximo_spec f fs) as [_ Hb].
  rewrite cuenta_fila, List.length_map.
  apply cuenta_fecha; [apply NoDup_date_range|].
  apply in_date_range. split; [now apply Ha | now apply Hb].
Qed.

(** X17. The calendar dimension has one row for every day from the
    first to the last date of the ledger, with or without sales, so each
    date of the ledger has exactly one row.  The name of the day is never
    missing, the weekend flag is 1 exactly on [Sábado] and [Domingo], and
    two rows a week apart carry the same day name. *)
Theorem X17_calendario_continuo (f : Z) (fs : list Z) :
  exists cal,
    generar_dim_calendario anio mes dia (f :: fs) = Ok cal
    /\ map fecha_id cal = date_range (minimo f fs) (maximo f fs)
    /\ Z.of_nat (List.length cal) = maximo f fs - minimo f fs + 1
    /\ (forall d, In d (f :: fs) ->
          List.length (filter (fun x => fecha_id x =? d) cal) = 1%nat)
    /\ (forall x, In x cal ->
          exists n,
            nombre_dia x = Some n
            /\ (es_fin_de_semana x = 1 <-> n = sabado \/ n = "Domingo")
            /\ (es_fin_de_semana x = 0 \/ es_fin_de_semana x = 1))
    /\ (forall x y, In x cal -> In y cal ->
          fecha_id y = fecha_id x + 7 -> nombre_dia y = nombre_dia x).
Proof.
  destruct (minimo_spec f fs) as [Ha1 Ha2].
  destruct (maximo_spec f fs) as [Hb1 Hb2].
  eexists. split; [reflexivity|]. split.
  { rewrite map_map. cbn [fecha_id fila_de]. apply map_id. }
  split.
  { rewrite List.length_map. unfold date_range.
    rewrite List.length_map, List.length_seq.
    pose proof (Ha2 _ Hb1). lia. }
  split.
  { intros d Hd. now apply una_fila_por_fecha. }
  split.
  - intros x Hx. apply in_map_iff in Hx. destruct Hx as (d & <- & _).
    cbn [nombre_dia es_fin_de_semana fila_de]. apply dia_de_la_semana.
  - intros x y Hx Hy E.
    apply in_map_iff in Hx. destruct Hx as (d & <- & _).
    apply in_map_iff in Hy. destruct Hy as (e & <- & _).
    cbn [fecha_id nombre_dia fila_de] in *. subst e. f_equal.
    unfold dayofweek. replace (d + 7 + 6) with (d + 6 + 1 * 7) by lia.
    apply Z.mod_add. lia.
Qed.

End DimCalendario.

(** ** The dates of the fact table *)

Section FechasDeLaTabla.
Import Ventas Calendario.
Local Open Scope Z_scope.

Variable celda : Type.
Variable igual : celda -> celda -> bool.
Variable str : celda -> string.
Variables anio mes dia : Z -> Z.

Lemma melt_fecha (value_vars : list string) (df : list venta) (m : fila_melt) :
  In m (melt value_vars df) ->
  exists v, In v df /\ fecha_dt m = v_fecha_dt v
            /\ cotizacion_blue m = v_cotizacion_blue v.
Proof.
  unfold melt. rewrite in_flat_map. intros (col & _ & Hm).
  rewrite in_map_iff in Hm. destruct Hm as (v & <- & Hv). eauto.
Qed.

Lemma drop_duplicates_desde_incl (subset : list string)
      (vistos df : list (registro celda)) (x : registro celda) :
  In x (drop_duplicates_desde igual subset vistos df) -> In x df.
Proof.
  revert vistos. induction df as [|r df IH]; intros vistos Hin; [contradiction|].
  cbn [drop_duplicates_desde] in Hin.
  destruct (existsb (misma_clave igual subset r) vistos).
  - right. eapply IH; eassumption.
  - destruct Hin as [<-|Hin]; [now left | right; eapply IH; eassumption].
Qed.

Lemma ventas_validas_spec (FECHA_MAX : Z) (df : list (registro celda))
      (r : registro celda) :
  In r (ventas_validas FECHA_MAX df) ->
  In r df /\ FECHA_MIN <= r_fecha_dt r <= FECHA_MAX
  /\ nota_fecha FECHA_MAX r = "OK".
Proof.
  unfold ventas_validas. rewrite filter_In. intros [Hin H].
  split; [exact Hin|]. unfold nota_fecha.
  unfold fecha_fuera_de_rango in *.
  destruct (r_fecha_dt r <? FECHA_MIN) eqn:E1;
    [discriminate H|].
  destruct (FECHA_MAX <? r_fecha_dt r) eqn:E2; [discriminate H|].
  apply Z.ltb_ge in E1, E2. cbn [orb]. split; [lia | reflexivity].
Qed.

(** X18. Whatever order the sort leaves the ledger in, every row of the
    fact table comes from a row of the ledger whose date note is [OK]:
    its date lies between 2020-01-01 and today, and the calendar
    dimension has exactly one row for it.  Its rate is missing or is a rate
    that [df_dolar], stored as the rate dimension, has for that date. *)
Theorem X18_fechas_de_la_tabla (FECHA_MAX : Z)
        (columnas_ventas columnas_merged : list string)
        (df_ventas df_ordenado : list (registro celda))
        (df_dolar : list (Z * option Q)) (fs : list fact) (f : fact) :
  Permutation df_ordenado
              (ventas_preparadas igual FECHA_MAX columnas_ventas df_ventas) ->
  tabla_fact columnas_merged (merge str df_ordenado df_dolar) = Ok fs ->
  In f fs ->
  FECHA_MIN <= fecha_dt (origen (limpia f)) <= FECHA_MAX
  /\ (exists r, In r df_ventas
                /\ r_fecha_dt r = fecha_dt (origen (limpia f))
                /\ nota_fecha FECHA_MAX r = "OK")
  /\ (exists cal,
        generar_dim_calendario anio mes dia (map r_fecha_dt df_ordenado) = Ok cal
        /\ List.length
             (filter (fun x => fecha_id x =? fecha_dt (origen (limpia f))) cal)
           = 1%nat)
  /\ (cotizacion_blue (origen (limpia f)) = None
      \/ In (fecha_dt (origen (limpia f)), cotizacion_blue (origen (limpia f)))
            df_dolar).
Proof.
  intros Hperm Htab Hf. unfold tabla_fact in Htab.
  destruct (tabla_sin_redondear_eq columnas_merged
              (merge str df_ordenado df_dolar)) as (gs & E & Ho & _).
  rewrite E in Htab. cbn [bind] in Htab. injection Htab as <-.
  apply in_map_iff in Hf. destruct Hf as (g & <- & Hg).
  cbn [redondear limpia].
  assert (Hm : In (origen (limpia g))
                  (melt (cols_reales columnas_merged)
                        (merge str df_ordenado df_dolar))).
  { assert (Hp : In (origen (limpia g)) (map (fun f => origen (limpia f)) gs))
      by now apply (in_map (fun f => origen (limpia f))).
    rewrite Ho in Hp. now apply filter_In in Hp. }
  apply melt_fecha in Hm. destruct Hm as (v & Hv & -> & ->).
  apply in_merge in Hv. destruct Hv as (r & Hr & Efecha & Hcot).
  rewrite Efecha in *.
  assert (Hprep : In r (ventas_preparadas igual FECHA_MAX columnas_ventas df_ventas))
    by (eapply Permutation_in; eassumption).
  unfold ventas_preparadas, drop_duplicates in Hprep.
  apply drop_duplicates_desde_incl, ventas_validas_spec in Hprep.
  destruct Hprep as (Hin & Hrange & Hnota).
  split; [exact Hrange|]. split; [now exists r|]. split; [|exact Hcot].
  assert (Hd : In (r_fecha_dt r) (map r_fecha_dt df_ordenado))
    by now apply in_map.
  destruct (map r_fecha_dt df_ordenado) as [|d0 ds]; [contradiction|].
  eexists. split; [reflexivity|]. now apply una_fila_por_fecha.
Qed.

End FechasDeLaTabla.

(** ** The statements above on a small ledger *)

Lemma string_eqb_trans (x y z : string) :
  String.eqb x y = true -> String.eqb y z = true -> String.eqb x z = true.
Proof. rewrite !String.eqb_eq. congruence. Qed.

Lemma X14_serie_sin_huecos_witness :
  exists a b,
    In a (map fst (EjemploLibro.df_historico ++ EjemploLibro.df_hoy))
    /\ In b (map fst (EjemploLibro.df_historico ++ EjemploLibro.df_hoy))
    /\ (forall r, In r (EjemploLibro.df_historico ++ EjemploLibro.df_hoy) ->
                  (a <= fst r <= b)%Z)
    /\ map fst (obtener_dolar_hibrido EjemploLibro.df_historico
                                      EjemploLibro.df_hoy)
       = date_range a b
    /\ (forall d v,
          In (d, v) (obtener_dolar_hibrido EjemploLibro.df_historico
                                           EjemploLibro.df_hoy) ->
          exists l1 l2 d' q,
            (EjemploLibro.df_historico ++ EjemploLibro.df_hoy
             = l1 ++ (d', q) :: l2)%list
            /\ (d' <= d)%Z /\ v = Some q
            /\ (forall r, In r l2 -> fst r <> d')
            /\ (forall r, In r (EjemploLibro.df_historico ++ EjemploLibro.df_hoy) ->
                          (fst r <= d)%Z -> (fst r <= d')%Z))
    /\ (forall h q, EjemploLibro.df_hoy = [(h, q)] ->
                    In (h, Some q)
                       (obtener_dolar_hibrido EjemploLibro.df_historico
                                              EjemploLibro.df_hoy)).
Proof.
  apply (X14_serie_sin_huecos EjemploLibro.df_historico EjemploLibro.df_hoy
           (738156%Z, 200%Q)).
  left. reflexivity.
Defined.

Lemma X15_deduplicacion_witness :
  ForallOrdPairs
    (fun r1 r2 =>
       Ventas.misma_clave String.eqb
         (Ventas.cols_check EjemploLibro.columnas_ventas) r1 r2 = false)
    (Ventas.drop_duplicates String.eqb
       (Ventas.cols_check EjemploLibro.columnas_ventas) EjemploLibro.df_ventas)
  /\ (forall x,
        In x (Ventas.drop_duplicates String.eqb
                (Ventas.cols_check EjemploLibro.columnas_ventas)
                EjemploLibro.df_ventas) ->
        exists l1 l2,
          EjemploLibro.df_ventas = (l1 ++ x :: l2)%list
          /\ forall y, In y l1 ->
                       Ventas.misma_clave String.eqb
                         (Ventas.cols_check EjemploLibro.columnas_ventas) y x
                       = false)
  /\ (forall x, In x EjemploLibro.df_ventas ->
        exists x',
          In x' (Ventas.drop_duplicates String.eqb
                   (Ventas.cols_check EjemploLibro.columnas_ventas)
                   EjemploLibro.df_ventas)
          /\ Ventas.misma_clave String.eqb
               (Ventas.cols_check EjemploLibro.columnas_ventas) x x' = true)
  /\ (0 <= Ventas.rows_removed String.eqb
             (Ventas.cols_check EjemploLibro.columnas_ventas)
             EjemploLibro.df_ventas)%Z
  /\ (Ventas.rows_removed String.eqb
        (Ventas.cols_check EjemploLibro.columnas_ventas) EjemploLibro.df_ventas
      = 0%Z
      <-> Ventas.drop_duplicates String.eqb
            (Ventas.cols_check EjemploLibro.columnas_ventas)
            EjemploLibro.df_ventas
          = EjemploLibro.df_ventas)
  /\ Ventas.drop_duplicates String.eqb
       (Ventas.cols_check EjemploLibro.columnas_ventas)
       (Ventas.drop_duplicates String.eqb
          (Ventas.cols_check EjemploLibro.columnas_ventas)
          EjemploLibro.df_ventas)
     = Ventas.drop_duplicates String.eqb
         (Ventas.cols_check EjemploLibro.columnas_ventas)
         EjemploLibro.df_ventas.
Proof.
  apply (X15_deduplicacion string String.eqb String.eqb_refl String.eqb_sym
           string_eqb_trans
           (Ventas.cols_check EjemploLibro.columnas_ventas)
           EjemploLibro.df_ventas).
Defined.

Lemma X16_cotizacion_de_cada_venta_witness :
  exists cot : Ventas.registro string -> option Q,
    Ventas.merge (fun s => s) EjemploLibro.df_ordenado
      (obtener_dolar_hibrido EjemploLibro.df_historico EjemploLibro.df_hoy)
    = map (fun r => Ventas.fila_merged (fun s => s) r (cot r))
          EjemploLibro.df_ordenado
    /\ forall r,
        match cot r with
        | Some q =>
            In (Ventas.r_fecha_dt r, Some q)
               (obtener_dolar_hibrido EjemploLibro.df_historico
                                      EjemploLibro.df_hoy)
        | None =>
            (forall x, In x (EjemploLibro.df_historico ++ EjemploLibro.df_hoy) ->
                       (Ventas.r_fecha_dt r < fst x)%Z)
            \/ (forall x, In x (EjemploLibro.df_historico ++ EjemploLibro.df_hoy) ->
                          (fst x < Ventas.r_fecha_dt r)%Z)
        end.
Proof.
  apply (X16_cotizacion_de_cada_venta string (fun s => s)
           EjemploLibro.df_historico EjemploLibro.df_hoy
           EjemploLibro.df_ordenado (738156%Z, 200%Q)).
  left. reflexivity.
Defined.

Lemma X18_fechas_de_la_tabla_witness :
  (Ventas.FECHA_MIN <= fecha_dt (origen (limpia EjemploLibro.primera_fila))
   <= EjemploLibro.hoy)%Z
  /\ (exists r, In r EjemploLibro.df_ventas
                /\ Ventas.r_fecha_dt r
                   = fecha_dt (origen (limpia EjemploLibro.primera_fila))
                /\ Ventas.nota_fecha EjemploLibro.hoy r = "OK")
  /\ (exists cal,
        Calendario.generar_dim_calendario EjemploLibro.anio EjemploLibro.mes
          EjemploLibro.dia (map Ventas.r_fecha_dt EjemploLibro.df_ordenado)
        = Ok cal
        /\ List.length
             (filter (fun x => (Calendario.fecha_id x
                                =? fecha_dt (origen (limpia EjemploLibro.primera_fila)))%Z)
                     cal)
           = 1%nat)
  /\ (cotizacion_blue (origen (limpia EjemploLibro.primera_fila)) = None
      \/ In (fecha_dt (origen (limpia EjemploLibro.primera_fila)),
             cotizacion_blue (origen (limpia EjemploLibro.primera_fila)))
            (obtener_dolar_hibrido EjemploLibro.df_historico EjemploLibro.df_hoy)).
Proof.
  apply (X18_fechas_de_la_tabla string String.eqb (fun s => s)
           EjemploLibro.anio EjemploLibro.mes EjemploLibro.dia
           EjemploLibro.hoy EjemploLibro.columnas_ventas
           EjemploLibro.columnas_merged EjemploLibro.df_ventas
           EjemploLibro.df_ordenado
           (obtener_dolar_hibrido EjemploLibro.df_historico EjemploLibro.df_hoy)
           EjemploLibro.tabla EjemploLibro.primera_fila).
  - apply Permutation_refl.
  - reflexivity.
  - left. reflexivity.
Defined.

Lemma X17_calendario_continuo_witness :
  exists cal,
    Calendario.generar_dim_calendario EjemploLibro.anio EjemploLibro.mes
      EjemploLibro.dia [738157; 738160]%Z
    = Ok cal
    /\ map Calendario.fecha_id cal
       = date_range (minimo 738157 [738160]%Z) (maximo 738157 [738160]%Z)
    /\ Z.of_nat (List.length cal)
       = (maximo 738157 [738160] - minimo 738157 [738160] + 1)%Z
    /\ (forall d, In d [738157; 738160]%Z ->
          List.length (filter (fun x => (Calendario.fecha_id x =? d)%Z) cal)
          = 1%nat)
    /\ (forall x, In x cal ->
          exists n,
            Calendario.nombre_dia x = Some n
            /\ (Calendario.es_fin_de_semana x = 1%Z
                <-> n = Calendario.sabado \/ n = "Domingo")
            /\ (Calendario.es_fin_de_semana x = 0%Z
                \/ Calendario.es_fin_de_semana x = 1%Z))
    /\ (forall x y, In x cal -> In y cal ->
          Calendario.fecha_id y = (Calendario.fecha_id x + 7)%Z ->
          Calendario.nombre_dia y = Calendario.nombre_dia x).
Proof.
  apply (X17_calendario_continuo EjemploLibro.anio EjemploLibro.mes
           EjemploLibro.dia 738157%Z [738160]%Z).
Defined.
